(** * f_uac2: USB Audio Class 2.0 gadget function

    A shallow embedding of the rate-matching, ring-position, alt-setting and
    clock-control code of [drivers/usb/gadget/function/f_uac2.c], followed by
    the properties established about it.

    Conventions.  C integers are values of [Z] with their wrap-around written
    out ([u32] for [unsigned int], [u64] for [size_t], [s64] for [ssize_t];
    the target is LP64 and little-endian).  A C division by zero is a fault:
    the embedded function then returns [None].  Calls into the USB core, ALSA
    and the logging layer, and the lock operations, are recorded in a trace of
    events; what these collaborators answer is an input ([env]). *)

From Stdlib Require Import ZArith List Bool Lia.
Import ListNotations.
Open Scope Z_scope.

(** ** Machine integers *)

Module Mach.

Definition u8 (x : Z) : Z := x mod 2 ^ 8.
Definition u16 (x : Z) : Z := x mod 2 ^ 16.
Definition u32 (x : Z) : Z := x mod 2 ^ 32.
Definition u64 (x : Z) : Z := x mod 2 ^ 64.

(** Conversion of a 64-bit pattern to [ssize_t]. *)
Definition s64 (x : Z) : Z :=
  let y := u64 x in if y <? 2 ^ 63 then y else y - 2 ^ 64.

(** Conversion of a 32-bit pattern to [int]. *)
Definition s32 (x : Z) : Z :=
  let y := u32 x in if y <? 2 ^ 31 then y else y - 2 ^ 32.

Definition SSIZE_MAX : Z := 2 ^ 63 - 1.

Definition is_u32 (x : Z) : Prop := 0 <= x < 2 ^ 32.

(** [min_t(unsigned, a, b)] *)
Definition min_t_unsigned (a b : Z) : Z := Z.min (u32 a) (u32 b).

(** Little-endian images of 16- and 32-bit values, one [Z] per byte. *)
Definition le16 (x : Z) : list Z := [u8 x; u8 (Z.shiftr x 8)].
Definition le32 (x : Z) : list Z :=
  [u8 x; u8 (Z.shiftr x 8); u8 (Z.shiftr x 16); u8 (Z.shiftr x 24)].

(** The 32-bit value held by the first four bytes of a buffer (the read of
    a [u32] through the buffer pointer); bytes past the end of the list read
    as 0. *)
Definition load_le32 (buf : list Z) : Z :=
  nth 0 buf 0 + Z.shiftl (nth 1 buf 0) 8
  + Z.shiftl (nth 2 buf 0) 16 + Z.shiftl (nth 3 buf 0) 24.

(** [memcpy(dst, src, n)] on byte lists, both at offset 0. *)
Definition memcpy (dst src : list Z) (n : Z) : list Z :=
  firstn (Z.to_nat n) src ++ skipn (Z.to_nat n) dst.

(** A store of [bytes] at byte offset [off] of an object. *)
Definition store_at (obj : list Z) (off : nat) (bytes : list Z) : list Z :=
  firstn off obj ++ bytes ++ skipn (off + length bytes) obj.

Definition load_at (obj : list Z) (off n : nat) : list Z :=
  firstn n (skipn off obj).

End Mach.

Import Mach.

(** ** Constants *)

(** Values of [<uapi/asm-generic/errno*.h>]. *)
Definition ENOMEM : Z := 12.
Definition EINVAL : Z := 22.
Definition EOPNOTSUPP : Z := 95.
Definition ESHUTDOWN : Z := 108.

Definition USB_XFERS : nat := 8.

Definition USB_OUT_CLK_ID : Z := 9.
Definition USB_IN_CLK_ID : Z := 10.

Definition clk_frequencies : list Z := [44100; 48000].
Definition CLK_FREQ_ARR_SIZE : nat := 2.

Definition UAC2_MONO : Z := 1.
Definition UAC2_STEREO : Z := 2.
Definition UAC2_MONO_CH_CONFIG : Z := 1.
Definition UAC2_STEREO_CH_CONFIG : Z := 3.

Definition MAX_AS_OUT_ALT : Z := 6.
Definition MAX_AS_IN_ALT : Z := 6.

(** Values of [<linux/usb/audio-v2.h>] and [<uapi/linux/usb/ch9.h>]. *)
Definition UAC2_CS_CUR : Z := 1.
Definition UAC2_CS_RANGE : Z := 2.
Definition UAC2_CS_CONTROL_SAM_FREQ : Z := 1.
Definition UAC2_CS_CONTROL_CLOCK_VALID : Z := 2.
Definition USB_DIR_IN : Z := 128.
Definition USB_TYPE_MASK : Z := 96.
Definition USB_TYPE_CLASS : Z := 32.
Definition USB_RECIP_MASK : Z := 31.
Definition USB_RECIP_INTERFACE : Z := 1.

(** ** Data model *)

(** [SNDRV_PCM_STREAM_PLAYBACK], [SNDRV_PCM_STREAM_CAPTURE]; also used to
    name one of the two [uac2_rtd_params] of the chip ([p_prm], [c_prm]). *)
Inductive stream_dir := PLAYBACK | CAPTURE.

Definition stream_dir_eqb (a b : stream_dir) : bool :=
  match a, b with
  | PLAYBACK, PLAYBACK | CAPTURE, CAPTURE => true
  | _, _ => false
  end.

(** [enum usb_device_speed] *)
Inductive usb_device_speed :=
| USB_SPEED_UNKNOWN | USB_SPEED_LOW | USB_SPEED_FULL
| USB_SPEED_HIGH | USB_SPEED_WIRELESS | USB_SPEED_SUPER.

(** [SNDRV_PCM_TRIGGER_*]; [TRIGGER_OTHER] is any other command value. *)
Inductive trigger_cmd :=
| TRIGGER_START | TRIGGER_RESUME | TRIGGER_STOP | TRIGGER_SUSPEND
| TRIGGER_OTHER.

(** The part of [struct snd_pcm_substream] the function reads. *)
Record snd_pcm_substream := { stream : stream_dir }.

(** The completion callbacks a request can carry. *)
Inductive completion :=
| composite_setup_complete   (* what the composite layer had installed *)
| cb_agdev_iso_complete
| cb_set_p_srate_complete
| cb_set_c_srate_complete.

(** [struct usb_request]: the fields the function touches. [buf] holds the
    bytes of a control transfer; the payload of isochronous transfers is not
    represented, the copies are recorded as events. *)
Record usb_request := {
  status : Z;        (* int *)
  actual : Z;        (* unsigned *)
  length : Z;        (* unsigned *)
  zero : bool;
  buf : list Z;
  complete : completion
}.

Definition req_set_length (r : usb_request) (v : Z) : usb_request :=
  {| status := status r; actual := actual r; length := v; zero := zero r;
     buf := buf r; complete := complete r |}.
Definition req_set_actual (r : usb_request) (v : Z) : usb_request :=
  {| status := status r; actual := v; length := length r; zero := zero r;
     buf := buf r; complete := complete r |}.
Definition req_set_zero (r : usb_request) (v : bool) : usb_request :=
  {| status := status r; actual := actual r; length := length r; zero := v;
     buf := buf r; complete := complete r |}.
Definition req_set_buf (r : usb_request) (v : list Z) : usb_request :=
  {| status := status r; actual := actual r; length := length r;
     zero := zero r; buf := v; complete := complete r |}.
Definition req_set_complete (r : usb_request) (v : completion) : usb_request :=
  {| status := status r; actual := actual r; length := length r;
     zero := zero r; buf := buf r; complete := v |}.
Definition req_set_status (r : usb_request) (v : Z) : usb_request :=
  {| status := v; actual := actual r; length := length r;
     zero := zero r; buf := buf r; complete := complete r |}.

(** [struct uac2_rtd_params]; [ureq] has [USB_XFERS] slots, [None] for a
    null [req] pointer. *)
Record uac2_rtd_params := {
  ep_enabled : bool;
  dma_bytes : Z;                 (* size_t *)
  ss : option snd_pcm_substream;
  is_pcm_open : bool;
  hw_ptr : Z;                    (* ssize_t *)
  period_size : Z;               (* size_t *)
  max_psize : Z;                 (* unsigned *)
  ureq : list (option usb_request)
}.

Definition prm_set_hw_ptr (p : uac2_rtd_params) (v : Z) : uac2_rtd_params :=
  {| ep_enabled := ep_enabled p; dma_bytes := dma_bytes p; ss := ss p;
     is_pcm_open := is_pcm_open p; hw_ptr := v;
     period_size := period_size p; max_psize := max_psize p;
     ureq := ureq p |}.
Definition prm_set_ss (p : uac2_rtd_params) (v : option snd_pcm_substream)
  : uac2_rtd_params :=
  {| ep_enabled := ep_enabled p; dma_bytes := dma_bytes p; ss := v;
     is_pcm_open := is_pcm_open p; hw_ptr := hw_ptr p;
     period_size := period_size p; max_psize := max_psize p;
     ureq := ureq p |}.
Definition prm_set_ep_enabled (p : uac2_rtd_params) (v : bool)
  : uac2_rtd_params :=
  {| ep_enabled := v; dma_bytes := dma_bytes p; ss := ss p;
     is_pcm_open := is_pcm_open p; hw_ptr := hw_ptr p;
     period_size := period_size p; max_psize := max_psize p;
     ureq := ureq p |}.
Definition prm_set_ureq (p : uac2_rtd_params) (v : list (option usb_request))
  : uac2_rtd_params :=
  {| ep_enabled := ep_enabled p; dma_bytes := dma_bytes p; ss := ss p;
     is_pcm_open := is_pcm_open p; hw_ptr := hw_ptr p;
     period_size := period_size p; max_psize := max_psize p;
     ureq := v |}.

(** [struct snd_uac2_chip]: the two directions and the playback pacing
    fields (all [unsigned int]). *)
Record snd_uac2_chip := {
  p_prm : uac2_rtd_params;
  c_prm : uac2_rtd_params;
  p_interval : Z;
  p_residue : Z;
  p_pktsize : Z;
  p_pktsize_residue : Z;
  p_framesize : Z
}.

Definition chip_set_p_residue (u : snd_uac2_chip) (v : Z) : snd_uac2_chip :=
  {| p_prm := p_prm u; c_prm := c_prm u; p_interval := p_interval u;
     p_residue := v; p_pktsize := p_pktsize u;
     p_pktsize_residue := p_pktsize_residue u;
     p_framesize := p_framesize u |}.

Definition chip_prm (d : stream_dir) (u : snd_uac2_chip) : uac2_rtd_params :=
  match d with PLAYBACK => p_prm u | CAPTURE => c_prm u end.

Definition chip_set_prm (d : stream_dir) (u : snd_uac2_chip)
  (p : uac2_rtd_params) : snd_uac2_chip :=
  match d with
  | PLAYBACK =>
      {| p_prm := p; c_prm := c_prm u; p_interval := p_interval u;
         p_residue := p_residue u; p_pktsize := p_pktsize u;
         p_pktsize_residue := p_pktsize_residue u;
         p_framesize := p_framesize u |}
  | CAPTURE =>
      {| p_prm := p_prm u; c_prm := p; p_interval := p_interval u;
         p_residue := p_residue u; p_pktsize := p_pktsize u;
         p_pktsize_residue := p_pktsize_residue u;
         p_framesize := p_framesize u |}
  end.

(** Modelled from the spec: [struct f_uac2_opts] is declared in [u_uac2.h],
    which is not among the sources.  Its fields are the spec's ClockConfig
    (sample rate, sample resolution in bits, subslot bytes and channel mask,
    per direction) under the names [f_uac2.c] uses for them; all are [int]. *)
Record f_uac2_opts := {
  p_chmask : Z; p_srate : Z; p_ssize : Z; p_sres : Z;
  c_chmask : Z; c_srate : Z; c_ssize : Z; c_sres : Z
}.

Definition opts_set_p_srate (o : f_uac2_opts) (v : Z) : f_uac2_opts :=
  {| p_chmask := p_chmask o; p_srate := v; p_ssize := p_ssize o;
     p_sres := p_sres o; c_chmask := c_chmask o; c_srate := c_srate o;
     c_ssize := c_ssize o; c_sres := c_sres o |}.
Definition opts_set_c_srate (o : f_uac2_opts) (v : Z) : f_uac2_opts :=
  {| p_chmask := p_chmask o; p_srate := p_srate o; p_ssize := p_ssize o;
     p_sres := p_sres o; c_chmask := c_chmask o; c_srate := v;
     c_ssize := c_ssize o; c_sres := c_sres o |}.
Definition opts_set_p_format (o : f_uac2_opts) (ssize chmask sres : Z)
  : f_uac2_opts :=
  {| p_chmask := chmask; p_srate := p_srate o; p_ssize := ssize;
     p_sres := sres; c_chmask := c_chmask o; c_srate := c_srate o;
     c_ssize := c_ssize o; c_sres := c_sres o |}.
Definition opts_set_c_format (o : f_uac2_opts) (ssize chmask sres : Z)
  : f_uac2_opts :=
  {| p_chmask := p_chmask o; p_srate := p_srate o; p_ssize := p_ssize o;
     p_sres := p_sres o; c_chmask := chmask; c_srate := c_srate o;
     c_ssize := ssize; c_sres := sres |}.

(** [struct audio_dev], with the options instance its [func.fi] points to. *)
Record audio_dev := {
  ac_intf : Z; ac_alt : Z;           (* u8 *)
  as_out_intf : Z; as_out_alt : Z;
  as_in_intf : Z; as_in_alt : Z;
  uac2 : snd_uac2_chip;
  opts : f_uac2_opts
}.

(** ** Events *)

Inductive event :=
| Ev_spin_lock (d : stream_dir)
| Ev_spin_unlock (d : stream_dir)
| Ev_store_hw_ptr (d : stream_dir) (v : Z)
| Ev_copy_ring_to_req (req_off ring_off n : Z)
| Ev_copy_req_to_ring (ring_off req_off n : Z)
| Ev_memset_rbuf (d : stream_dir) (n : Z)
| Ev_usb_ep_queue
| Ev_usb_ep_enable (d : stream_dir)
| Ev_usb_ep_disable (d : stream_dir)
| Ev_usb_ep_dequeue (d : stream_dir) (i : nat)
| Ev_usb_ep_free_request (d : stream_dir) (i : nat)
| Ev_usb_ep_alloc_request (d : stream_dir) (i : nat)
| Ev_config_ep_by_speed (d : stream_dir)
| Ev_queue_delayed_work (d : stream_dir) (delay_ms : Z)
| Ev_snd_pcm_stop (d : stream_dir)
| Ev_snd_pcm_period_elapsed
| Ev_mutex_lock
| Ev_mutex_unlock
| Ev_store_srate (d : stream_dir) (v : Z)
| Ev_pr_debug
| Ev_pr_err
| Ev_dev_err.

(** What the collaborators answer during one call. *)
Record env := {
  speed : usb_device_speed;      (* gadget->speed *)
  alloc_ok : nat -> bool;        (* usb_ep_alloc_request for slot i is non-null *)
  ep_queue_ok : bool;            (* usb_ep_queue returns 0 *)
  ep_disable_ok : bool           (* usb_ep_disable returns 0 *)
}.

(** ** [num_channels]

    The loop adds the low bit and shifts right until the mask is zero; on the
    binary representation of a positive number that is a walk down its
    digits. *)
Fixpoint num_channels_pos (p : positive) : Z :=
  match p with
  | xH => 1
  | xO q => num_channels_pos q
  | xI q => 1 + num_channels_pos q
  end.

Definition num_channels (chanmask : Z) : Z :=
  match u32 chanmask with
  | Zpos p => num_channels_pos p
  | _ => 0
  end.

(** ** The completion path *)

(** The playback branch of [agdev_iso_complete]: the length of the next IN
    packet and the updated residue accumulator. *)
Definition pacing_tick (u : snd_uac2_chip) : option (Z * snd_uac2_chip) :=
  let length0 := p_pktsize u in
  let residue1 := u32 (p_residue u + p_pktsize_residue u) in
  if p_interval u =? 0 then None
  else if p_framesize u <=? residue1 / p_interval u then
    Some (u32 (length0 + p_framesize u),
          chip_set_p_residue u
            (u32 (residue1 - u32 (p_framesize u * p_interval u))))
  else Some (length0, chip_set_p_residue u residue1).

(** [n] consecutive pacing ticks: the packet lengths in order and the chip
    afterwards. *)
Fixpoint pacing_ticks (n : nat) (u : snd_uac2_chip)
  : option (list Z * snd_uac2_chip) :=
  match n with
  | O => Some ([], u)
  | S k =>
      match pacing_tick u with
      | None => None
      | Some (len, u1) =>
          match pacing_ticks k u1 with
          | None => None
          | Some (lens, u2) => Some (len :: lens, u2)
          end
      end
  end.

(** The copy between the request buffer and the ring, split at the end of
    the ring when [pending < req->actual]. *)
Definition iso_copy (s : stream_dir) (hw_ptr0 pending act : Z) : list event :=
  match s with
  | PLAYBACK =>
      if pending <? act
      then [Ev_copy_ring_to_req 0 hw_ptr0 pending;
            Ev_copy_ring_to_req pending 0 (u32 (act - pending))]
      else [Ev_copy_ring_to_req 0 hw_ptr0 act]
  | CAPTURE =>
      if pending <? act
      then [Ev_copy_req_to_ring hw_ptr0 0 pending;
            Ev_copy_req_to_ring 0 pending (u32 (act - pending))]
      else [Ev_copy_req_to_ring hw_ptr0 0 act]
  end.

(** The [exit:] label: requeue, then report an elapsed period. *)
Definition iso_exit (e : env) (update_alsa : bool) : list event :=
  Ev_usb_ep_queue :: (if ep_queue_ok e then [] else [Ev_dev_err])
  ++ (if update_alsa then [Ev_snd_pcm_period_elapsed] else []).

(** The guard at the head of the handler: the endpoint is disabled or the
    request was given back with [-ESHUTDOWN]. *)
Definition iso_shutting_down (prm : uac2_rtd_params) (req : usb_request)
  : bool :=
  negb (ep_enabled prm) || (status req =? - ESHUTDOWN).

(** [agdev_iso_complete], called for a request of direction [d]
    ([ur->pp] is the [d] parameters of the chip). *)
Definition agdev_iso_complete (e : env) (d : stream_dir) (u : snd_uac2_chip)
  (req : usb_request) : option (snd_uac2_chip * usb_request * list event) :=
  let prm := chip_prm d u in
  if iso_shutting_down prm req then Some (u, req, [])
  else
    let tr0 := if status req =? 0 then [] else [Ev_pr_debug] in
    match ss prm with
    | None => Some (u, req, tr0 ++ iso_exit e false)
    | Some substream =>
        let paced :=
          match stream substream with
          | PLAYBACK =>
              match pacing_tick u with
              | None => None
              | Some (len, u1) =>
                  Some (u1, req_set_actual (req_set_length req len) len)
              end
          | CAPTURE => Some (u, req)
          end in
        match paced with
        | None => None
        | Some (u1, req1) =>
            if (period_size prm =? 0) || (dma_bytes prm =? 0) then None
            else
              let pending := u32 (u64 (hw_ptr prm) mod period_size prm) in
              let pending := u32 (pending + actual req1) in
              let update_alsa := period_size prm <=? pending in
              let hw_ptr0 := u32 (hw_ptr prm) in
              let new_ptr :=
                s64 (u64 (hw_ptr prm + actual req1) mod dma_bytes prm) in
              let u2 := chip_set_prm d u1
                          (prm_set_hw_ptr (chip_prm d u1) new_ptr) in
              let pending := u32 (dma_bytes prm - hw_ptr0) in
              Some (u2, req1,
                    tr0 ++ [Ev_spin_lock d; Ev_store_hw_ptr d new_ptr;
                            Ev_spin_unlock d]
                    ++ iso_copy (stream substream) hw_ptr0 pending
                         (actual req1)
                    ++ iso_exit e update_alsa)
        end
    end.

(** A sequence of completions for direction [d], each with the answer of the
    USB core to the requeue; the result is the final chip, the requests as
    the handler left them and the events, in order. *)
Fixpoint iso_completions (d : stream_dir) (u : snd_uac2_chip)
  (cs : list (env * usb_request))
  : option (snd_uac2_chip * list usb_request * list event) :=
  match cs with
  | [] => Some (u, [], [])
  | (e, req) :: rest =>
      match agdev_iso_complete e d u req with
      | None => None
      | Some (u1, req1, tr1) =>
          match iso_completions d u1 rest with
          | None => None
          | Some (u2, reqs, tr2) => Some (u2, req1 :: reqs, tr1 ++ tr2)
          end
      end
  end.

(** [uac2_pcm_trigger]; the direction is [substream->stream]. *)
Definition uac2_pcm_trigger (u : snd_uac2_chip) (substream : snd_pcm_substream)
  (cmd : trigger_cmd) : Z * snd_uac2_chip * list event :=
  let d := stream substream in
  let prm := prm_set_hw_ptr (chip_prm d u) 0 in
  let '(prm, err) :=
    match cmd with
    | TRIGGER_START | TRIGGER_RESUME => (prm_set_ss prm (Some substream), 0)
    | TRIGGER_STOP | TRIGGER_SUSPEND => (prm_set_ss prm None, 0)
    | TRIGGER_OTHER => (prm, - EINVAL)
    end in
  let clear :=
    match d, ss prm with
    | PLAYBACK, None =>
        [Ev_memset_rbuf PLAYBACK (u32 (max_psize prm * Z.of_nat USB_XFERS))]
    | _, _ => []
    end in
  (err, chip_set_prm d u prm,
   [Ev_spin_lock d; Ev_store_hw_ptr d 0; Ev_spin_unlock d] ++ clear).

(** ** Alternate settings *)

(** The arguments of [INIT_USB_IN_ALT_SETTING] and
    [INIT_USB_OUT_ALT_SETTING]: what the descriptors of one non-zero
    alternate setting say about the format. *)
Record alt_format := { channels : Z; bSubslotSize : Z; bBitResolution : Z }.

Definition bmChannelConfig (f : alt_format) : Z :=
  if channels f =? UAC2_MONO then UAC2_MONO_CH_CONFIG
  else UAC2_STEREO_CH_CONFIG.

Definition as_out_alt_setting : list alt_format :=
  [ {| channels := UAC2_MONO;   bSubslotSize := 2; bBitResolution := 16 |};
    {| channels := UAC2_STEREO; bSubslotSize := 2; bBitResolution := 16 |};
    {| channels := UAC2_MONO;   bSubslotSize := 3; bBitResolution := 24 |};
    {| channels := UAC2_STEREO; bSubslotSize := 3; bBitResolution := 24 |};
    {| channels := UAC2_MONO;   bSubslotSize := 4; bBitResolution := 24 |};
    {| channels := UAC2_STEREO; bSubslotSize := 4; bBitResolution := 24 |} ].

Definition as_in_alt_setting : list alt_format :=
  [ {| channels := UAC2_MONO;   bSubslotSize := 2; bBitResolution := 16 |};
    {| channels := UAC2_STEREO; bSubslotSize := 2; bBitResolution := 16 |};
    {| channels := UAC2_MONO;   bSubslotSize := 3; bBitResolution := 24 |};
    {| channels := UAC2_STEREO; bSubslotSize := 3; bBitResolution := 24 |};
    {| channels := UAC2_MONO;   bSubslotSize := 4; bBitResolution := 24 |};
    {| channels := UAC2_STEREO; bSubslotSize := 4; bBitResolution := 24 |} ].

(** [table[alt-1]]; the callers have checked [0 < alt <= 6]. *)
Definition alt_entry (table : list alt_format) (alt : Z) : alt_format :=
  nth (Z.to_nat (alt - 1)) table
    {| channels := 0; bSubslotSize := 0; bBitResolution := 0 |}.

(** The fields of [struct usb_endpoint_descriptor] the function reads. *)
Record usb_endpoint_descriptor := { wMaxPacketSize : Z; bInterval : Z }.

Definition fs_epin_desc : usb_endpoint_descriptor :=
  {| wMaxPacketSize := 1023; bInterval := 1 |}.

(** As [afunc_bind] leaves it: [wMaxPacketSize] is overwritten with the
    full-speed value (the initialiser says 1024). *)
Definition hs_epin_desc : usb_endpoint_descriptor :=
  {| wMaxPacketSize := wMaxPacketSize fs_epin_desc; bInterval := 4 |}.

Definition UAC2_UEVENT_DELAY : Z := 30.

(** [free_ep] *)
Fixpoint free_requests (d : stream_dir) (i : nat)
  (slots : list (option usb_request)) : list (option usb_request) * list event :=
  match slots with
  | [] => ([], [])
  | slot :: rest =>
      let '(rest', tr) := free_requests d (S i) rest in
      match slot with
      | Some _ =>
          (None :: rest',
           Ev_usb_ep_dequeue d i :: Ev_usb_ep_free_request d i :: tr)
      | None => (None :: rest', tr)
      end
  end.

Definition free_ep (e : env) (d : stream_dir) (prm : uac2_rtd_params)
  : uac2_rtd_params * list event :=
  if negb (ep_enabled prm) then (prm, [])
  else
    let '(slots, tr) := free_requests d 0 (ureq prm) in
    (prm_set_ureq (prm_set_ep_enabled prm false) slots,
     tr ++ Ev_usb_ep_disable d
        :: (if ep_disable_ok e then [] else [Ev_dev_err])).

(** The request [afunc_set_alt] sets up in an empty slot; the allocator
    hands out zeroed requests. *)
Definition fresh_iso_request (req_len : Z) : usb_request :=
  {| status := 0; actual := 0; length := u32 req_len; zero := false;
     buf := []; complete := cb_agdev_iso_complete |}.

(** The loop over the [USB_XFERS] slots at the end of [afunc_set_alt]:
    [false] when an allocation failed ([-ENOMEM], the slots armed so far stay
    armed). *)
Fixpoint arm_requests (e : env) (d : stream_dir) (req_len : Z) (i : nat)
  (slots : list (option usb_request))
  : bool * list (option usb_request) * list event :=
  match slots with
  | [] => (true, [], [])
  | slot :: rest =>
      let queue :=
        Ev_usb_ep_queue :: (if ep_queue_ok e then [] else [Ev_dev_err]) in
      match slot with
      | Some r =>
          let '(ok, rest', tr) := arm_requests e d req_len (S i) rest in
          (ok, Some r :: rest', queue ++ tr)
      | None =>
          if alloc_ok e i then
            let '(ok, rest', tr) := arm_requests e d req_len (S i) rest in
            (ok, Some (fresh_iso_request req_len) :: rest',
             Ev_usb_ep_alloc_request d i :: queue ++ tr)
          else (false, slot :: rest, [Ev_usb_ep_alloc_request d i])
      end
  end.

Definition agdev_set_uac2 (a : audio_dev) (u : snd_uac2_chip) : audio_dev :=
  {| ac_intf := ac_intf a; ac_alt := ac_alt a;
     as_out_intf := as_out_intf a; as_out_alt := as_out_alt a;
     as_in_intf := as_in_intf a; as_in_alt := as_in_alt a;
     uac2 := u; opts := opts a |}.
Definition agdev_set_opts (a : audio_dev) (o : f_uac2_opts) : audio_dev :=
  {| ac_intf := ac_intf a; ac_alt := ac_alt a;
     as_out_intf := as_out_intf a; as_out_alt := as_out_alt a;
     as_in_intf := as_in_intf a; as_in_alt := as_in_alt a;
     uac2 := uac2 a; opts := o |}.
Definition agdev_set_as_out_alt (a : audio_dev) (v : Z) : audio_dev :=
  {| ac_intf := ac_intf a; ac_alt := ac_alt a;
     as_out_intf := as_out_intf a; as_out_alt := v;
     as_in_intf := as_in_intf a; as_in_alt := as_in_alt a;
     uac2 := uac2 a; opts := opts a |}.
Definition agdev_set_as_in_alt (a : audio_dev) (v : Z) : audio_dev :=
  {| ac_intf := ac_intf a; ac_alt := ac_alt a;
     as_out_intf := as_out_intf a; as_out_alt := as_out_alt a;
     as_in_intf := as_in_intf a; as_in_alt := v;
     uac2 := uac2 a; opts := opts a |}.

(** The five fields [afunc_set_alt] pre-computes for [agdev_iso_complete]. *)
Definition chip_set_pacing (u : snd_uac2_chip)
  (framesize interval pktsize pktsize_residue residue : Z) : snd_uac2_chip :=
  {| p_prm := p_prm u; c_prm := c_prm u; p_interval := interval;
     p_residue := residue; p_pktsize := pktsize;
     p_pktsize_residue := pktsize_residue; p_framesize := framesize |}.

(** The playback block that pre-computes the values for the completion
    handler.  The interval is [1 * 1000] or [8 * 125], never 0, so the
    division and the remainder cannot fault. *)
Definition precompute_pacing (e : env) (o : f_uac2_opts) (u : snd_uac2_chip)
  : snd_uac2_chip :=
  let '(ep_desc, factor) :=
    match speed e with
    | USB_SPEED_FULL => (fs_epin_desc, 1000)
    | _ => (hs_epin_desc, 125)
    end in
  let framesize := u32 (p_ssize o * num_channels (p_chmask o)) in
  let rate := u32 (p_srate o * framesize) in
  let interval := u32 (Z.shiftl 1 (bInterval ep_desc - 1) * factor) in
  let pktsize := min_t_unsigned (rate / interval) (max_psize (p_prm u)) in
  let pktsize_residue :=
    if pktsize <? max_psize (p_prm u) then rate mod interval else 0 in
  chip_set_pacing u framesize interval pktsize pktsize_residue 0.

(** The end of [afunc_set_alt], common to the two streaming interfaces. *)
Definition set_alt_finish (e : env) (d : stream_dir) (a : audio_dev)
  (alt req_len : Z) (tr : list event) : Z * audio_dev * list event :=
  let prm := chip_prm d (uac2 a) in
  if alt =? 0 then
    let '(prm', tr') := free_ep e d prm in
    (0, agdev_set_uac2 a (chip_set_prm d (uac2 a) prm'), tr ++ tr')
  else
    let '(ok, slots, tr') := arm_requests e d req_len 0 (ureq prm) in
    (if ok then 0 else - ENOMEM,
     agdev_set_uac2 a
       (chip_set_prm d (uac2 a)
          (prm_set_ureq (prm_set_ep_enabled prm true) slots)),
     tr ++ Ev_usb_ep_enable d :: tr').

(** The notification part of a streaming branch: a delayed "connected" work
    item for a non-zero setting, otherwise a stop of the open PCM and an
    immediate "disconnected" one. *)
Definition set_alt_notify (d : stream_dir) (prm : uac2_rtd_params) (alt : Z)
  : list event :=
  if alt =? 0 then
    (if is_pcm_open prm then [Ev_snd_pcm_stop d] else [])
    ++ [Ev_pr_debug; Ev_queue_delayed_work d 0]
  else [Ev_pr_debug; Ev_pr_debug; Ev_queue_delayed_work d UAC2_UEVENT_DELAY].

(** [afunc_set_alt]; [intf] and [alt] are [unsigned]. *)
Definition afunc_set_alt (e : env) (a : audio_dev) (intf alt : Z)
  : Z * audio_dev * list event :=
  if intf =? ac_intf a then
    if alt =? 0 then (0, a, []) else (- EINVAL, a, [Ev_dev_err])
  else if (intf =? as_out_intf a) && (alt <=? MAX_AS_OUT_ALT) then
    let prm := c_prm (uac2 a) in
    let a1 := agdev_set_as_out_alt a (u8 alt) in
    let req_len := max_psize prm in
    let a2 :=
      if alt =? 0 then a1
      else
        let f := alt_entry as_out_alt_setting alt in
        agdev_set_opts a1
          (opts_set_c_format (opts a1) (bSubslotSize f) (bmChannelConfig f)
             (bBitResolution f)) in
    set_alt_finish e CAPTURE a2 alt req_len
      (Ev_pr_debug :: Ev_config_ep_by_speed CAPTURE
         :: set_alt_notify CAPTURE prm alt)
  else if (intf =? as_in_intf a) && (alt <=? MAX_AS_IN_ALT) then
    let prm := p_prm (uac2 a) in
    let a1 := agdev_set_as_in_alt a (u8 alt) in
    let a2 :=
      if alt =? 0 then a1
      else
        let f := alt_entry as_in_alt_setting alt in
        agdev_set_opts a1
          (opts_set_p_format (opts a1) (bSubslotSize f) (bmChannelConfig f)
             (bBitResolution f)) in
    let a3 := agdev_set_uac2 a2 (precompute_pacing e (opts a2) (uac2 a2)) in
    let req_len := p_pktsize (uac2 a3) in
    set_alt_finish e PLAYBACK a3 alt req_len
      (Ev_pr_debug :: Ev_config_ep_by_speed PLAYBACK
         :: set_alt_notify PLAYBACK prm alt)
  else (- EINVAL, a, [Ev_pr_debug; Ev_dev_err]).

(** The pacing state: the five fields in the order
    [(p_framesize, p_interval, p_pktsize, p_pktsize_residue, p_residue)]. *)
Definition pacing_state (u : snd_uac2_chip) : Z * Z * Z * Z * Z :=
  (p_framesize u, p_interval u, p_pktsize u, p_pktsize_residue u,
   p_residue u).

(** ** Class-specific control requests *)

(** [struct usb_ctrlrequest], the 16-bit fields already converted by
    [le16_to_cpu]. *)
Record usb_ctrlrequest := {
  bRequestType : Z; bRequest : Z; wValue : Z; wIndex : Z; wLength : Z
}.

Definition cr_entity_id (cr : usb_ctrlrequest) : Z :=
  u8 (Z.land (Z.shiftr (u16 (wIndex cr)) 8) 255).
Definition cr_control_selector (cr : usb_ctrlrequest) : Z :=
  u8 (Z.shiftr (u16 (wValue cr)) 8).

(** An automatic variable of [n] bytes without initialiser: it holds what
    the stack held, which is an input ([stack], padded with zeros if it is
    shorter than the object). *)
Definition uninitialised (n : nat) (stack : list Z) : list Z :=
  firstn n (stack ++ repeat 0 n).

(** [sizeof(struct cntrl_cur_lay3)]: one [__le32]. *)
Definition sizeof_cntrl_cur_lay3 : nat := 4.

(** [struct cntrl_range_lay3_2], the packed structure
    [DECLARE_CNTRL_RANGE_LAY3(CLK_FREQ_ARR_SIZE)] declares: the byte offsets
    of its fields and its size. *)
Definition off_wNumSubRanges : nat := 0.
Definition off_dRangeAttrs : nat := 2.
Definition sizeof_dRangeAttrs : nat := CLK_FREQ_ARR_SIZE * 3 * 4.
Definition off_dMIN : nat := off_dRangeAttrs + sizeof_dRangeAttrs.
Definition off_dMAX : nat := off_dMIN + 4.
Definition off_dRES : nat := off_dMAX + 4.
Definition sizeof_cntrl_range_lay3_2 : nat := off_dRES + 4.

(** [in_rq_cur]: the value returned and the request buffer afterwards. *)
Definition in_rq_cur (o : f_uac2_opts) (cr : usb_ctrlrequest)
  (stack : list Z) (req : usb_request) : Z * usb_request * list event :=
  let w_length := u16 (wLength cr) in
  let entity_id := cr_entity_id cr in
  let control_selector := cr_control_selector cr in
  if control_selector =? UAC2_CS_CONTROL_SAM_FREQ then
    let c := uninitialised sizeof_cntrl_cur_lay3 stack in
    let c :=
      if entity_id =? USB_IN_CLK_ID then store_at c 0 (le32 (p_srate o))
      else if entity_id =? USB_OUT_CLK_ID then store_at c 0 (le32 (c_srate o))
      else c in
    let value := min_t_unsigned w_length (Z.of_nat sizeof_cntrl_cur_lay3) in
    (value, req_set_buf req (memcpy (buf req) c value), [Ev_pr_debug])
  else if control_selector =? UAC2_CS_CONTROL_CLOCK_VALID then
    (min_t_unsigned w_length 1, req_set_buf req (store_at (buf req) 0 [1]),
     [Ev_pr_debug])
  else (- EOPNOTSUPP, req, [Ev_pr_debug; Ev_dev_err]).

(** [in_rq_range] *)
Definition in_rq_range (o : f_uac2_opts) (cr : usb_ctrlrequest)
  (stack : list Z) (req : usb_request) : Z * usb_request * list event :=
  let w_length := u16 (wLength cr) in
  let entity_id := cr_entity_id cr in
  let control_selector := cr_control_selector cr in
  let r := uninitialised sizeof_cntrl_range_lay3_2 stack in
  if control_selector =? UAC2_CS_CONTROL_SAM_FREQ then
    let dMIN :=
      if entity_id =? USB_IN_CLK_ID then Some (le32 (p_srate o))
      else if entity_id =? USB_OUT_CLK_ID then Some (le32 (c_srate o))
      else None in
    match dMIN with
    | None => (- EOPNOTSUPP, req, [Ev_pr_debug])
    | Some m =>
        let r := store_at r off_dMIN m in
        let r := store_at r off_dMAX (load_at r off_dMIN 4) in
        let r := store_at r off_dRES (le32 0) in
        let r := store_at r off_wNumSubRanges (le16 1) in
        let value :=
          min_t_unsigned w_length (Z.of_nat sizeof_cntrl_range_lay3_2) in
        (value, req_set_buf req (memcpy (buf req) r value), [Ev_pr_debug])
    end
  else (- EOPNOTSUPP, req, [Ev_pr_debug; Ev_dev_err]).

(** [ac_rq_in] *)
Definition ac_rq_in (o : f_uac2_opts) (cr : usb_ctrlrequest)
  (stack : list Z) (req : usb_request) : Z * usb_request * list event :=
  if bRequest cr =? UAC2_CS_CUR then in_rq_cur o cr stack req
  else if bRequest cr =? UAC2_CS_RANGE then in_rq_range o cr stack req
  else (- EOPNOTSUPP, req, []).

(** Whether [v] is one of [clk_frequencies]: the [for] loop of the two
    completion callbacks, which compares each [int] entry with the [u32]
    payload. *)
Fixpoint clk_frequency_listed (freqs : list Z) (v : Z) : bool :=
  match freqs with
  | [] => false
  | f :: rest => if u32 f =? v then true else clk_frequency_listed rest v
  end.

(** [set_p_srate_complete]; [*buf] is the first 32-bit word of the buffer. *)
Definition set_p_srate_complete (o : f_uac2_opts) (req : usb_request)
  : f_uac2_opts * list event :=
  let v := load_le32 (buf req) in
  if clk_frequency_listed clk_frequencies v
  then (opts_set_p_srate o (s32 v), [Ev_pr_debug; Ev_store_srate PLAYBACK v])
  else (o, [Ev_pr_debug; Ev_pr_err]).

(** [set_c_srate_complete] *)
Definition set_c_srate_complete (o : f_uac2_opts) (req : usb_request)
  : f_uac2_opts * list event :=
  let v := load_le32 (buf req) in
  if clk_frequency_listed clk_frequencies v
  then (opts_set_c_srate o (s32 v), [Ev_pr_debug; Ev_store_srate CAPTURE v])
  else (o, [Ev_pr_debug; Ev_pr_err]).

(** The USB core calling [req->complete] once the data stage has arrived;
    the callbacks return nothing. *)
Definition run_complete (o : f_uac2_opts) (req : usb_request)
  : f_uac2_opts * list event :=
  match complete req with
  | cb_set_p_srate_complete => set_p_srate_complete o req
  | cb_set_c_srate_complete => set_c_srate_complete o req
  | _ => (o, [])
  end.

(** [out_rq_cur] *)
Definition out_rq_cur (o : f_uac2_opts) (cr : usb_ctrlrequest)
  (req : usb_request) : Z * usb_request * list event :=
  let w_length := u16 (wLength cr) in
  let entity_id := cr_entity_id cr in
  let control_selector := cr_control_selector cr in
  if control_selector =? UAC2_CS_CONTROL_SAM_FREQ then
    let req :=
      if entity_id =? USB_OUT_CLK_ID
      then req_set_complete req cb_set_c_srate_complete
      else if entity_id =? USB_IN_CLK_ID
      then req_set_complete req cb_set_p_srate_complete
      else req in
    (w_length, req, [Ev_pr_debug])
  else (- EOPNOTSUPP, req, [Ev_pr_debug; Ev_dev_err]).

(** [setup_rq_inf] *)
Definition setup_rq_inf (a : audio_dev) (cr : usb_ctrlrequest)
  (stack : list Z) (req : usb_request) : Z * usb_request * list event :=
  let intf := u8 (Z.land (u16 (wIndex cr)) 255) in
  if negb (intf =? ac_intf a) then (- EOPNOTSUPP, req, [Ev_dev_err])
  else if negb (Z.land (bRequestType cr) USB_DIR_IN =? 0)
  then ac_rq_in (opts a) cr stack req
  else if bRequest cr =? UAC2_CS_CUR then out_rq_cur (opts a) cr req
  else (- EOPNOTSUPP, req, []).

(** [afunc_setup]; [queue_result] is what [usb_ep_queue] on endpoint 0
    answers when it is called. *)
Definition afunc_setup (a : audio_dev) (cr : usb_ctrlrequest)
  (stack : list Z) (queue_result : Z) (req : usb_request)
  : Z * usb_request * list event :=
  let w_length := u16 (wLength cr) in
  if negb (Z.land (bRequestType cr) USB_TYPE_MASK =? USB_TYPE_CLASS)
  then (- EOPNOTSUPP, req, [])
  else
    let '(value, req, tr) :=
      if Z.land (bRequestType cr) USB_RECIP_MASK =? USB_RECIP_INTERFACE
      then setup_rq_inf a cr stack req
      else (- EOPNOTSUPP, req, [Ev_dev_err]) in
    if 0 <=? value then
      let req := req_set_zero (req_set_length req value) (value <? w_length) in
      if queue_result <? 0
      then (queue_result, req_set_status req 0,
            tr ++ [Ev_usb_ep_queue; Ev_dev_err])
      else (queue_result, req, tr ++ [Ev_usb_ep_queue])
    else (value, req, tr).

(** The [store] side of [UAC2_ATTRIBUTE(p_srate)], the configfs attribute:
    [parsed] is the answer of [kstrtou32] (an error code or the number). *)
Definition EBUSY : Z := 16.
Definition f_uac2_opts_p_srate_store (o : f_uac2_opts) (refcnt : Z)
  (parsed : Z + Z) (len : Z) : Z * f_uac2_opts * list event :=
  if negb (refcnt =? 0) then (- EBUSY, o, [Ev_mutex_lock; Ev_mutex_unlock])
  else
    match parsed with
    | inl err => (err, o, [Ev_mutex_lock; Ev_mutex_unlock])
    | inr num =>
        (len, opts_set_p_srate o (s32 num),
         [Ev_mutex_lock; Ev_store_srate PLAYBACK num; Ev_mutex_unlock])
    end.

(** The configuration lock ([opts->lock]) along a trace: [None] as soon as
    a sample rate is stored while it is not held. *)
Fixpoint srate_lock_run (held : bool) (tr : list event) : option bool :=
  match tr with
  | [] => Some held
  | Ev_mutex_lock :: t => srate_lock_run true t
  | Ev_mutex_unlock :: t => srate_lock_run false t
  | Ev_store_srate _ _ :: t => if held then srate_lock_run held t else None
  | _ :: t => srate_lock_run held t
  end.

(** Every store of a sample rate in the trace is made with the
    configuration lock held. *)
Definition srate_stores_locked (tr : list event) : bool :=
  match srate_lock_run false tr with Some _ => true | None => false end.

(** [uac2_pcm_hw_params]: [err] is what [snd_pcm_lib_malloc_pages] answers,
    [rt_dma_bytes] the size of the buffer the runtime then has and
    [period_bytes] the period of the parameters. *)
Definition uac2_pcm_hw_params (u : snd_uac2_chip)
  (substream : snd_pcm_substream) (err rt_dma_bytes period_bytes : Z)
  : Z * snd_uac2_chip :=
  let d := stream substream in
  let prm := chip_prm d u in
  if 0 <=? err then
    (err, chip_set_prm d u
            {| ep_enabled := ep_enabled prm; dma_bytes := rt_dma_bytes;
               ss := ss prm; is_pcm_open := is_pcm_open prm;
               hw_ptr := hw_ptr prm; period_size := period_bytes;
               max_psize := max_psize prm; ureq := ureq prm |})
  else (err, u).

(** The lock of direction [d] along a trace: [None] as soon as [hw_ptr] of
    [d] is stored while the lock is not held, otherwise whether the lock is
    held at the end; [held] tells whether it is at the start. *)
Fixpoint hw_ptr_lock_run (d : stream_dir) (held : bool) (tr : list event)
  : option bool :=
  match tr with
  | [] => Some held
  | Ev_spin_lock d' :: t =>
      hw_ptr_lock_run d (held || stream_dir_eqb d d') t
  | Ev_spin_unlock d' :: t =>
      hw_ptr_lock_run d (held && negb (stream_dir_eqb d d')) t
  | Ev_store_hw_ptr d' _ :: t =>
      if negb (stream_dir_eqb d d') || held then hw_ptr_lock_run d held t
      else None
  | _ :: t => hw_ptr_lock_run d held t
  end.

(** Every store to [hw_ptr] of [d] in the trace is made inside a critical
    section of the lock of [d], and the trace leaves the lock released. *)
Definition hw_ptr_stores_locked (d : stream_dir) (tr : list event) : Prop :=
  hw_ptr_lock_run d false tr = Some false.

(** ** Well-formedness of the state *)

(** The geometry a bound substream has: a non-empty period, and a ring of at
    most [SSIZE_MAX] bytes (it was allocated), with the position inside. *)
Definition ring_ok (p : uac2_rtd_params) : Prop :=
  0 < dma_bytes p <= SSIZE_MAX /\ 0 < period_size p
  /\ 0 <= hw_ptr p < dma_bytes p.

(** The pacing fields hold [unsigned int] values. *)
Definition pacing_typed (u : snd_uac2_chip) : Prop :=
  is_u32 (p_interval u) /\ is_u32 (p_residue u) /\ is_u32 (p_pktsize u)
  /\ is_u32 (p_pktsize_residue u) /\ is_u32 (p_framesize u).

(** What the completion path needs of a direction with a bound substream. *)
Definition stream_ready (d : stream_dir) (u : snd_uac2_chip) : Prop :=
  ring_ok (chip_prm d u) /\ pacing_typed u
  /\ exists sub, ss (chip_prm d u) = Some sub
                 /\ (stream sub = PLAYBACK -> p_interval u <> 0).


(** The interface numbers are pairwise distinct, as [afunc_bind] gets them
    from three successive calls of [usb_interface_id]. *)
Definition intf_distinct (a : audio_dev) : Prop :=
  ac_intf a <> as_out_intf a /\ ac_intf a <> as_in_intf a
  /\ as_out_intf a <> as_in_intf a.

(** The chip a call of [afunc_set_alt] leaves. *)
Definition set_alt_chip (e : env) (a : audio_dev) (intf alt : Z)
  : snd_uac2_chip :=
  uac2 (snd (fst (afunc_set_alt e a intf alt))).

Definition sum_lengths (l : list Z) : Z := fold_right Z.add 0 l.

(** ** A concrete device

    The device as [afunc_bind] leaves it when the composite layer hands out
    the interface numbers 0, 1 and 2, with both rates at [srate], and the
    answers of a USB core on which every call succeeds. *)

Definition idle_prm : uac2_rtd_params :=
  {| ep_enabled := false; dma_bytes := 0; ss := None; is_pcm_open := false;
     hw_ptr := 0; period_size := 0;
     max_psize := wMaxPacketSize hs_epin_desc;
     ureq := repeat None USB_XFERS |}.

Definition bound_dev (srate : Z) : audio_dev :=
  {| ac_intf := 0; ac_alt := 0; as_out_intf := 1; as_out_alt := 0;
     as_in_intf := 2; as_in_alt := 0;
     uac2 := {| p_prm := idle_prm; c_prm := idle_prm; p_interval := 0;
                p_residue := 0; p_pktsize := 0; p_pktsize_residue := 0;
                p_framesize := 0 |};
     opts := {| p_chmask := 3; p_srate := srate; p_ssize := 2; p_sres := 16;
                c_chmask := 3; c_srate := srate; c_ssize := 2;
                c_sres := 16 |} |}.

Definition full_speed_env : env :=
  {| speed := USB_SPEED_FULL; alloc_ok := fun _ => true;
     ep_queue_ok := true; ep_disable_ok := true |}.

Definition high_speed_env : env :=
  {| speed := USB_SPEED_HIGH; alloc_ok := fun _ => true;
     ep_queue_ok := true; ep_disable_ok := true |}.

(** A capture stream in flight: a ring of 16 bytes in periods of 4. *)
Definition capture_chip : snd_uac2_chip :=
  let u := uac2 (bound_dev 48000) in
  chip_set_prm CAPTURE u
    {| ep_enabled := true; dma_bytes := 16;
       ss := Some {| stream := CAPTURE |}; is_pcm_open := true;
       hw_ptr := 0; period_size := 4; max_psize := max_psize (c_prm u);
       ureq := ureq (c_prm u) |}.

Definition iso_request (st act : Z) : usb_request :=
  {| status := st; actual := act; length := 1023; zero := false; buf := [];
     complete := cb_agdev_iso_complete |}.

(** An endpoint-0 request with a buffer of [n] zero bytes. *)
Definition ep0_request (n : nat) : usb_request :=
  {| status := 0; actual := 0; length := 0; zero := false;
     buf := repeat 0 n; complete := composite_setup_complete |}.

(** A class request to interface 0: [bRequest] on control selector [cs] of
    entity [id], with [wLength = len]; [dir_in] selects GET or SET. *)
Definition class_request (dir_in : bool) (bReq cs id len : Z)
  : usb_ctrlrequest :=
  {| bRequestType := (if dir_in then USB_DIR_IN else 0) + USB_TYPE_CLASS
                     + USB_RECIP_INTERFACE;
     bRequest := bReq; wValue := Z.shiftl cs 8; wIndex := Z.shiftl id 8;
     wLength := len |}.

(** ** Closed forms *)

(** What the pre-computation amounts to for subslot size [ssize], channel
    mask [chmask], sample rate [srate] and maximum packet size [maxp]: the
    interval is 1000 microseconds at every speed. *)
Definition pacing_of (ssize chmask srate maxp : Z) : Z * Z * Z * Z * Z :=
  let framesize := u32 (ssize * num_channels chmask) in
  let rate := u32 (srate * framesize) in
  let pktsize := min_t_unsigned (rate / 1000) maxp in
  (framesize, 1000, pktsize,
   if pktsize <? maxp then rate mod 1000 else 0, 0).

(** The options after the playback branch of [afunc_set_alt] for [alt]. *)
Definition opts_after_in_alt (o : f_uac2_opts) (alt : Z) : f_uac2_opts :=
  if alt =? 0 then o
  else
    let f := alt_entry as_in_alt_setting alt in
    opts_set_p_format o (bSubslotSize f) (bmChannelConfig f)
      (bBitResolution f).

(** The length of the [i]-th packet (from 0) of a 44100 Hz stream of 4-byte
    frames: one longer packet closes every group of ten. *)
Definition len_44100 (i : nat) : Z :=
  if (S i mod 10 =? 0)%nat then 180 else 176.

(** The requests a host sends for the clock of the playback direction, and
    the same for an entity the function does not have (id 0). *)
Definition get_range_in_clk : usb_ctrlrequest :=
  class_request true UAC2_CS_RANGE UAC2_CS_CONTROL_SAM_FREQ USB_IN_CLK_ID 14.
Definition get_range_entity_0 : usb_ctrlrequest :=
  class_request true UAC2_CS_RANGE UAC2_CS_CONTROL_SAM_FREQ 0 14.
Definition get_cur_entity_0 : usb_ctrlrequest :=
  class_request true UAC2_CS_CUR UAC2_CS_CONTROL_SAM_FREQ 0 4.
Definition set_cur_in_clk : usb_ctrlrequest :=
  class_request false UAC2_CS_CUR UAC2_CS_CONTROL_SAM_FREQ USB_IN_CLK_ID 4.

(** The layout-3 RANGE block of one sub-range [(rate, rate, 0)]: the 16-bit
    count 1 and three 32-bit values, little-endian. *)
Definition range_block (rate : Z) : list Z :=
  le16 1 ++ le32 rate ++ le32 rate ++ le32 0.

(** A stack that held the byte 0xAA everywhere. *)
Definition stale_stack : list Z := repeat 170 64.

(** The playback stream of the concrete device at [srate] Hz after the
    activation of setting 2 (stereo, 16 bits) at full speed. *)
Definition activated_chip (srate : Z) : snd_uac2_chip :=
  set_alt_chip full_speed_env (bound_dev srate) 2 2.

(** Three completions on the capture stream: 6 bytes, a request given back
    at shutdown, 12 bytes. *)
Definition capture_completions : list (env * usb_request) :=
  [ (full_speed_env, iso_request 0 6);
    (full_speed_env, iso_request (- ESHUTDOWN) 3);
    (full_speed_env, iso_request 0 12) ].

(** The playback stream of the concrete device at 44100 Hz, activated, with
    a ring of 1024 bytes in periods of 256, started. *)
Definition playback_chip : snd_uac2_chip :=
  let sub := {| stream := PLAYBACK |} in
  let u := snd (uac2_pcm_hw_params (activated_chip 44100) sub 0 1024 256) in
  snd (fst (uac2_pcm_trigger u sub TRIGGER_START)).

(** ** Further parts of the function *)

(** The number of set bits among the low [n] bits of [x]. *)
Definition bit_count (n : nat) (x : Z) : Z :=
  sum_lengths (map (fun i => Z.b2z (Z.testbit x (Z.of_nat i))) (seq 0 n)).

(** The bytes a trace copies between request buffer and ring, and whether a
    copy stays inside a ring of [ring] bytes and a request buffer of
    [req_size] bytes. *)
Definition copy_len (ev : event) : Z :=
  match ev with
  | Ev_copy_ring_to_req _ _ n | Ev_copy_req_to_ring _ _ n => n
  | _ => 0
  end.

Definition copied_bytes (tr : list event) : Z :=
  sum_lengths (map copy_len tr).

Definition copy_in_bounds (ring req_size : Z) (ev : event) : Prop :=
  match ev with
  | Ev_copy_ring_to_req req_off ring_off n
  | Ev_copy_req_to_ring ring_off req_off n =>
      0 <= n /\ 0 <= req_off /\ req_off + n <= req_size
      /\ 0 <= ring_off /\ ring_off + n <= ring
  | _ => True
  end.

(** The other direction. *)
Definition other_dir (d : stream_dir) : stream_dir :=
  match d with PLAYBACK => CAPTURE | CAPTURE => PLAYBACK end.

(** The bytes a list of completed requests added to the ring position:
    [req->actual] of every request not given back with [-ESHUTDOWN]. *)
Definition handled_bytes (reqs : list usb_request) : Z :=
  sum_lengths
    (map (fun r => if status r =? - ESHUTDOWN then 0 else actual r) reqs).

(** How often a trace calls [usb_ep_queue]. *)
Definition queue_count (tr : list event) : nat :=
  List.length
    (filter (fun ev => match ev with Ev_usb_ep_queue => true | _ => false end)
       tr).

(** The request pool of a direction: [USB_XFERS] slots, and none of them
    holds a request while the endpoint is disabled. *)
Definition pool_ok (p : uac2_rtd_params) : Prop :=
  List.length (ureq p) = USB_XFERS
  /\ (ep_enabled p = false -> Forall (fun s => s = None) (ureq p)).

Definition EPIPE : Z := 32.

(** [afunc_get_alt] *)
Definition afunc_get_alt (a : audio_dev) (intf : Z) : Z * list event :=
  if intf =? ac_intf a then (ac_alt a, [])
  else if intf =? as_out_intf a then (as_out_alt a, [])
  else if intf =? as_in_intf a then (as_in_alt a, [])
  else (- EINVAL, [Ev_dev_err]).

(** Events of the functions below, on top of [event]: work items, uevents
    and the calls into ALSA that [uac2_pcm_open] makes. *)
Inductive uevent :=
| HOST_CABLE_DISCONNECTED
| HOST_STREAM_CLOSED (d : stream_dir)            (* HOST_*_STREAM_CLOSED *)
| HOST_STREAM_PARAMS_CHANGED (d : stream_dir).   (* HOST_*_STREAM_PARAMS_CHANGED *)

Inductive notice :=
| Nt (ev : event)
| Nt_queue_work_disconnect
| Nt_kobject_uevent (u : uevent)
| Nt_msleep (ms : Z)
| Nt_spin_lock_init (d : stream_dir)
| Nt_hw_constraint_integer.

(** [afunc_disable] *)
Definition afunc_disable (e : env) (a : audio_dev)
  : audio_dev * list notice :=
  let u := uac2 a in
  let '(p, trp) := free_ep e PLAYBACK (p_prm u) in
  let u := chip_set_prm PLAYBACK u p in
  let a := agdev_set_as_in_alt (agdev_set_uac2 a u) 0 in
  let stop_p := if is_pcm_open p then [Ev_snd_pcm_stop PLAYBACK] else [] in
  let '(c, trc) := free_ep e CAPTURE (c_prm u) in
  let u := chip_set_prm CAPTURE u c in
  let a := agdev_set_as_out_alt (agdev_set_uac2 a u) 0 in
  let stop_c := if is_pcm_open c then [Ev_snd_pcm_stop CAPTURE] else [] in
  (a, Nt_queue_work_disconnect :: map Nt (trp ++ stop_p ++ trc ++ stop_c)).

(** [cable_disconnect_work] *)
Definition cable_disconnect_work : list notice :=
  [Nt (Ev_queue_delayed_work CAPTURE 0); Nt (Ev_queue_delayed_work PLAYBACK 0);
   Nt (Ev_pr_debug); Nt_kobject_uevent HOST_CABLE_DISCONNECTED].

(** [uevent_p_work] and [uevent_c_work] for direction [d].  The alternate
    setting of the direction is read twice, [alt_first] at the head and
    [alt_second] before the "connected" event (a sleep of 20 ms may lie in
    between); [is_prv_connect] is the function's static flag. *)
Definition uevent_work (d : stream_dir) (alt_first alt_second : Z)
  (is_prv_connect : bool) : list notice * bool :=
  if negb (alt_first =? 0) then
    let '(tr1, prv1) :=
      if is_prv_connect
      then ([Nt Ev_pr_debug; Nt_kobject_uevent (HOST_STREAM_CLOSED d);
             Nt_msleep 20], false)
      else ([], is_prv_connect) in
    if negb (alt_second =? 0)
    then (tr1 ++ [Nt Ev_pr_debug;
                  Nt_kobject_uevent (HOST_STREAM_PARAMS_CHANGED d)], true)
    else (tr1, prv1)
  else if is_prv_connect
  then ([Nt Ev_pr_debug; Nt_kobject_uevent (HOST_STREAM_CLOSED d)], false)
  else ([], is_prv_connect).

(** Successive runs of the work item of one direction, each with its two
    readings of the alternate setting. *)
Fixpoint uevent_work_runs (d : stream_dir) (runs : list (Z * Z))
  (is_prv_connect : bool) : list notice * bool :=
  match runs with
  | [] => ([], is_prv_connect)
  | (a1, a2) :: rest =>
      let '(tr1, prv1) := uevent_work d a1 a2 is_prv_connect in
      let '(tr2, prv2) := uevent_work_runs d rest prv1 in
      (tr1 ++ tr2, prv2)
  end.

(** The uevents of a trace, in order. *)
Fixpoint uevents_of (tr : list notice) : list uevent :=
  match tr with
  | [] => []
  | Nt_kobject_uevent u :: t => u :: uevents_of t
  | _ :: t => uevents_of t
  end.

(** A sequence of uevents of direction [d] in which "params changed"
    (connected) and "closed" (disconnected) take turns; [connected] tells
    which came last before the sequence. *)
Fixpoint uevents_alternate (d : stream_dir) (connected : bool)
  (l : list uevent) : Prop :=
  match l with
  | [] => True
  | u :: t =>
      (if connected then u = HOST_STREAM_CLOSED d
       else u = HOST_STREAM_PARAMS_CHANGED d)
      /\ uevents_alternate d (negb connected) t
  end.

(** The PCM sample formats the function offers ([SNDRV_PCM_FMTBIT_*]). *)
Inductive pcm_format := S16_LE | S24_3LE | S24_LE | S32_LE.

(** The fields of [struct snd_pcm_hardware] that [uac2_pcm_hardware] and
    [uac2_pcm_open] set; [formats] is [None] while no format bit is set. *)
Record snd_pcm_hardware := {
  formats : option pcm_format;
  rate_min : Z; rate_max : Z;                 (* unsigned int *)
  channels_min : Z; channels_max : Z;         (* unsigned int *)
  buffer_bytes_max : Z; period_bytes_min : Z; period_bytes_max : Z;
  periods_min : Z; periods_max : Z
}.

Definition MIN_PERIODS : Z := 4.

(** [uac2_pcm_hardware]; [PAGE_SIZE] is a parameter of the kernel build. *)
Definition uac2_pcm_hardware (PAGE_SIZE : Z) : snd_pcm_hardware :=
  {| formats := None; rate_min := 0; rate_max := 0;
     channels_min := 0; channels_max := 0;
     buffer_bytes_max := PAGE_SIZE * 16; period_bytes_min := 0;
     period_bytes_max := PAGE_SIZE; periods_min := MIN_PERIODS;
     periods_max := PAGE_SIZE * 16 / PAGE_SIZE |}.

(** The two nested switches of [uac2_pcm_open] on resolution and subslot
    size. *)
Definition open_format (sres ssize : Z) : pcm_format :=
  if sres =? 24 then (if ssize =? 3 then S24_3LE else S24_LE)
  else if sres =? 32 then S32_LE
  else S16_LE.

Definition prm_set_is_pcm_open (p : uac2_rtd_params) (v : bool)
  : uac2_rtd_params :=
  {| ep_enabled := ep_enabled p; dma_bytes := dma_bytes p; ss := ss p;
     is_pcm_open := v; hw_ptr := hw_ptr p;
     period_size := period_size p; max_psize := max_psize p;
     ureq := ureq p |}.

(** [uac2_pcm_open] for a substream of direction [stream substream]: the
    value returned, the device and [runtime->hw] afterwards. *)
Definition uac2_pcm_open (PAGE_SIZE : Z) (a : audio_dev)
  (substream : snd_pcm_substream)
  : Z * audio_dev * snd_pcm_hardware * list notice :=
  let o := opts a in
  let u := chip_set_p_residue (uac2 a) 0 in
  let a := agdev_set_uac2 a u in
  let hw := uac2_pcm_hardware PAGE_SIZE in
  let d := stream substream in
  let alt := match d with PLAYBACK => as_in_alt a | CAPTURE => as_out_alt a end in
  let '(srate, sres, ssize, chmask) :=
    match d with
    | PLAYBACK => (p_srate o, p_sres o, p_ssize o, p_chmask o)
    | CAPTURE => (c_srate o, c_sres o, c_ssize o, c_chmask o)
    end in
  if alt =? 0 then
    (- EPIPE, a, hw, [Nt Ev_pr_debug; Nt Ev_pr_debug; Nt Ev_pr_err])
  else
    let prm := chip_prm d u in
    let hw :=
      {| formats := Some (open_format sres ssize);
         rate_min := u32 srate; rate_max := u32 srate;
         channels_min := num_channels chmask;
         channels_max := num_channels chmask;
         buffer_bytes_max := buffer_bytes_max hw;
         period_bytes_min := u32 (2 * max_psize prm) / u32 (periods_min hw);
         period_bytes_max := period_bytes_max hw;
         periods_min := periods_min hw; periods_max := periods_max hw |} in
    (0, agdev_set_uac2 a (chip_set_prm d u (prm_set_is_pcm_open prm true)),
     hw,
     [Nt Ev_pr_debug; Nt Ev_pr_debug; Nt_spin_lock_init d; Nt Ev_pr_debug;
      Nt_hw_constraint_integer]).

(** [uac2_pcm_close] *)
Definition uac2_pcm_close (u : snd_uac2_chip) (substream : snd_pcm_substream)
  : Z * snd_uac2_chip :=
  let d := stream substream in
  (0, chip_set_prm d u (prm_set_is_pcm_open (chip_prm d u) false)).

(** [uac2_pcm_hw_free]; the pages are given back by ALSA. *)
Definition uac2_pcm_hw_free (u : snd_uac2_chip) (substream : snd_pcm_substream)
  (free_result : Z) : Z * snd_uac2_chip :=
  let d := stream substream in
  let prm := chip_prm d u in
  (free_result,
   chip_set_prm d u
     {| ep_enabled := ep_enabled prm; dma_bytes := 0; ss := ss prm;
        is_pcm_open := is_pcm_open prm; hw_ptr := hw_ptr prm;
        period_size := 0; max_psize := max_psize prm; ureq := ureq prm |}).

(** The sample rates are among [clk_frequencies]. *)
Definition rates_supported (o : f_uac2_opts) : Prop :=
  In (p_srate o) clk_frequencies /\ In (c_srate o) clk_frequencies.

(** Data stages arriving one after the other, each handed to the callback
    its request carries. *)
Fixpoint run_completes (o : f_uac2_opts) (reqs : list usb_request)
  : f_uac2_opts :=
  match reqs with
  | [] => o
  | r :: rest => run_completes (fst (run_complete o r)) rest
  end.

(** The device as [afunc_set_alt] leaves it. *)
Definition set_alt_dev (e : env) (a : audio_dev) (intf alt : Z) : audio_dev :=
  snd (fst (afunc_set_alt e a intf alt)).

(** A stack and a request buffer with 4 bytes of payload delivered. *)
Definition deliver (req : usb_request) (v : Z) : usb_request :=
  req_set_buf req (le32 v ++ skipn 4 (buf req)).

(** The streaming interface of a direction and its current alternate
    setting: capture is the OUT interface, playback the IN interface. *)
Definition stream_intf (a : audio_dev) (d : stream_dir) : Z :=
  match d with PLAYBACK => as_in_intf a | CAPTURE => as_out_intf a end.
Definition stream_alt (a : audio_dev) (d : stream_dir) : Z :=
  match d with PLAYBACK => as_in_alt a | CAPTURE => as_out_alt a end.

(** The configuration of one direction. *)
Definition dir_opts (o : f_uac2_opts) (d : stream_dir) : Z * Z * Z * Z :=
  match d with
  | PLAYBACK => (p_srate o, p_sres o, p_ssize o, p_chmask o)
  | CAPTURE => (c_srate o, c_sres o, c_ssize o, c_chmask o)
  end.

(** Every slot holds a request. *)
Definition all_armed (slots : list (option usb_request)) : Prop :=
  Forall (fun s => s <> None) slots.
Definition all_empty (slots : list (option usb_request)) : Prop :=
  Forall (fun s => s = None) slots.

(** The table of a direction, and the PCM format of its settings: 16 bits
    for settings 1 and 2, 24 bits in 3 bytes for 3 and 4, 24 bits in 4 bytes
    for 5 and 6. *)
Definition alt_table (d : stream_dir) : list alt_format :=
  match d with
  | PLAYBACK => as_in_alt_setting
  | CAPTURE => as_out_alt_setting
  end.

Definition alt_pcm_format (alt : Z) : pcm_format :=
  if alt <=? 2 then S16_LE else if alt <=? 4 then S24_3LE else S24_LE.

(** Which event came last, "params changed" (connected) or "closed". *)
Definition last_connected (connected : bool) (l : list uevent) : bool :=
  fold_left
    (fun _ u =>
       match u with HOST_STREAM_PARAMS_CHANGED _ => true | _ => false end)
    l connected.

(** The clock entity of a direction and its configured rate. *)
Definition clk_entity (d : stream_dir) : Z :=
  match d with PLAYBACK => USB_IN_CLK_ID | CAPTURE => USB_OUT_CLK_ID end.
Definition dir_srate (o : f_uac2_opts) (d : stream_dir) : Z :=
  match d with PLAYBACK => p_srate o | CAPTURE => c_srate o end.

(** A request [afunc_setup] serves: class type, interface recipient, and
    the control interface in the low byte of [wIndex]. *)
Definition for_control_interface (a : audio_dev) (cr : usb_ctrlrequest)
  : Prop :=
  Z.land (bRequestType cr) USB_TYPE_MASK = USB_TYPE_CLASS
  /\ Z.land (bRequestType cr) USB_RECIP_MASK = USB_RECIP_INTERFACE
  /\ u8 (Z.land (u16 (wIndex cr)) 255) = ac_intf a.

(** Concrete requests for the runs below. *)
Definition get_cur_in_clk : usb_ctrlrequest :=
  class_request true UAC2_CS_CUR UAC2_CS_CONTROL_SAM_FREQ USB_IN_CLK_ID 4.
Definition vendor_request : usb_ctrlrequest :=
  {| bRequestType := 64; bRequest := UAC2_CS_CUR; wValue := 256;
     wIndex := 2560; wLength := 4 |}.

(** An environment in which the allocation for slot 5 fails. *)
Definition short_of_memory_env : env :=
  {| speed := USB_SPEED_HIGH; alloc_ok := fun i => negb (Nat.eqb i 5);
     ep_queue_ok := true; ep_disable_ok := true |}.

(** The bytes a completion that passes the shutdown guard accounts for,
    that is [req->actual] as the handler has it when it moves the position:
    for a capture substream what the completed request carries, for a
    playback substream the packet length the pacing arithmetic assigns to
    [req->length] and [req->actual]. *)
Definition completion_bytes (sub : snd_pcm_substream) (u : snd_uac2_chip)
  (req : usb_request) : option Z :=
  match stream sub with
  | CAPTURE => Some (actual req)
  | PLAYBACK => option_map fst (pacing_tick u)
  end.

(** The values a trace stores to [hw_ptr] of direction [d], in order. *)
Fixpoint hw_ptr_stores (d : stream_dir) (tr : list event) : list Z :=
  match tr with
  | [] => []
  | Ev_store_hw_ptr d' v :: t =>
      if stream_dir_eqb d d' then v :: hw_ptr_stores d t
      else hw_ptr_stores d t
  | _ :: t => hw_ptr_stores d t
  end.

(** The copies of a trace, in order. *)
Definition copy_events (tr : list event) : list event :=
  filter (fun ev => match ev with
                    | Ev_copy_ring_to_req _ _ _
                    | Ev_copy_req_to_ring _ _ _ => true
                    | _ => false
                    end) tr.

(** A transfer of [bytes] bytes between the start of the request buffer and
    the ring at position [hw] of a ring of [dma] bytes, towards the request
    for playback and towards the ring for capture: in one piece when it ends
    before the end of the ring, otherwise the piece up to the end of the
    ring followed by the rest at the start of the ring. *)
Definition ring_transfer (s : stream_dir) (hw dma bytes : Z) : list event :=
  let piece req_off ring_off n :=
    match s with
    | PLAYBACK => Ev_copy_ring_to_req req_off ring_off n
    | CAPTURE => Ev_copy_req_to_ring ring_off req_off n
    end in
  if dma - hw <? bytes
  then [piece 0 hw (dma - hw); piece (dma - hw) 0 (bytes - (dma - hw))]
  else [piece 0 hw bytes].

(** The requests of a sequence that pass the shutdown guard of an enabled
    endpoint. *)
Definition handled (reqs : list usb_request) : list usb_request :=
  filter (fun r => negb (status r =? - ESHUTDOWN)) reqs.
(** * Properties *)

(** ** Machine-integer facts *)

Lemma u32_range (x : Z) : is_u32 (u32 x).
Proof. unfold is_u32, u32. apply Z.mod_pos_bound. lia. Qed.

Lemma u32_small (x : Z) : is_u32 x -> u32 x = x.
Proof. unfold is_u32, u32. intros H. apply Z.mod_small. exact H. Qed.

Lemma u64_small (x : Z) : 0 <= x < 2 ^ 64 -> u64 x = x.
Proof. unfold u64. intros H. apply Z.mod_small. exact H. Qed.

Lemma s64_small (x : Z) : 0 <= x < 2 ^ 63 -> s64 x = x.
Proof.
  intros H. unfold s64. rewrite u64_small by lia.
  destruct (Z.ltb_spec x (2 ^ 63)); lia.
Qed.

(** ** The ring position *)

Lemma chip_prm_set_p_residue d u v :
  chip_prm d (chip_set_p_residue u v) = chip_prm d u.
Proof. destruct d; reflexivity. Qed.

Lemma chip_prm_set_prm d u p : chip_prm d (chip_set_prm d u p) = p.
Proof. destruct d; reflexivity. Qed.

Lemma pacing_tick_some (u : snd_uac2_chip) :
  p_interval u <> 0 ->
  exists len r, pacing_tick u = Some (len, chip_set_p_residue u r)
                /\ is_u32 r
                /\ (len = p_pktsize u \/ len = u32 (p_pktsize u + p_framesize u)).
Proof.
  intros Hi. unfold pacing_tick.
  destruct (Z.eqb_spec (p_interval u) 0) as [E|_]; [contradiction|].
  destruct (p_framesize u <=? _).
  - do 2 eexists. split; [reflexivity|]. split; [apply u32_range|now right].
  - do 2 eexists. split; [reflexivity|]. split; [apply u32_range|now left].
Qed.

Lemma ring_advance_in_range (h a m : Z) :
  0 < m <= SSIZE_MAX -> 0 <= h < m -> is_u32 a ->
  s64 (u64 (h + a) mod m) = (h + a) mod m /\ 0 <= (h + a) mod m < m.
Proof.
  unfold SSIZE_MAX, is_u32. intros Hm Hh Ha.
  assert (Hr : 0 <= (h + a) mod m < m) by (apply Z.mod_pos_bound; lia).
  rewrite u64_small by lia. rewrite s64_small by lia. auto.
Qed.

(** One completion on a ready stream: the handler returns, the stream is
    still ready with the same geometry, the position is the old one for a
    request dropped by the shutdown guard and the old one advanced by
    [req->actual] modulo [dma_bytes] otherwise, and the store is made with
    the lock held. *)
Lemma agdev_iso_complete_step e d u req :
  stream_ready d u -> is_u32 (actual req) ->
  exists u' req' tr,
    agdev_iso_complete e d u req = Some (u', req', tr)
    /\ stream_ready d u'
    /\ dma_bytes (chip_prm d u') = dma_bytes (chip_prm d u)
    /\ (iso_shutting_down (chip_prm d u) req = true ->
        hw_ptr (chip_prm d u') = hw_ptr (chip_prm d u))
    /\ (iso_shutting_down (chip_prm d u) req = false ->
        hw_ptr (chip_prm d u')
        = (hw_ptr (chip_prm d u) + actual req') mod dma_bytes (chip_prm d u))
    /\ hw_ptr_stores_locked d tr.
Proof.
  intros (Hring & Hty & sub & Hss & Hint) Hact.
  unfold agdev_iso_complete.
  destruct (iso_shutting_down (chip_prm d u) req) eqn:Hdrop.
  - exists u, req, []. split; [reflexivity|].
    split; [split; [exact Hring|split; [exact Hty|exists sub; auto]]|].
    repeat split; auto; discriminate.
  - rewrite Hss.
    assert (Hpaced : exists u1 req1,
      match stream sub with
      | PLAYBACK =>
          match pacing_tick u with
          | None => None
          | Some (len, u1) =>
              Some (u1, req_set_actual (req_set_length req len) len)
          end
      | CAPTURE => Some (u, req)
      end = Some (u1, req1)
      /\ is_u32 (actual req1) /\ chip_prm d u1 = chip_prm d u
      /\ pacing_typed u1 /\ p_interval u1 = p_interval u).
    { destruct (stream sub) eqn:Hs.
      - destruct (pacing_tick_some u (Hint eq_refl)) as (len & r & -> & Hr & Hl).
        do 2 eexists. split; [reflexivity|]. cbn [actual req_set_actual].
        split.
        { destruct Hl as [-> | ->]; [apply Hty | apply u32_range]. }
        split; [apply chip_prm_set_p_residue|].
        split; [|reflexivity].
        unfold pacing_typed, is_u32 in *. cbn. lia.
      - exists u, req. auto. }
    destruct Hpaced as (u1 & req1 & -> & Hact1 & Hprm & Hty1 & Hint1).
    destruct Hring as (Hdma & Hper & Hptr).
    destruct (Z.eqb_spec (period_size (chip_prm d u)) 0); [lia|].
    destruct (Z.eqb_spec (dma_bytes (chip_prm d u)) 0); [lia|].
    cbn [orb].
    destruct (ring_advance_in_range (hw_ptr (chip_prm d u)) (actual req1)
                (dma_bytes (chip_prm d u)) Hdma Hptr Hact1) as (Heq & Hrng).
    do 3 eexists. split; [reflexivity|].
    rewrite chip_prm_set_prm, Hprm, Heq. cbn [dma_bytes hw_ptr prm_set_hw_ptr].
    split; [|split; [reflexivity|split; [discriminate|split; [reflexivity|]]]].
    + split; [|split].
      * rewrite chip_prm_set_prm. unfold ring_ok.
        cbn [dma_bytes hw_ptr period_size prm_set_hw_ptr]. lia.
      * destruct d; exact Hty1.
      * exists sub. rewrite chip_prm_set_prm. cbn [ss prm_set_hw_ptr].
        split; [exact Hss|].
        intros Hs. destruct d; cbn [p_interval chip_set_prm];
          rewrite Hint1; auto.
    + destruct (status req =? 0); destruct d, (stream sub);
        unfold iso_copy, iso_exit;
        repeat match goal with |- context [if ?c then _ else _] =>
                 destruct c end; reflexivity.
Qed.

Lemma hw_ptr_lock_run_app d tr1 : forall held tr2,
  hw_ptr_lock_run d held (tr1 ++ tr2)
  = match hw_ptr_lock_run d held tr1 with
    | Some h => hw_ptr_lock_run d h tr2
    | None => None
    end.
Proof.
  induction tr1 as [|ev tr1 IH]; intros held tr2; [reflexivity|].
  destruct ev; cbn [app hw_ptr_lock_run]; try apply IH.
  destruct (negb (stream_dir_eqb d d0) || held); [apply IH|reflexivity].
Qed.

Lemma hw_ptr_stores_locked_app d tr1 tr2 :
  hw_ptr_stores_locked d tr1 -> hw_ptr_stores_locked d tr2 ->
  hw_ptr_stores_locked d (tr1 ++ tr2).
Proof.
  unfold hw_ptr_stores_locked. intros H1 H2.
  now rewrite hw_ptr_lock_run_app, H1.
Qed.

(** Any sequence of completions on a ready stream runs to its end and leaves
    the stream ready. *)
Lemma iso_completions_ready d cs : forall u,
  stream_ready d u ->
  Forall (fun c => is_u32 (actual (snd c))) cs ->
  exists u' reqs tr,
    iso_completions d u cs = Some (u', reqs, tr)
    /\ stream_ready d u'
    /\ dma_bytes (chip_prm d u') = dma_bytes (chip_prm d u)
    /\ hw_ptr_stores_locked d tr.
Proof.
  induction cs as [|[e req] cs IH]; intros u Hu Hcs.
  - exists u, [], []. split; [reflexivity|]. split; [exact Hu|].
    split; reflexivity.
  - inversion Hcs as [|c cs' Hreq Hrest]; subst. cbn [snd] in Hreq.
    destruct (agdev_iso_complete_step e d u req Hu Hreq)
      as (u1 & req1 & tr1 & Hrun & Hu1 & Hdma & _ & _ & Hl1).
    destruct (IH u1 Hu1 Hrest) as (u2 & reqs & tr2 & Hrun2 & Hu2 & Hdma2 & Hl2).
    exists u2, (req1 :: reqs), (tr1 ++ tr2).
    cbn [iso_completions]. rewrite Hrun, Hrun2.
    split; [reflexivity|]. split; [exact Hu2|].
    split; [congruence|]. now apply hw_ptr_stores_locked_app.
Qed.

(** The shape of a completion that passes the shutdown guard on a ready
    stream: what the request becomes, what is stored, what is copied and
    what the exit does. *)
Lemma agdev_iso_complete_handled e d u req :
  stream_ready d u -> is_u32 (actual req) ->
  iso_shutting_down (chip_prm d u) req = false ->
  exists sub u1 req1,
    ss (chip_prm d u) = Some sub
    /\ chip_prm d u1 = chip_prm d u
    /\ chip_prm (other_dir d) u1 = chip_prm (other_dir d) u
    /\ (stream sub = CAPTURE -> u1 = u /\ req1 = req)
    /\ (stream sub = PLAYBACK ->
        pacing_tick u = Some (actual req1, u1)
        /\ req1 = req_set_actual (req_set_length req (actual req1))
                    (actual req1))
    /\ completion_bytes sub u req = Some (actual req1)
    /\ is_u32 (actual req1) /\ status req1 = status req
    /\ agdev_iso_complete e d u req
       = Some (chip_set_prm d u1
                 (prm_set_hw_ptr (chip_prm d u)
                    ((hw_ptr (chip_prm d u) + actual req1)
                     mod dma_bytes (chip_prm d u))),
               req1,
               (if status req =? 0 then [] else [Ev_pr_debug])
               ++ [Ev_spin_lock d;
                   Ev_store_hw_ptr d
                     ((hw_ptr (chip_prm d u) + actual req1)
                      mod dma_bytes (chip_prm d u));
                   Ev_spin_unlock d]
               ++ iso_copy (stream sub) (u32 (hw_ptr (chip_prm d u)))
                    (u32 (dma_bytes (chip_prm d u)
                          - u32 (hw_ptr (chip_prm d u))))
                    (actual req1)
               ++ iso_exit e
                    (period_size (chip_prm d u)
                     <=? u32 (u32 (hw_ptr (chip_prm d u)
                                   mod period_size (chip_prm d u))
                              + actual req1))).
Proof.
  intros (Hring & Hty & sub & Hss & Hint) Hact Hdrop.
  unfold agdev_iso_complete. rewrite Hdrop, Hss.
  destruct Hring as (Hdma & Hper & Hptr).
  assert (Hpaced : exists u1 req1,
    match stream sub with
    | PLAYBACK =>
        match pacing_tick u with
        | None => None
        | Some (len, u1) =>
            Some (u1, req_set_actual (req_set_length req len) len)
        end
    | CAPTURE => Some (u, req)
    end = Some (u1, req1)
    /\ is_u32 (actual req1) /\ chip_prm d u1 = chip_prm d u
    /\ chip_prm (other_dir d) u1 = chip_prm (other_dir d) u
    /\ (stream sub = CAPTURE -> u1 = u /\ req1 = req)
    /\ (stream sub = PLAYBACK ->
        pacing_tick u = Some (actual req1, u1)
        /\ req1 = req_set_actual (req_set_length req (actual req1))
                    (actual req1))
    /\ completion_bytes sub u req = Some (actual req1)
    /\ status req1 = status req).
  { unfold completion_bytes. destruct (stream sub) eqn:Hs.
    - destruct (pacing_tick_some u (Hint eq_refl)) as (len & r & Ht & Hr & Hl).
      rewrite Ht.
      do 2 eexists. split; [reflexivity|]. cbn [actual req_set_actual].
      split.
      { destruct Hl as [-> | ->]; [apply Hty | apply u32_range]. }
      split; [apply chip_prm_set_p_residue|].
      split; [destruct d; reflexivity|].
      split; [discriminate|].
      split; [intros _; split; reflexivity|].
      split; reflexivity.
    - exists u, req. split; [reflexivity|]. split; [exact Hact|].
      split; [reflexivity|]. split; [reflexivity|].
      split; [auto|]. split; [discriminate|]. split; reflexivity. }
  destruct Hpaced
    as (u1 & req1 & -> & Hact1 & Hprm & Hoth & Hcap & Hpb & Hcb & Hst).
  destruct (Z.eqb_spec (period_size (chip_prm d u)) 0); [lia|].
  destruct (Z.eqb_spec (dma_bytes (chip_prm d u)) 0); [lia|].
  cbn [orb].
  destruct (ring_advance_in_range (hw_ptr (chip_prm d u)) (actual req1)
              (dma_bytes (chip_prm d u)) Hdma Hptr Hact1) as (Heq & Hrng).
  exists sub, u1, req1. rewrite Heq, Hprm.
  rewrite (u64_small (hw_ptr (chip_prm d u))) by (unfold SSIZE_MAX in *; lia).
  split; [reflexivity|]. split; [reflexivity|]. split; [exact Hoth|].
  split; [exact Hcap|]. split; [exact Hpb|]. split; [exact Hcb|].
  split; [exact Hact1|]. split; [exact Hst|]. reflexivity.
Qed.

Lemma hw_ptr_stores_app d t1 t2 :
  hw_ptr_stores d (t1 ++ t2) = hw_ptr_stores d t1 ++ hw_ptr_stores d t2.
Proof.
  induction t1 as [|ev t1 IH]; [reflexivity|].
  destruct ev; cbn [app hw_ptr_stores]; rewrite ?IH; try reflexivity.
  destruct (stream_dir_eqb d d0); reflexivity.
Qed.

Lemma stream_dir_eqb_refl d : stream_dir_eqb d d = true.
Proof. destruct d; reflexivity. Qed.

(** The only store of a handled completion is the one between lock and
    unlock. *)
Lemma handled_trace_stores e d s st v h p a upd :
  hw_ptr_stores d
    ((if st =? 0 then [] else [Ev_pr_debug])
     ++ [Ev_spin_lock d; Ev_store_hw_ptr d v; Ev_spin_unlock d]
     ++ iso_copy s h p a ++ iso_exit e upd) = [v].
Proof.
  rewrite !hw_ptr_stores_app. cbn [hw_ptr_stores].
  rewrite stream_dir_eqb_refl.
  assert (H0 : hw_ptr_stores d (if st =? 0 then [] else [Ev_pr_debug]) = [])
    by (destruct (st =? 0); reflexivity).
  assert (H1 : hw_ptr_stores d (iso_copy s h p a) = [])
    by (unfold iso_copy; destruct s; destruct (p <? a); reflexivity).
  assert (H2 : hw_ptr_stores d (iso_exit e upd) = [])
    by (unfold iso_exit; destruct (ep_queue_ok e); destruct upd; reflexivity).
  rewrite H0, H1, H2. reflexivity.
Qed.

(** C1. On a stream with a bound substream and a ring of [dma_bytes > 0]
    bytes, after any sequence of completions handled by [agdev_iso_complete]
    the position [hw_ptr] lies in [[0, dma_bytes)], and one more completion
    leaves it there.  A completion that passes the shutdown guard advances
    the position by exactly [req->actual] modulo [dma_bytes], where
    [req->actual] is what the completed request carries on a capture
    substream (the request is returned as it came) and the packet length
    the pacing arithmetic has just assigned to it on a playback substream;
    its trace stores that new position, once, and nothing else to
    [hw_ptr].  A completion the guard drops changes nothing and has an
    empty trace.  Every store to [hw_ptr] along the whole run is made with
    the lock of the direction held. *)
Theorem hw_ptr_ring_invariant d u cs e req :
  stream_ready d u ->
  Forall (fun c => is_u32 (actual (snd c))) cs ->
  is_u32 (actual req) ->
  exists u1 reqs tr1 u2 req2 tr2,
    iso_completions d u cs = Some (u1, reqs, tr1)
    /\ 0 <= hw_ptr (chip_prm d u1) < dma_bytes (chip_prm d u)
    /\ agdev_iso_complete e d u1 req = Some (u2, req2, tr2)
    /\ 0 <= hw_ptr (chip_prm d u2) < dma_bytes (chip_prm d u)
    /\ (iso_shutting_down (chip_prm d u1) req = false ->
        hw_ptr (chip_prm d u2)
        = (hw_ptr (chip_prm d u1) + actual req2) mod dma_bytes (chip_prm d u)
        /\ (exists sub,
              ss (chip_prm d u1) = Some sub
              /\ completion_bytes sub u1 req = Some (actual req2)
              /\ (stream sub = CAPTURE -> req2 = req)
              /\ (stream sub = PLAYBACK ->
                  req2 = req_set_actual (req_set_length req (actual req2))
                           (actual req2)))
        /\ hw_ptr_stores d tr2 = [hw_ptr (chip_prm d u2)])
    /\ (iso_shutting_down (chip_prm d u1) req = true ->
        hw_ptr (chip_prm d u2) = hw_ptr (chip_prm d u1)
        /\ u2 = u1 /\ req2 = req /\ tr2 = [])
    /\ hw_ptr_stores_locked d (tr1 ++ tr2).
Proof.
  intros Hu Hcs Hreq.
  destruct (iso_completions_ready d cs u Hu Hcs)
    as (u1 & reqs & tr1 & Hrun & Hu1 & Hdma & Hl1).
  destruct (agdev_iso_complete_step e d u1 req Hu1 Hreq)
    as (u2 & req2 & tr2 & Hstep & Hu2 & Hdma2 & Hdrop & Hadv & Hl2).
  exists u1, reqs, tr1, u2, req2, tr2.
  split; [exact Hrun|].
  split; [destruct Hu1 as ((_ & _ & H) & _); rewrite <- Hdma; exact H|].
  split; [exact Hstep|].
  split; [destruct Hu2 as ((_ & _ & H) & _); rewrite <- Hdma, <- Hdma2; exact H|].
  split; [|split; [|now apply hw_ptr_stores_locked_app]].
  - intros Hd.
    destruct (agdev_iso_complete_handled e d u1 req Hu1 Hreq Hd)
      as (sub & u1' & req1 & Hss & _ & _ & Hcap & Hpb & Hcb & _ & _ & Heq).
    match type of Heq with
    | _ = Some (_, _, ?t) => remember t as trx eqn:Htrx
    end.
    rewrite Heq in Hstep. injection Hstep as <- <- <-.
    split; [rewrite <- Hdma; auto|]. split.
    + exists sub. split; [exact Hss|]. split; [exact Hcb|].
      split; [intros Hs; apply Hcap; exact Hs|].
      intros Hs. apply Hpb. exact Hs.
    + rewrite Htrx, handled_trace_stores, chip_prm_set_prm. reflexivity.
  - intros Hd. split; [auto|].
    unfold agdev_iso_complete in Hstep. rewrite Hd in Hstep.
    injection Hstep as <- <- <-. auto.
Qed.

(** [uac2_pcm_trigger] with a start command binds the substream and puts
    the position at 0, inside the lock: with a sound geometry the stream is
    ready for completions. *)
Lemma uac2_pcm_trigger_start_ready u sub :
  let d := stream sub in
  0 < dma_bytes (chip_prm d u) <= SSIZE_MAX ->
  0 < period_size (chip_prm d u) ->
  pacing_typed u -> (d = PLAYBACK -> p_interval u <> 0) ->
  let r := uac2_pcm_trigger u sub TRIGGER_START in
  fst (fst r) = 0 /\ stream_ready d (snd (fst r))
  /\ hw_ptr (chip_prm d (snd (fst r))) = 0
  /\ hw_ptr_stores_locked d (snd r).
Proof.
  intros d Hdma Hper Hty Hint r. subst r d. unfold uac2_pcm_trigger.
  cbn [fst snd]. split; [reflexivity|].
  split; [|split].
  - split; [|split].
    + rewrite chip_prm_set_prm. unfold ring_ok.
      cbn [dma_bytes period_size hw_ptr prm_set_ss prm_set_hw_ptr]. lia.
    + destruct (stream sub); exact Hty.
    + exists sub. rewrite chip_prm_set_prm. split; [reflexivity|].
      intros Hs. destruct (stream sub); cbn; auto.
  - rewrite chip_prm_set_prm. reflexivity.
  - destruct (stream sub); reflexivity.
Qed.

(** On a playback stream that is not shutting down the handler runs the
    pacing arithmetic once and gives the request the length it emits. *)
Lemma agdev_iso_complete_paces e u req len u1 :
  iso_shutting_down (p_prm u) req = false ->
  ss (p_prm u) = Some {| stream := PLAYBACK |} ->
  period_size (p_prm u) <> 0 -> dma_bytes (p_prm u) <> 0 ->
  pacing_tick u = Some (len, u1) ->
  exists u2 tr,
    agdev_iso_complete e PLAYBACK u req
    = Some (u2, req_set_actual (req_set_length req len) len, tr)
    /\ pacing_state u2 = pacing_state u1.
Proof.
  intros Hdrop Hss Hper Hdma Htick. unfold agdev_iso_complete.
  cbn [chip_prm]. rewrite Hdrop, Hss. cbn [stream]. rewrite Htick.
  destruct (Z.eqb_spec (period_size (p_prm u)) 0); [contradiction|].
  destruct (Z.eqb_spec (dma_bytes (p_prm u)) 0); [contradiction|].
  cbn [orb]. do 2 eexists. split; [reflexivity|]. reflexivity.
Qed.

(** ** Rate matching *)

Lemma pacing_state_set_p_residue u v :
  pacing_state (chip_set_p_residue u v)
  = (p_framesize u, p_interval u, p_pktsize u, p_pktsize_residue u, v).
Proof. reflexivity. Qed.

(** One tick under the accumulator bound: the handler's division compares
    the accumulator with [p_framesize * p_interval], and the subtraction
    brings it back under that bound. *)
Lemma pacing_tick_bound (u : snd_uac2_chip) :
  pacing_typed u -> 1 <= p_framesize u ->
  p_pktsize_residue u < p_interval u ->
  p_residue u < p_framesize u * p_interval u ->
  exists len r,
    pacing_tick u = Some (len, chip_set_p_residue u r)
    /\ 0 <= r < 2 ^ 32 /\ r < p_framesize u * p_interval u
    /\ (len = p_pktsize u \/ len = u32 (p_pktsize u + p_framesize u)).
Proof.
  unfold pacing_typed, is_u32.
  intros (HI & Hr & HP & HR & HF) HF1 HRI Hinv.
  unfold pacing_tick.
  set (F := p_framesize u) in *. set (I := p_interval u) in *.
  set (R := p_pktsize_residue u) in *. set (r := p_residue u) in *.
  destruct (Z.eqb_spec I 0) as [E|_]; [lia|].
  assert (Hr1 : 0 <= u32 (r + R) < 2 ^ 32) by apply u32_range.
  assert (Hle : u32 (r + R) <= r + R).
  { unfold u32. apply Z.mod_le; lia. }
  destruct (Z.leb_spec F (u32 (r + R) / I)) as [Hge|Hlt].
  - assert (HFI : F * I <= u32 (r + R)).
    { pose proof (Z.mul_div_le (u32 (r + R)) I ltac:(lia)). nia. }
    do 2 eexists. split; [reflexivity|].
    assert (E1 : u32 (F * I) = F * I) by (apply u32_small; unfold is_u32; nia).
    rewrite E1.
    assert (E2 : u32 (u32 (r + R) - F * I) = u32 (r + R) - F * I)
      by (apply u32_small; unfold is_u32; lia).
    rewrite E2. split; [lia|]. split; [nia|]. now right.
  - do 2 eexists. split; [reflexivity|].
    assert (u32 (r + R) < F * I).
    { pose proof (Z.div_mod (u32 (r + R)) I ltac:(lia)).
      pose proof (Z.mod_pos_bound (u32 (r + R)) I ltac:(lia)). nia. }
    split; [lia|]. split; [lia|]. now left.
Qed.

Lemma chip_set_p_residue_eta u : chip_set_p_residue u (p_residue u) = u.
Proof. destruct u; reflexivity. Qed.

(** Any number of ticks under the accumulator bound. *)
Lemma pacing_ticks_bound n : forall u,
  pacing_typed u -> 1 <= p_framesize u ->
  p_pktsize_residue u < p_interval u ->
  p_residue u < p_framesize u * p_interval u ->
  exists lens r,
    pacing_ticks n u = Some (lens, chip_set_p_residue u r)
    /\ List.length lens = n
    /\ 0 <= r < 2 ^ 32 /\ r < p_framesize u * p_interval u
    /\ Forall (fun len => len = p_pktsize u
                          \/ len = u32 (p_pktsize u + p_framesize u)) lens.
Proof.
  induction n as [|n IH]; intros u Hty HF HR Hinv.
  - exists [], (p_residue u). cbn [pacing_ticks].
    rewrite chip_set_p_residue_eta. repeat split; try apply Hty; auto.
  - destruct (pacing_tick_bound u Hty HF HR Hinv)
      as (len & r & Htick & Hr & Hb & Hlen).
    destruct (IH (chip_set_p_residue u r)) as (lens & r' & Hrun & Hn & Hr' & Hb' & Hall).
    + unfold pacing_typed, is_u32 in *. cbn. lia.
    + exact HF.
    + exact HR.
    + exact Hb.
    + exists (len :: lens), r'. cbn [pacing_ticks]. rewrite Htick, Hrun.
      cbn in *. repeat split; auto; lia.
Qed.

(** C10. With [p_framesize >= 1], [p_pktsize_residue < p_interval] and the
    accumulator starting at 0, any number of playback pacing ticks run to
    their end, leave [p_residue] strictly below [p_framesize * p_interval],
    and every packet length emitted is [p_pktsize] or
    [p_pktsize + p_framesize] (the sum as the [unsigned] field holds it,
    which is the plain sum whenever that fits 32 bits). *)
Theorem pacing_residue_below_frame n u :
  pacing_typed u -> 1 <= p_framesize u ->
  p_pktsize_residue u < p_interval u -> p_residue u = 0 ->
  exists lens u',
    pacing_ticks n u = Some (lens, u')
    /\ List.length lens = n
    /\ p_residue u' < p_framesize u * p_interval u
    /\ Forall (fun len => len = p_pktsize u
                          \/ len = u32 (p_pktsize u + p_framesize u)) lens
    /\ (p_pktsize u + p_framesize u < 2 ^ 32 ->
        Forall (fun len => len = p_pktsize u
                           \/ len = p_pktsize u + p_framesize u) lens).
Proof.
  intros Hty HF HR H0.
  assert (Hinv : p_residue u < p_framesize u * p_interval u).
  { unfold pacing_typed, is_u32 in Hty. nia. }
  destruct (pacing_ticks_bound n u Hty HF HR Hinv)
    as (lens & r & Hrun & Hn & Hr & Hb & Hall).
  exists lens, (chip_set_p_residue u r).
  split; [exact Hrun|]. split; [exact Hn|]. split; [exact Hb|].
  split; [exact Hall|].
  intros Hfit. rewrite u32_small in Hall; [exact Hall|].
  unfold pacing_typed, is_u32 in *. lia.
Qed.

(** ** Alternate settings *)

Lemma chip_set_prm_pacing d u p :
  pacing_state (chip_set_prm d u p) = pacing_state u.
Proof. destruct d; reflexivity. Qed.

Lemma free_ep_max_psize e d prm :
  max_psize (fst (free_ep e d prm)) = max_psize prm.
Proof.
  unfold free_ep. destruct (negb (ep_enabled prm)); [reflexivity|].
  destruct (free_requests d 0 (ureq prm)). reflexivity.
Qed.

(** The common end of [afunc_set_alt] touches the parameters of its
    direction only, and there neither the packet-size limit nor anything
    outside the endpoint state. *)
Lemma set_alt_finish_frame e d a alt req_len tr :
  let a' := snd (fst (set_alt_finish e d a alt req_len tr)) in
  pacing_state (uac2 a') = pacing_state (uac2 a)
  /\ opts a' = opts a
  /\ max_psize (p_prm (uac2 a')) = max_psize (p_prm (uac2 a))
  /\ ac_intf a' = ac_intf a /\ as_out_intf a' = as_out_intf a
  /\ as_in_intf a' = as_in_intf a.
Proof.
  unfold set_alt_finish.
  destruct (alt =? 0).
  - pose proof (free_ep_max_psize e d (chip_prm d (uac2 a))) as Hm.
    destruct (free_ep e d (chip_prm d (uac2 a))) as [prm' tr'].
    cbn [fst snd uac2 opts agdev_set_uac2 ac_intf as_out_intf as_in_intf].
    rewrite chip_set_prm_pacing. repeat split.
    destruct d; cbn in *; auto.
  - destruct (arm_requests e d req_len 0 (ureq (chip_prm d (uac2 a))))
      as [[ok slots] tr'].
    cbn [fst snd uac2 opts agdev_set_uac2 ac_intf as_out_intf as_in_intf].
    rewrite chip_set_prm_pacing. repeat split.
    destruct d; reflexivity.
Qed.

(** The interval the playback endpoint is serviced at is 1000 microseconds
    at full speed (one frame) and at the other speeds (eight microframes). *)
Lemma precompute_pacing_closed e o u :
  pacing_state (precompute_pacing e o u)
  = pacing_of (p_ssize o) (p_chmask o) (p_srate o) (max_psize (p_prm u)).
Proof. unfold precompute_pacing. destruct (speed e); reflexivity. Qed.

Lemma precompute_pacing_prm e o u :
  p_prm (precompute_pacing e o u) = p_prm u.
Proof. unfold precompute_pacing. destruct (speed e); reflexivity. Qed.

(** A call for the playback interface with a setting of the table. *)
Lemma afunc_set_alt_playback e a alt :
  intf_distinct a -> 0 <= alt <= 6 ->
  let a' := snd (fst (afunc_set_alt e a (as_in_intf a) alt)) in
  pacing_state (uac2 a')
  = pacing_of (p_ssize (opts a')) (p_chmask (opts a')) (p_srate (opts a))
      (max_psize (p_prm (uac2 a)))
  /\ opts a' = opts_after_in_alt (opts a) alt
  /\ max_psize (p_prm (uac2 a')) = max_psize (p_prm (uac2 a))
  /\ intf_distinct a'.
Proof.
  intros (H1 & H2 & H3) Halt. unfold afunc_set_alt.
  destruct (Z.eqb_spec (as_in_intf a) (ac_intf a)) as [E|_]; [congruence|].
  destruct (Z.eqb_spec (as_in_intf a) (as_out_intf a)) as [E|_];
    [congruence|].
  cbn [andb]. rewrite Z.eqb_refl.
  destruct (Z.leb_spec alt MAX_AS_IN_ALT) as [_|Hgt];
    [|unfold MAX_AS_IN_ALT in Hgt; lia].
  cbn [andb].
  match goal with
  | |- context [set_alt_finish e PLAYBACK ?x alt ?l ?t] =>
      pose proof (set_alt_finish_frame e PLAYBACK x alt l t) as Hf;
      destruct (set_alt_finish e PLAYBACK x alt l t) as [[ret a''] tr]
  end.
  cbn [fst snd] in *.
  destruct Hf as (Hp & Ho & Hm & Hi1 & Hi2 & Hi3).
  rewrite Hp, Ho, Hm. cbn [uac2 opts agdev_set_uac2].
  rewrite precompute_pacing_closed, precompute_pacing_prm.
  unfold intf_distinct. rewrite Hi1, Hi2, Hi3.
  unfold opts_after_in_alt.
  destruct (alt =? 0); repeat split; auto.
Qed.

Lemma num_channels_mono : num_channels UAC2_MONO_CH_CONFIG = 1.
Proof. reflexivity. Qed.

Lemma num_channels_stereo : num_channels UAC2_STEREO_CH_CONFIG = 2.
Proof. reflexivity. Qed.

(** The frame size of each setting of the playback table: subslot bytes
    times channels, between 2 and 8. *)
Lemma in_alt_framesize alt :
  1 <= alt <= 6 ->
  let f := alt_entry as_in_alt_setting alt in
  u32 (bSubslotSize f * num_channels (bmChannelConfig f))
  = bSubslotSize f * channels f
  /\ 2 <= bSubslotSize f * channels f <= 8.
Proof.
  intros H.
  assert (C : alt = 1 \/ alt = 2 \/ alt = 3 \/ alt = 4 \/ alt = 5 \/ alt = 6)
    by lia.
  destruct C as [-> | [-> | [-> | [-> | [-> | ->]]]]];
    (split; [reflexivity | vm_compute; split; discriminate]).
Qed.

Lemma opts_after_in_alt_srate o alt :
  p_srate (opts_after_in_alt o alt) = p_srate o.
Proof. unfold opts_after_in_alt. destruct (alt =? 0); reflexivity. Qed.

(** The pacing state after the activation of setting [alt] of the playback
    interface depends on the sample rate, the packet-size limit and [alt]
    only. *)
Lemma activated_pacing_state e a alt :
  intf_distinct a -> 1 <= alt <= 6 ->
  let f := alt_entry as_in_alt_setting alt in
  pacing_state (set_alt_chip e a (as_in_intf a) alt)
  = pacing_of (bSubslotSize f) (bmChannelConfig f) (p_srate (opts a))
      (max_psize (p_prm (uac2 a))).
Proof.
  intros Hd Halt f. unfold set_alt_chip.
  destruct (afunc_set_alt_playback e a alt Hd ltac:(lia)) as (Hp & Ho & _).
  rewrite Hp, Ho. unfold opts_after_in_alt.
  destruct (Z.eqb_spec alt 0); [lia|]. reflexivity.
Qed.

Lemma rate_quotient_u32 (x : Z) : u32 (u32 x / 1000) = u32 x / 1000.
Proof.
  apply u32_small. pose proof (u32_range x) as H. unfold is_u32 in *.
  split; [apply Z.div_pos; lia|].
  apply Z.le_lt_trans with (u32 x); [|lia].
  apply Z.div_le_upper_bound; lia.
Qed.

(** C4. Every activation of a non-zero alternate setting of the playback
    interface recomputes the pacing parameters in integer arithmetic: the
    frame size is subslot bytes times channels, the interval is 1000, the
    base packet size is the minimum of (sample rate x frame size) / interval
    and the maximum packet size, and the residue increment is 0 when the
    base equals that maximum and (sample rate x frame size) mod interval
    otherwise; the accumulator restarts at 0.  The product is the [unsigned
    int] product, which is the plain product whenever that fits 32 bits. *)
Theorem set_alt_pacing_parameters e a alt :
  intf_distinct a -> 1 <= alt <= 6 ->
  is_u32 (max_psize (p_prm (uac2 a))) ->
  let u' := set_alt_chip e a (as_in_intf a) alt in
  let f := alt_entry as_in_alt_setting alt in
  let maxp := max_psize (p_prm (uac2 a)) in
  let rate := u32 (p_srate (opts a) * p_framesize u') in
  p_framesize u' = bSubslotSize f * channels f
  /\ p_interval u' = 1000
  /\ p_pktsize u' = Z.min (rate / p_interval u') maxp
  /\ (p_pktsize u' = maxp -> p_pktsize_residue u' = 0)
  /\ (p_pktsize u' <> maxp ->
      p_pktsize_residue u' = rate mod p_interval u')
  /\ p_residue u' = 0
  /\ (0 <= p_srate (opts a) * p_framesize u' < 2 ^ 32 ->
      rate = p_srate (opts a) * p_framesize u').
Proof.
  intros Hd Halt Hmax u' f maxp rate.
  pose proof (activated_pacing_state e a alt Hd Halt) as Hp.
  fold u' f maxp in Hp. unfold pacing_state, pacing_of in Hp.
  destruct (in_alt_framesize alt Halt) as (Hfs & _). fold f in Hfs.
  rewrite Hfs in Hp.
  injection Hp as HF HI HP HR Hr.
  unfold min_t_unsigned in HP, HR.
  rewrite rate_quotient_u32, (u32_small maxp Hmax) in HP, HR.
  subst rate. rewrite HF, HI.
  split; [reflexivity|]. split; [reflexivity|]. split; [exact HP|].
  split; [|split; [|split]].
  - intros E. rewrite HR, <- HP, E.
    destruct (Z.ltb_spec maxp maxp); [lia|reflexivity].
  - intros NE. rewrite HR, <- HP.
    destruct (Z.ltb_spec (p_pktsize u') maxp); [reflexivity|].
    rewrite HP in *. lia.
  - exact Hr.
  - intros Hfit. apply u32_small. exact Hfit.
Qed.

(** C8. [afunc_set_alt] on the control interface fails with [-EINVAL] for
    every non-zero setting and succeeds for setting 0 without changing the
    state; an interface number that is none of the three known ones, and a
    setting beyond the six of the table, fail with [-EINVAL] (the state is
    unchanged there too). *)
Theorem afunc_set_alt_invalid e a intf alt :
  (intf = ac_intf a -> alt <> 0 ->
   afunc_set_alt e a intf alt = (- EINVAL, a, [Ev_dev_err]))
  /\ (intf = ac_intf a -> alt = 0 -> afunc_set_alt e a intf alt = (0, a, []))
  /\ ((intf <> ac_intf a /\ intf <> as_out_intf a /\ intf <> as_in_intf a)
      \/ 6 < alt ->
      fst (fst (afunc_set_alt e a intf alt)) = - EINVAL
      /\ snd (fst (afunc_set_alt e a intf alt)) = a).
Proof.
  unfold afunc_set_alt. split; [|split].
  - intros -> Hn. rewrite Z.eqb_refl.
    destruct (Z.eqb_spec alt 0); [contradiction|reflexivity].
  - intros -> ->. rewrite Z.eqb_refl. reflexivity.
  - intros [(H1 & H2 & H3) | Hbig].
    + destruct (Z.eqb_spec intf (ac_intf a)); [contradiction|].
      destruct (Z.eqb_spec intf (as_out_intf a)); [contradiction|].
      destruct (Z.eqb_spec intf (as_in_intf a)); [contradiction|].
      split; reflexivity.
    + destruct (Z.eqb_spec intf (ac_intf a)).
      * destruct (Z.eqb_spec alt 0); [lia|]. split; reflexivity.
      * unfold MAX_AS_OUT_ALT, MAX_AS_IN_ALT.
        destruct (Z.leb_spec alt 6); [lia|].
        rewrite !andb_false_r. split; reflexivity.
Qed.

(** C9. For every setting [k] of the playback table, activating [k],
    selecting setting 0 and activating [k] again leaves the pacing state
    [(p_framesize, p_interval, p_pktsize, p_pktsize_residue, p_residue)]
    that a single activation of [k] produces from a device [a0] with the
    same sample rate, whatever the USB core answers in each call. *)
Theorem set_alt_reactivation e1 e2 e3 e0 a a0 k :
  intf_distinct a -> intf_distinct a0 -> 1 <= k <= 6 ->
  p_srate (opts a0) = p_srate (opts a) ->
  max_psize (p_prm (uac2 a0)) = max_psize (p_prm (uac2 a)) ->
  let a1 := snd (fst (afunc_set_alt e1 a (as_in_intf a) k)) in
  let a2 := snd (fst (afunc_set_alt e2 a1 (as_in_intf a1) 0)) in
  pacing_state (set_alt_chip e3 a2 (as_in_intf a2) k)
  = pacing_state (set_alt_chip e0 a0 (as_in_intf a0) k).
Proof.
  intros Hd Hd0 Hk Hrate Hmax a1 a2.
  destruct (afunc_set_alt_playback e1 a k Hd ltac:(lia))
    as (_ & Ho1 & Hm1 & Hd1). fold a1 in Ho1, Hm1, Hd1.
  destruct (afunc_set_alt_playback e2 a1 0 Hd1 ltac:(lia))
    as (_ & Ho2 & Hm2 & Hd2). fold a2 in Ho2, Hm2, Hd2.
  rewrite (activated_pacing_state e3 a2 k Hd2 Hk).
  rewrite (activated_pacing_state e0 a0 k Hd0 Hk).
  rewrite Ho2, Ho1, !opts_after_in_alt_srate, Hm2, Hm1, Hrate, Hmax.
  reflexivity.
Qed.

(** ** Pacing of an activated stream *)

(** What an activation establishes for the completion handler. *)
Lemma activated_chip_pacing e a alt :
  intf_distinct a -> 1 <= alt <= 6 ->
  let u := set_alt_chip e a (as_in_intf a) alt in
  pacing_typed u /\ 2 <= p_framesize u <= 8 /\ p_interval u = 1000
  /\ p_pktsize_residue u < 1000 /\ p_residue u = 0.
Proof.
  intros Hd Halt u.
  pose proof (activated_pacing_state e a alt Hd Halt) as Hp. fold u in Hp.
  unfold pacing_state, pacing_of in Hp.
  destruct (in_alt_framesize alt Halt) as (Hfs & Hrange).
  cbv zeta in Hfs, Hrange. rewrite Hfs in Hp.
  injection Hp as HF HI HP HR Hr.
  set (rate := u32 (p_srate (opts a)
                    * (bSubslotSize (alt_entry as_in_alt_setting alt)
                       * channels (alt_entry as_in_alt_setting alt)))) in *.
  assert (Hinc : 0 <= p_pktsize_residue u < 1000).
  { rewrite HR. destruct (_ <? _); [apply Z.mod_pos_bound|]; lia. }
  assert (Hpk : is_u32 (p_pktsize u)).
  { rewrite HP. unfold min_t_unsigned, is_u32.
    pose proof (u32_range (rate / 1000)). pose proof (u32_range (max_psize (p_prm (uac2 a)))).
    unfold is_u32 in *. lia. }
  unfold pacing_typed, is_u32 in *. rewrite HF, HI, Hr. lia.
Qed.

(** C2 (as the code has it). After any number of playback pacing ticks
    from a freshly activated stream the residue accumulator is strictly
    below [p_framesize * p_interval]: the accumulator counts bytes times
    microseconds, and a frame is added once a whole frame has built up. *)
Theorem activated_residue_bound e a alt n :
  intf_distinct a -> 1 <= alt <= 6 ->
  let u := set_alt_chip e a (as_in_intf a) alt in
  exists lens u',
    pacing_ticks n u = Some (lens, u')
    /\ p_residue u' < p_framesize u * p_interval u.
Proof.
  intros Hd Halt u.
  destruct (activated_chip_pacing e a alt Hd Halt)
    as (Hty & HF & HI & HR & Hr). fold u in Hty, HF, HI, HR, Hr.
  destruct (pacing_ticks_bound n u Hty ltac:(lia) ltac:(lia) ltac:(nia))
    as (lens & r & Hrun & _ & _ & Hb & _).
  exists lens, (chip_set_p_residue u r). split; [exact Hrun|exact Hb].
Qed.

(** *** 44100 Hz, 4-byte frames *)

Lemma len_44100_periodic i q : len_44100 (i + q * 10) = len_44100 i.
Proof.
  unfold len_44100.
  replace (S (i + q * 10))%nat with (S i + q * 10)%nat by lia.
  now rewrite Nat.Div0.mod_add.
Qed.

Lemma seq_shift_by m : forall n k,
  seq (k + m) n = map (fun x => (x + m)%nat) (seq k n).
Proof.
  induction n as [|n IH]; intros k; [reflexivity|].
  cbn [seq map]. f_equal. apply (IH (S k)).
Qed.

Lemma firstn_seq_prefix m : forall s len,
  (m <= len)%nat -> firstn m (seq s len) = seq s m.
Proof.
  induction m as [|m IH]; intros s len Hle; [reflexivity|].
  destruct len as [|len]; [lia|].
  cbn [seq firstn]. f_equal. apply IH. lia.
Qed.

(** Ten consecutive packets carry 1764 bytes wherever the window starts. *)
Lemma window_44100 k : sum_lengths (map len_44100 (seq k 10)) = 1764.
Proof.
  rewrite (Nat.div_mod_eq k 10).
  replace (10 * (k / 10) + k mod 10)%nat
    with (k mod 10 + (k / 10) * 10)%nat by lia.
  rewrite seq_shift_by, map_map.
  rewrite (map_ext _ len_44100) by (intros; apply len_44100_periodic).
  pose proof (Nat.mod_upper_bound k 10 ltac:(lia)) as Hlt.
  destruct (k mod 10)%nat as [|[|[|[|[|[|[|[|[|[|j]]]]]]]]]];
    try reflexivity; lia.
Qed.

Lemma succ_mod_10 k :
  (S k mod 10 = if k mod 10 =? 9 then 0 else S (k mod 10))%nat.
Proof.
  pose proof (Nat.div_mod_eq k 10) as E.
  pose proof (Nat.mod_upper_bound k 10 ltac:(lia)) as Hlt.
  destruct (Nat.eqb_spec (k mod 10) 9) as [H9|H9].
  - symmetry. apply (Nat.mod_unique (S k) 10 (S (k / 10))); lia.
  - symmetry. apply (Nat.mod_unique (S k) 10 (k / 10)); lia.
Qed.

(** The stream runs with period ten: before packet [k] the accumulator
    holds [400 * (k mod 10)]. *)
Lemma pacing_ticks_44100 n : forall k u,
  pacing_state u = (4, 1000, 176, 400, 400 * Z.of_nat (k mod 10)) ->
  exists u',
    pacing_ticks n u = Some (map len_44100 (seq k n), u')
    /\ pacing_state u'
       = (4, 1000, 176, 400, 400 * Z.of_nat ((k + n) mod 10)).
Proof.
  induction n as [|n IH]; intros k u Hu.
  - exists u. rewrite Nat.add_0_r. auto.
  - assert (Htick : pacing_tick u
        = Some (len_44100 k,
                chip_set_p_residue u (400 * Z.of_nat (S k mod 10)))).
    { unfold len_44100. rewrite succ_mod_10.
      pose proof (Nat.mod_upper_bound k 10 ltac:(lia)) as Hlt.
      remember (k mod 10)%nat as j eqn:Hj. clear Hj.
      unfold pacing_state in Hu. injection Hu as HF HI HP HR Hr.
      unfold pacing_tick. rewrite HF, HI, HP, HR, Hr.
      destruct j as [|[|[|[|[|[|[|[|[|[|j]]]]]]]]]];
        try reflexivity; lia. }
    destruct (IH (S k) (chip_set_p_residue u (400 * Z.of_nat (S k mod 10))))
      as (u' & Hrun & Hst).
    { unfold pacing_state in *. injection Hu as HF HI HP HR Hr. cbn.
      rewrite HF, HI, HP, HR. reflexivity. }
    exists u'. cbn [pacing_ticks seq map]. rewrite Htick, Hrun.
    split; [reflexivity|].
    rewrite Hst. replace (k + S n)%nat with (S k + n)%nat by lia.
    reflexivity.
Qed.

(** C3 (as the code has it). At 44100 Hz with 4-byte frames (settings 2
    and 5 of the playback table) the activation yields a base packet size of
    176, a residue increment of 400 and an interval of 1000; packet [i]
    (from 0) then has [len_44100 i] bytes, that is 180 for every tenth packet
    and 176 for the others, and every window of ten consecutive packets
    carries 1764 bytes, which is 44100 x 4 x 10 / 1000 exactly. *)
Theorem pacing_44100_every_tenth e a alt n :
  intf_distinct a -> alt = 2 \/ alt = 5 ->
  p_srate (opts a) = 44100 ->
  176 < max_psize (p_prm (uac2 a)) < 2 ^ 32 ->
  let u := set_alt_chip e a (as_in_intf a) alt in
  pacing_state u = (4, 1000, 176, 400, 0)
  /\ exists u',
       pacing_ticks n u = Some (map len_44100 (seq 0 n), u')
       /\ forall k, (k + 10 <= n)%nat ->
            1000 * sum_lengths
                     (firstn 10 (skipn k (map len_44100 (seq 0 n))))
            = 44100 * 4 * 10.
Proof.
  intros Hd Halt Hrate Hmax u.
  assert (Hst : pacing_state u = (4, 1000, 176, 400, 0)).
  { subst u. rewrite activated_pacing_state by (auto; lia).
    rewrite Hrate. clear Hrate.
    set (m := max_psize (p_prm (uac2 a))) in *.
    assert (E : forall ssize chmask,
      u32 (u32 (44100 * u32 (ssize * num_channels chmask)) / 1000) = 176 ->
      u32 (ssize * num_channels chmask) = 4 ->
      u32 (44100 * u32 (ssize * num_channels chmask)) mod 1000 = 400 ->
      pacing_of ssize chmask 44100 m = (4, 1000, 176, 400, 0)).
    { intros ssize chmask E1 E2 E3. unfold pacing_of, min_t_unsigned.
      rewrite E1, E3, E2, (u32_small m) by (unfold is_u32; lia).
      rewrite Z.min_l by lia.
      destruct (Z.ltb_spec 176 m); [reflexivity|lia]. }
    destruct Halt as [-> | ->]; apply E; reflexivity. }
  split; [exact Hst|].
  destruct (pacing_ticks_44100 n 0 u Hst) as (u' & Hrun & _).
  exists u'. split; [exact Hrun|].
  intros k Hk.
  rewrite skipn_map, firstn_map, skipn_seq, firstn_seq_prefix by lia.
  rewrite window_44100. reflexivity.
Qed.

(** ** Clock control requests *)

Lemma load_le32_le32 (v : Z) (rest : list Z) :
  is_u32 v -> load_le32 (le32 v ++ rest) = v.
Proof.
  unfold is_u32, load_le32, le32, u8. intros Hv. cbn [app nth].
  rewrite !Z.shiftr_div_pow2, !Z.shiftl_mul_pow2 by lia.
  change (2 ^ 8) with 256. change (2 ^ 16) with 65536.
  change (2 ^ 24) with 16777216. change (2 ^ 32) with 4294967296 in Hv.
  pose proof (Z.div_mod v 256 ltac:(lia)).
  pose proof (Z.div_mod (v / 256) 256 ltac:(lia)).
  pose proof (Z.div_mod (v / 65536) 256 ltac:(lia)).
  pose proof (Z.mod_pos_bound v 256 ltac:(lia)).
  pose proof (Z.mod_pos_bound (v / 256) 256 ltac:(lia)).
  pose proof (Z.mod_pos_bound (v / 65536) 256 ltac:(lia)).
  replace (v / 65536) with (v / 256 / 256) in *
    by (rewrite Z.div_div by lia; reflexivity).
  replace (v / 16777216) with (v / 256 / 256 / 256)
    by (rewrite !Z.div_div by lia; reflexivity).
  assert (0 <= v / 256 / 256 / 256 < 256).
  { split; [repeat apply Z.div_pos; lia|].
    repeat (apply Z.div_lt_upper_bound; [lia|]). lia. }
  rewrite (Z.mod_small (v / 256 / 256 / 256)) by lia. lia.
Qed.

Lemma clk_frequency_listed_spec (v : Z) :
  clk_frequency_listed clk_frequencies v = true <-> v = 44100 \/ v = 48000.
Proof.
  unfold clk_frequencies. cbn [clk_frequency_listed].
  change (u32 44100) with 44100. change (u32 48000) with 48000.
  destruct (Z.eqb_spec 44100 v); [intuition lia|].
  destruct (Z.eqb_spec 48000 v); [intuition lia|].
  intuition (try discriminate; lia).
Qed.

(** The [store] of the configfs attribute commits the rate inside the
    configuration lock. *)
Lemma f_uac2_opts_p_srate_store_locked o refcnt parsed len :
  srate_stores_locked
    (snd (f_uac2_opts_p_srate_store o refcnt parsed len)) = true.
Proof.
  unfold f_uac2_opts_p_srate_store.
  destruct (negb (refcnt =? 0)); [reflexivity|].
  destruct parsed; reflexivity.
Qed.

(** The completion callbacks of SET CUR take no lock. *)
Lemma run_complete_no_lock o req :
  ~ In Ev_mutex_lock (snd (run_complete o req)).
Proof.
  unfold run_complete, set_p_srate_complete, set_c_srate_complete.
  destruct (complete req); try destruct (clk_frequency_listed _ _);
    cbn; intuition congruence.
Qed.

(** C6 (as the code has it). A SET CUR request on the sample-frequency
    control returns the expected payload length at once.  When the payload
    [v] arrives and the completion callback of the request runs: for the
    clock of a direction, [v] in {44100, 48000} becomes the sample rate of
    that direction and nothing else changes, and any other [v] leaves the
    configuration as it was and logs an error; the callback returns nothing
    to the host. *)
Theorem set_cur_sample_rate o cr req v rest :
  cr_control_selector cr = UAC2_CS_CONTROL_SAM_FREQ -> is_u32 v ->
  let value := fst (fst (out_rq_cur o cr req)) in
  let req1 := snd (fst (out_rq_cur o cr req)) in
  let delivered := req_set_buf req1 (le32 v ++ rest) in
  let o' := fst (run_complete o delivered) in
  let tr := snd (run_complete o delivered) in
  value = u16 (wLength cr)
  /\ (cr_entity_id cr = USB_IN_CLK_ID ->
      (v = 44100 \/ v = 48000 -> o' = opts_set_p_srate o v)
      /\ (v <> 44100 -> v <> 48000 -> o' = o /\ In Ev_pr_err tr))
  /\ (cr_entity_id cr = USB_OUT_CLK_ID ->
      (v = 44100 \/ v = 48000 -> o' = opts_set_c_srate o v)
      /\ (v <> 44100 -> v <> 48000 -> o' = o /\ In Ev_pr_err tr)).
Proof.
  intros Hsel Hv. cbv zeta. unfold out_rq_cur. rewrite Hsel.
  change (UAC2_CS_CONTROL_SAM_FREQ =? UAC2_CS_CONTROL_SAM_FREQ) with true.
  cbv iota. cbn [fst snd].
  split; [reflexivity|].
  assert (Hs32 : v = 44100 \/ v = 48000 -> s32 v = v)
    by (intros [-> | ->]; reflexivity).
  pose proof (clk_frequency_listed_spec v) as Hl.
  split.
  - intros ->. change (USB_IN_CLK_ID =? USB_OUT_CLK_ID) with false.
    change (USB_IN_CLK_ID =? USB_IN_CLK_ID) with true. cbv iota.
    unfold run_complete, set_p_srate_complete.
    cbn [complete buf req_set_buf req_set_complete].
    rewrite load_le32_le32 by exact Hv.
    destruct (clk_frequency_listed clk_frequencies v); cbn [fst snd]; split.
    + intros H. now rewrite Hs32.
    + intros H1 H2. exfalso. destruct (proj1 Hl eq_refl); contradiction.
    + intros H. apply Hl in H. discriminate.
    + intros _ _. split; [reflexivity|]. right. now left.
  - intros ->. change (USB_OUT_CLK_ID =? USB_OUT_CLK_ID) with true.
    cbv iota. unfold run_complete, set_c_srate_complete.
    cbn [complete buf req_set_buf req_set_complete].
    rewrite load_le32_le32 by exact Hv.
    destruct (clk_frequency_listed clk_frequencies v); cbn [fst snd]; split.
    + intros H. now rewrite Hs32.
    + intros H1 H2. exfalso. destruct (proj1 Hl eq_refl); contradiction.
    + intros H. apply Hl in H. discriminate.
    + intros _ _. split; [reflexivity|]. right. now left.
Qed.

(** The GET RANGE handler rejects an entity that is not a clock. *)
Lemma in_rq_range_unknown_entity o cr stack req :
  cr_control_selector cr = UAC2_CS_CONTROL_SAM_FREQ ->
  cr_entity_id cr <> USB_IN_CLK_ID -> cr_entity_id cr <> USB_OUT_CLK_ID ->
  in_rq_range o cr stack req = (- EOPNOTSUPP, req, [Ev_pr_debug]).
Proof.
  intros Hs H1 H2. unfold in_rq_range. rewrite Hs.
  change (UAC2_CS_CONTROL_SAM_FREQ =? UAC2_CS_CONTROL_SAM_FREQ) with true.
  destruct (Z.eqb_spec (cr_entity_id cr) USB_IN_CLK_ID); [contradiction|].
  destruct (Z.eqb_spec (cr_entity_id cr) USB_OUT_CLK_ID); [contradiction|].
  reflexivity.
Qed.

(** The GET CUR handler does not: on the sample-frequency control it
    answers every entity with [min(wLength, 4)] bytes. *)
Lemma in_rq_cur_any_entity o cr stack req :
  cr_control_selector cr = UAC2_CS_CONTROL_SAM_FREQ ->
  fst (fst (in_rq_cur o cr stack req)) = Z.min (u16 (wLength cr)) 4
  /\ 0 <= fst (fst (in_rq_cur o cr stack req)).
Proof.
  intros Hs. unfold in_rq_cur. rewrite Hs.
  change (UAC2_CS_CONTROL_SAM_FREQ =? UAC2_CS_CONTROL_SAM_FREQ) with true.
  cbn [fst]. unfold min_t_unsigned.
  assert (H : 0 <= u16 (wLength cr) < 2 ^ 16)
    by (apply Z.mod_pos_bound; lia).
  rewrite (u32_small (u16 _)) by (unfold is_u32; lia).
  change (u32 (Z.of_nat sizeof_cntrl_cur_lay3)) with 4. lia.
Qed.

Lemma uninitialised_length n stack : List.length (uninitialised n stack) = n.
Proof.
  unfold uninitialised. rewrite firstn_length_le; [reflexivity|].
  rewrite length_app, repeat_length. lia.
Qed.

(** What GET RANGE answers for the playback clock: the count, the 24 bytes
    the stack held at [dRangeAttrs], and only then the triple. *)
Lemma in_rq_range_reply o len stack req :
  in_rq_range o
    (class_request true UAC2_CS_RANGE UAC2_CS_CONTROL_SAM_FREQ USB_IN_CLK_ID
       len) stack req
  = (min_t_unsigned (u16 len) 38,
     req_set_buf req
       (memcpy (buf req)
          (le16 1 ++ load_at (uninitialised 38 stack) 2 24
           ++ le32 (p_srate o) ++ le32 (p_srate o) ++ le32 0)
          (min_t_unsigned (u16 len) 38)),
     [Ev_pr_debug]).
Proof.
  unfold in_rq_range.
  change (cr_control_selector _) with UAC2_CS_CONTROL_SAM_FREQ.
  change (cr_entity_id _) with USB_IN_CLK_ID.
  change (UAC2_CS_CONTROL_SAM_FREQ =? UAC2_CS_CONTROL_SAM_FREQ) with true.
  change (USB_IN_CLK_ID =? USB_IN_CLK_ID) with true. cbv iota.
  change sizeof_cntrl_range_lay3_2 with 38%nat.
  pose proof (uninitialised_length 38 stack) as Hlen.
  destruct (uninitialised 38 stack) as [|b0 r]; [discriminate|].
  do 37 (destruct r as [|? r]; [discriminate|]).
  destruct r; [|discriminate]. reflexivity.
Qed.

(** So a reply of at most 26 bytes does not depend on the rate at all. *)
Lemma in_rq_range_reply_ignores_rate o1 o2 stack req :
  in_rq_range o1 get_range_in_clk stack req
  = in_rq_range o2 get_range_in_clk stack req.
Proof.
  unfold get_range_in_clk. rewrite !in_rq_range_reply.
  change (min_t_unsigned (u16 14) 38) with 14.
  unfold memcpy. change (Z.to_nat 14) with 14%nat.
  pose proof (uninitialised_length 38 stack) as Hlen.
  destruct (uninitialised 38 stack) as [|b0 r]; [discriminate|].
  do 37 (destruct r as [|? r]; [discriminate|]).
  reflexivity.
Qed.

(** ** Concrete runs *)

Lemma hw_ptr_ring_invariant_witness :
  exists u1 reqs tr1 u2 req2 tr2,
    iso_completions CAPTURE capture_chip capture_completions
    = Some (u1, reqs, tr1)
    /\ 0 <= hw_ptr (chip_prm CAPTURE u1)
       < dma_bytes (chip_prm CAPTURE capture_chip)
    /\ agdev_iso_complete full_speed_env CAPTURE u1 (iso_request 0 5)
       = Some (u2, req2, tr2)
    /\ 0 <= hw_ptr (chip_prm CAPTURE u2)
       < dma_bytes (chip_prm CAPTURE capture_chip)
    /\ (iso_shutting_down (chip_prm CAPTURE u1) (iso_request 0 5) = false ->
        hw_ptr (chip_prm CAPTURE u2)
        = (hw_ptr (chip_prm CAPTURE u1) + actual req2)
          mod dma_bytes (chip_prm CAPTURE capture_chip)
        /\ (exists sub,
              ss (chip_prm CAPTURE u1) = Some sub
              /\ completion_bytes sub u1 (iso_request 0 5)
                 = Some (actual req2)
              /\ (stream sub = CAPTURE -> req2 = iso_request 0 5)
              /\ (stream sub = PLAYBACK ->
                  req2 = req_set_actual
                           (req_set_length (iso_request 0 5) (actual req2))
                           (actual req2)))
        /\ hw_ptr_stores CAPTURE tr2 = [hw_ptr (chip_prm CAPTURE u2)])
    /\ (iso_shutting_down (chip_prm CAPTURE u1) (iso_request 0 5) = true ->
        hw_ptr (chip_prm CAPTURE u2) = hw_ptr (chip_prm CAPTURE u1)
        /\ u2 = u1 /\ req2 = iso_request 0 5 /\ tr2 = [])
    /\ hw_ptr_stores_locked CAPTURE (tr1 ++ tr2).
Proof.
  apply (hw_ptr_ring_invariant CAPTURE capture_chip capture_completions
           full_speed_env (iso_request 0 5)).
  - unfold stream_ready, ring_ok, pacing_typed, is_u32, SSIZE_MAX. simpl.
    repeat split; try lia.
    exists {| stream := CAPTURE |}. split; [reflexivity|discriminate].
  - unfold capture_completions, is_u32. repeat constructor; simpl; lia.
  - unfold is_u32. simpl. lia.
Defined.

(** The same run evaluated: the position goes 0, 6, 6, 2 (= 18 mod 16), 7. *)
Example capture_run_positions :
  option_map (fun r => hw_ptr (c_prm (fst (fst r))))
    (iso_completions CAPTURE capture_chip capture_completions) = Some 2
  /\ option_map (fun r => snd r)
       (agdev_iso_complete full_speed_env CAPTURE capture_chip
          (iso_request 0 6))
     = Some [Ev_spin_lock CAPTURE; Ev_store_hw_ptr CAPTURE 6;
             Ev_spin_unlock CAPTURE; Ev_copy_req_to_ring 0 0 6;
             Ev_usb_ep_queue; Ev_snd_pcm_period_elapsed].
Proof. split; reflexivity. Qed.

(** C2, counterexample. Three ticks after the activation at 44100 Hz the
    accumulator holds 1200, which is not below the interval of 1000. *)
Lemma residue_exceeds_interval :
  exists lens u',
    pacing_ticks 3 (activated_chip 44100) = Some (lens, u')
    /\ p_residue u' = 1200 /\ p_interval u' = 1000
    /\ ~ p_residue u' < p_interval u'.
Proof.
  do 2 eexists. split; [vm_compute; reflexivity|].
  cbn [p_residue p_interval]. repeat split. lia.
Qed.

Lemma activated_residue_bound_witness :
  exists lens u',
    pacing_ticks 3 (activated_chip 44100) = Some (lens, u')
    /\ p_residue u'
       < p_framesize (activated_chip 44100)
         * p_interval (activated_chip 44100).
Proof.
  apply (activated_residue_bound full_speed_env (bound_dev 44100) 2 3).
  - unfold intf_distinct. simpl. repeat split; lia.
  - lia.
Defined.

(** C3, counterexample. The fifth packet of the 44100 Hz stream has 176
    bytes like the four before it, so the first five packets carry 880
    bytes, not 44100 x 4 x 5 / 1000 = 882. *)
Lemma fifth_packet_not_longer :
  option_map fst (pacing_ticks 5 (activated_chip 44100))
  = Some [176; 176; 176; 176; 176]
  /\ nth 4 [176; 176; 176; 176; 176] 0 <> 180
  /\ 1000 * sum_lengths [176; 176; 176; 176; 176] <> 44100 * 4 * 5.
Proof.
  split; [vm_compute; reflexivity|]. split; vm_compute; discriminate.
Qed.

Lemma pacing_44100_every_tenth_witness :
  pacing_state (activated_chip 44100) = (4, 1000, 176, 400, 0)
  /\ exists u',
       pacing_ticks 25 (activated_chip 44100)
       = Some (map len_44100 (seq 0 25), u')
       /\ forall k, (k + 10 <= 25)%nat ->
            1000 * sum_lengths
                     (firstn 10 (skipn k (map len_44100 (seq 0 25))))
            = 44100 * 4 * 10.
Proof.
  apply (pacing_44100_every_tenth full_speed_env (bound_dev 44100) 2 25).
  - unfold intf_distinct. simpl. repeat split; lia.
  - left. reflexivity.
  - reflexivity.
  - simpl. lia.
Defined.

(** The first twenty packets of that stream. *)
Example first_packets_44100 :
  option_map fst (pacing_ticks 20 (activated_chip 44100))
  = Some [176; 176; 176; 176; 176; 176; 176; 176; 176; 180;
          176; 176; 176; 176; 176; 176; 176; 176; 176; 180].
Proof. vm_compute. reflexivity. Qed.

(** At 48000 Hz every packet has 192 bytes. *)
Example first_packets_48000 :
  pacing_state (activated_chip 48000) = (4, 1000, 192, 0, 0)
  /\ option_map fst (pacing_ticks 6 (activated_chip 48000))
     = Some [192; 192; 192; 192; 192; 192].
Proof. split; vm_compute; reflexivity. Qed.

Lemma pacing_residue_below_frame_witness :
  exists lens u',
    pacing_ticks 12 (activated_chip 44100) = Some (lens, u')
    /\ List.length lens = 12%nat
    /\ p_residue u'
       < p_framesize (activated_chip 44100)
         * p_interval (activated_chip 44100)
    /\ Forall (fun len =>
                 len = p_pktsize (activated_chip 44100)
                 \/ len = u32 (p_pktsize (activated_chip 44100)
                               + p_framesize (activated_chip 44100))) lens
    /\ (p_pktsize (activated_chip 44100)
        + p_framesize (activated_chip 44100) < 2 ^ 32 ->
        Forall (fun len =>
                  len = p_pktsize (activated_chip 44100)
                  \/ len = p_pktsize (activated_chip 44100)
                           + p_framesize (activated_chip 44100)) lens).
Proof.
  apply (pacing_residue_below_frame 12 (activated_chip 44100)).
  - vm_compute. repeat split; try reflexivity; discriminate.
  - vm_compute. discriminate.
  - vm_compute. reflexivity.
  - reflexivity.
Defined.

Lemma set_alt_pacing_parameters_witness :
  let u' := activated_chip 44100 in
  let f := alt_entry as_in_alt_setting 2 in
  let maxp := max_psize (p_prm (uac2 (bound_dev 44100))) in
  let rate := u32 (p_srate (opts (bound_dev 44100)) * p_framesize u') in
  p_framesize u' = bSubslotSize f * channels f
  /\ p_interval u' = 1000
  /\ p_pktsize u' = Z.min (rate / p_interval u') maxp
  /\ (p_pktsize u' = maxp -> p_pktsize_residue u' = 0)
  /\ (p_pktsize u' <> maxp ->
      p_pktsize_residue u' = rate mod p_interval u')
  /\ p_residue u' = 0
  /\ (0 <= p_srate (opts (bound_dev 44100)) * p_framesize u' < 2 ^ 32 ->
      rate = p_srate (opts (bound_dev 44100)) * p_framesize u').
Proof.
  apply (set_alt_pacing_parameters full_speed_env (bound_dev 44100) 2).
  - unfold intf_distinct. simpl. repeat split; lia.
  - lia.
  - vm_compute. split; [discriminate|reflexivity].
Defined.

(** A rate at which the base packet size reaches the limit of 1023 bytes:
    the residue increment is switched off. *)
Example pacing_at_packet_limit :
  pacing_state (activated_chip 300000) = (4, 1000, 1023, 0, 0).
Proof. vm_compute. reflexivity. Qed.

Lemma afunc_set_alt_invalid_witness :
  afunc_set_alt full_speed_env (bound_dev 48000) 0 1
  = (- EINVAL, bound_dev 48000, [Ev_dev_err])
  /\ afunc_set_alt full_speed_env (bound_dev 48000) 0 0
     = (0, bound_dev 48000, [])
  /\ fst (fst (afunc_set_alt full_speed_env (bound_dev 48000) 7 1))
     = - EINVAL
  /\ fst (fst (afunc_set_alt full_speed_env (bound_dev 48000) 2 7))
     = - EINVAL.
Proof.
  split; [|split; [|split]].
  - apply (proj1 (afunc_set_alt_invalid full_speed_env (bound_dev 48000) 0 1));
      [reflexivity|lia].
  - apply (proj1 (proj2
      (afunc_set_alt_invalid full_speed_env (bound_dev 48000) 0 0)));
      reflexivity.
  - apply (proj2 (proj2
      (afunc_set_alt_invalid full_speed_env (bound_dev 48000) 7 1))).
    left. simpl. repeat split; lia.
  - apply (proj2 (proj2
      (afunc_set_alt_invalid full_speed_env (bound_dev 48000) 2 7))).
    right. lia.
Defined.

Lemma set_alt_reactivation_witness :
  let a := bound_dev 44100 in
  let a1 := snd (fst (afunc_set_alt full_speed_env a (as_in_intf a) 4)) in
  let a2 := snd (fst (afunc_set_alt high_speed_env a1 (as_in_intf a1) 0)) in
  pacing_state (set_alt_chip high_speed_env a2 (as_in_intf a2) 4)
  = pacing_state (set_alt_chip full_speed_env a (as_in_intf a) 4).
Proof.
  apply (set_alt_reactivation full_speed_env high_speed_env high_speed_env
           full_speed_env (bound_dev 44100) (bound_dev 44100) 4).
  - unfold intf_distinct. simpl. repeat split; lia.
  - unfold intf_distinct. simpl. repeat split; lia.
  - lia.
  - reflexivity.
  - reflexivity.
Defined.

(** C5. GET RANGE on the sample-frequency control of the playback clock,
    [wLength = 14], rate 48000: the handler answers 14 bytes, the count 1
    followed by the twelve bytes the stack held in [dRangeAttrs], where the
    RANGE block has the triple (48000, 48000, 0). *)
Theorem in_rq_range_reply_misplaced :
  let r := in_rq_range (opts (bound_dev 48000)) get_range_in_clk stale_stack
             (ep0_request 14) in
  fst (fst r) = 14
  /\ buf (snd (fst r))
     = [1; 0; 170; 170; 170; 170; 170; 170; 170; 170; 170; 170; 170; 170]
  /\ range_block 48000 = [1; 0; 128; 187; 0; 0; 128; 187; 0; 0; 0; 0; 0; 0]
  /\ buf (snd (fst r)) <> firstn 14 (range_block 48000).
Proof.
  split; [reflexivity|]. split; [reflexivity|]. split; [reflexivity|].
  vm_compute. discriminate.
Qed.

(** C6, counterexample. The callback installed by SET CUR for the playback
    clock commits the rate 48000 with no lock held. *)
Lemma set_cur_commit_without_lock :
  let req1 := snd (fst (out_rq_cur (opts (bound_dev 44100)) set_cur_in_clk
                          (ep0_request 4))) in
  let r := run_complete (opts (bound_dev 44100))
             (req_set_buf req1 (le32 48000)) in
  p_srate (fst r) = 48000
  /\ snd r = [Ev_pr_debug; Ev_store_srate PLAYBACK 48000]
  /\ srate_stores_locked (snd r) = false.
Proof. repeat split. Qed.

Lemma set_cur_sample_rate_witness :
  let o := opts (bound_dev 44100) in
  let value := fst (fst (out_rq_cur o set_cur_in_clk (ep0_request 4))) in
  let req1 := snd (fst (out_rq_cur o set_cur_in_clk (ep0_request 4))) in
  let delivered := req_set_buf req1 (le32 48000 ++ []) in
  let o' := fst (run_complete o delivered) in
  let tr := snd (run_complete o delivered) in
  value = u16 (wLength set_cur_in_clk)
  /\ (cr_entity_id set_cur_in_clk = USB_IN_CLK_ID ->
      (48000 = 44100 \/ 48000 = 48000 -> o' = opts_set_p_srate o 48000)
      /\ (48000 <> 44100 -> 48000 <> 48000 -> o' = o /\ In Ev_pr_err tr))
  /\ (cr_entity_id set_cur_in_clk = USB_OUT_CLK_ID ->
      (48000 = 44100 \/ 48000 = 48000 -> o' = opts_set_c_srate o 48000)
      /\ (48000 <> 44100 -> 48000 <> 48000 -> o' = o /\ In Ev_pr_err tr)).
Proof.
  apply (set_cur_sample_rate (opts (bound_dev 44100)) set_cur_in_clk
           (ep0_request 4) 48000 []).
  - reflexivity.
  - unfold is_u32. lia.
Defined.

(** An unsupported rate is dropped: the configuration stays, an error is
    logged. *)
Example set_cur_unsupported_rate :
  let req1 := snd (fst (out_rq_cur (opts (bound_dev 44100)) set_cur_in_clk
                          (ep0_request 4))) in
  run_complete (opts (bound_dev 44100)) (req_set_buf req1 (le32 96000))
  = (opts (bound_dev 44100), [Ev_pr_debug; Ev_pr_err]).
Proof. reflexivity. Qed.

(** C7. GET CUR on the sample-frequency control of entity 0, which is no
    clock of the function: the request processor answers 4 bytes, the ones
    the stack held, and [afunc_setup] queues them as a success; GET RANGE
    rejects the same entity with [-EOPNOTSUPP]. *)
Theorem get_cur_unknown_entity_accepted :
  let r := setup_rq_inf (bound_dev 48000) get_cur_entity_0 stale_stack
             (ep0_request 4) in
  fst (fst r) = 4 /\ fst (fst r) <> - EOPNOTSUPP
  /\ buf (snd (fst r)) = [170; 170; 170; 170]
  /\ fst (fst (afunc_setup (bound_dev 48000) get_cur_entity_0 stale_stack 0
                 (ep0_request 4))) = 0
  /\ fst (fst (setup_rq_inf (bound_dev 48000) get_range_entity_0 stale_stack
                 (ep0_request 14))) = - EOPNOTSUPP.
Proof.
  split; [reflexivity|]. split; [vm_compute; discriminate|].
  repeat split.
Qed.

(** The playback stream end to end: activation, buffer geometry, start and
    ten completions.  The requests leave with 176 bytes, the tenth with 180,
    and the position is 1764 mod 1024. *)
Example playback_run :
  option_map
    (fun r => (map actual (snd (fst r)), hw_ptr (p_prm (fst (fst r)))))
    (iso_completions PLAYBACK playback_chip
       (repeat (full_speed_env, iso_request 0 0) 10))
  = Some ([176; 176; 176; 176; 176; 176; 176; 176; 176; 180], 740)
  /\ 1764 mod 1024 = 740.
Proof. split; vm_compute; reflexivity. Qed.

(** A store to the position outside the lock is what the lock discipline
    rules out. *)
Example unlocked_store_rejected :
  hw_ptr_lock_run CAPTURE false [Ev_store_hw_ptr CAPTURE 3] = None
  /\ hw_ptr_lock_run CAPTURE false
       [Ev_spin_lock PLAYBACK; Ev_store_hw_ptr CAPTURE 3;
        Ev_spin_unlock PLAYBACK] = None.
Proof. split; reflexivity. Qed.

(** * Further properties *)

(** ** [num_channels] *)

Lemma sum_lengths_app l1 l2 :
  sum_lengths (l1 ++ l2) = sum_lengths l1 + sum_lengths l2.
Proof.
  unfold sum_lengths. induction l1 as [|x l1 IH]; cbn [app fold_right]; lia.
Qed.

Lemma bit_count_succ n x :
  bit_count (S n) x = Z.b2z (Z.testbit x 0) + bit_count n (Z.div2 x).
Proof.
  unfold bit_count. cbn [seq map sum_lengths fold_right].
  fold (sum_lengths (map (fun i => Z.b2z (Z.testbit x (Z.of_nat i)))
                       (seq 1 n))).
  f_equal. rewrite <- seq_shift, map_map. f_equal. apply map_ext.
  intros i. rewrite Nat2Z.inj_succ, Z.div2_spec, Z.shiftr_spec by lia.
  reflexivity.
Qed.

Lemma bit_count_0 n : bit_count n 0 = 0.
Proof.
  induction n as [|n IH]; [reflexivity|].
  rewrite bit_count_succ. cbn. exact IH.
Qed.

Lemma num_channels_pos_count n : forall p,
  Zpos p < 2 ^ Z.of_nat n -> num_channels_pos p = bit_count n (Zpos p).
Proof.
  induction n as [|n IH]; intros p Hp.
  - cbn in Hp. lia.
  - rewrite bit_count_succ. rewrite Nat2Z.inj_succ, Z.pow_succ_r in Hp by lia.
    destruct p as [q|q|].
    + cbn [num_channels_pos]. rewrite IH by lia. reflexivity.
    + cbn [num_channels_pos]. rewrite IH by lia. reflexivity.
    + cbn [num_channels_pos]. cbn [Z.div2 Z.testbit Z.b2z].
      rewrite bit_count_0. reflexivity.
Qed.

(** X1. [num_channels] counts the set bits among the low 32 bits of the
    mask, whatever [int] it is given. *)
Theorem num_channels_counts_bits (chanmask : Z) :
  num_channels chanmask = bit_count 32 chanmask
  /\ 0 <= num_channels chanmask <= 32.
Proof.
  assert (E : num_channels chanmask = bit_count 32 (u32 chanmask)).
  { unfold num_channels. pose proof (u32_range chanmask) as Hr.
    unfold is_u32 in Hr.
    destruct (u32 chanmask) as [|p|p] eqn:Hu; [reflexivity| |lia].
    apply (num_channels_pos_count 32). exact (proj2 Hr). }
  assert (E2 : bit_count 32 (u32 chanmask) = bit_count 32 chanmask).
  { unfold bit_count. f_equal. apply map_ext_in. intros i Hi.
    apply in_seq in Hi. unfold u32.
    rewrite Z.mod_pow2_bits_low by lia. reflexivity. }
  split; [congruence|].
  rewrite E, E2. unfold bit_count.
  assert (B : forall l : list nat,
    0 <= sum_lengths (map (fun i => Z.b2z (Z.testbit chanmask (Z.of_nat i))) l)
      <= Z.of_nat (List.length l)).
  { induction l as [|i l IH]; [cbn; lia|].
    cbn [map sum_lengths fold_right List.length].
    fold (sum_lengths (map (fun i => Z.b2z (Z.testbit chanmask (Z.of_nat i))) l)).
    destruct (Z.testbit chanmask (Z.of_nat i)); cbn [Z.b2z]; lia. }
  specialize (B (seq 0 32)). rewrite length_seq in B. lia.
Qed.

(** ** More on the completion path *)

Lemma in_iso_copy_elapsed s h p a :
  ~ In Ev_snd_pcm_period_elapsed (iso_copy s h p a).
Proof.
  unfold iso_copy. destruct s; destruct (p <? a); cbn;
    intuition congruence.
Qed.

Lemma in_iso_exit_elapsed e upd :
  In Ev_snd_pcm_period_elapsed (iso_exit e upd) <-> upd = true.
Proof.
  unfold iso_exit. destruct (ep_queue_ok e); destruct upd; cbn;
    intuition congruence.
Qed.

(** X2. A completion that passes the shutdown guard reports an elapsed
    period to ALSA exactly when the bytes it accounts for ([req->actual] of
    the completed request for capture, the packet length the pacing
    arithmetic assigns for playback) carry the position past the end of the
    current period, the [unsigned] sum not overflowing. *)
Theorem period_elapsed_on_boundary e d u req :
  stream_ready d u -> is_u32 (actual req) ->
  iso_shutting_down (chip_prm d u) req = false ->
  exists sub bytes u' req' tr,
    ss (chip_prm d u) = Some sub
    /\ completion_bytes sub u req = Some bytes
    /\ agdev_iso_complete e d u req = Some (u', req', tr)
    /\ actual req' = bytes
    /\ (hw_ptr (chip_prm d u) mod period_size (chip_prm d u) + bytes
        < 2 ^ 32 ->
        (In Ev_snd_pcm_period_elapsed tr
         <-> period_size (chip_prm d u)
             <= hw_ptr (chip_prm d u) mod period_size (chip_prm d u)
                + bytes)).
Proof.
  intros Hr Ha Hd.
  destruct (agdev_iso_complete_handled e d u req Hr Ha Hd)
    as (sub & u1 & req1 & Hss & _ & _ & _ & _ & Hcb & Ha1 & _ & ->).
  exists sub, (actual req1). do 3 eexists.
  split; [exact Hss|]. split; [exact Hcb|].
  split; [reflexivity|]. split; [reflexivity|]. intros Hfit.
  destruct Hr as ((_ & Hper & Hptr) & _).
  pose proof (Z.mod_pos_bound (hw_ptr (chip_prm d u))
                (period_size (chip_prm d u)) Hper) as Hm.
  unfold is_u32 in Ha1.
  rewrite (u32_small (_ mod _)) by (unfold is_u32; lia).
  rewrite (u32_small (_ + _)) by (unfold is_u32; lia).
  rewrite !in_app_iff, in_iso_exit_elapsed, Z.leb_le.
  split; [|tauto].
  intros [H|[H|[H|H]]]; [| |exfalso; eapply in_iso_copy_elapsed; eauto|exact H].
  - destruct (status req =? 0); cbn in H; intuition congruence.
  - cbn in H. intuition congruence.
Qed.

Lemma copied_bytes_app t1 t2 :
  copied_bytes (t1 ++ t2) = copied_bytes t1 + copied_bytes t2.
Proof. unfold copied_bytes. now rewrite map_app, sum_lengths_app. Qed.

Lemma copy_events_app t1 t2 :
  copy_events (t1 ++ t2) = copy_events t1 ++ copy_events t2.
Proof. unfold copy_events. apply filter_app. Qed.

(** With a ring below 4 GiB the handler's copy is the transfer at the old
    position: the truncations to [unsigned] change nothing. *)
Lemma iso_copy_transfer s hw dma act :
  0 <= hw < dma -> dma < 2 ^ 32 -> is_u32 act ->
  iso_copy s (u32 hw) (u32 (dma - u32 hw)) act = ring_transfer s hw dma act.
Proof.
  unfold is_u32. intros Hh Hd Ha.
  rewrite (u32_small hw) by (unfold is_u32; lia).
  rewrite (u32_small (dma - hw)) by (unfold is_u32; lia).
  unfold iso_copy, ring_transfer.
  destruct s; destruct (Z.ltb_spec (dma - hw) act);
    try rewrite (u32_small (act - (dma - hw))) by (unfold is_u32; lia);
    reflexivity.
Qed.

Lemma ring_transfer_in_ring s hw dma act :
  0 <= hw < dma -> 0 <= act <= dma ->
  Forall (copy_in_bounds dma act) (ring_transfer s hw dma act)
  /\ copied_bytes (ring_transfer s hw dma act) = act
  /\ copy_events (ring_transfer s hw dma act) = ring_transfer s hw dma act.
Proof.
  intros Hh Ha. unfold ring_transfer.
  destruct s; destruct (Z.ltb_spec (dma - hw) act);
    (split; [repeat constructor; cbn; lia
            |split; [unfold copied_bytes, sum_lengths; cbn; lia
                    |reflexivity]]).
Qed.

(** X3. With a ring below 4 GiB, the copies of a completion that passes
    the shutdown guard are exactly the transfer of the bytes it accounts for
    ([req->actual] of the completed request for capture, the pacing length
    for playback) between the start of the request buffer and the ring at
    the position before the advance: in one piece, or the piece up to the
    end of the ring followed by the rest at the start of the ring.  When
    these bytes are no more than the ring holds, every copy stays inside
    the ring and inside the request buffer, and together they move exactly
    that many bytes. *)
Theorem iso_copy_within_ring e d u req :
  stream_ready d u -> is_u32 (actual req) ->
  iso_shutting_down (chip_prm d u) req = false ->
  exists sub bytes u' req' tr,
    ss (chip_prm d u) = Some sub
    /\ completion_bytes sub u req = Some bytes
    /\ agdev_iso_complete e d u req = Some (u', req', tr)
    /\ (dma_bytes (chip_prm d u) < 2 ^ 32 ->
        copy_events tr
        = ring_transfer (stream sub) (hw_ptr (chip_prm d u))
            (dma_bytes (chip_prm d u)) bytes
        /\ (bytes <= dma_bytes (chip_prm d u) ->
            Forall (copy_in_bounds (dma_bytes (chip_prm d u)) bytes) tr
            /\ copied_bytes tr = bytes)).
Proof.
  intros Hr Ha Hd.
  destruct (agdev_iso_complete_handled e d u req Hr Ha Hd)
    as (sub & u1 & req1 & Hss & _ & _ & _ & _ & Hcb & Ha1 & _ & ->).
  exists sub, (actual req1). do 3 eexists.
  split; [exact Hss|]. split; [exact Hcb|].
  split; [reflexivity|]. intros Hsmall.
  destruct Hr as ((_ & _ & Hptr) & _).
  rewrite (iso_copy_transfer (stream sub) _ _ _ Hptr Hsmall Ha1).
  assert (Hpre : forall t : list event,
            copy_events ((if status req =? 0 then [] else [Ev_pr_debug])
                         ++ [Ev_spin_lock d;
                             Ev_store_hw_ptr d
                               ((hw_ptr (chip_prm d u) + actual req1)
                                mod dma_bytes (chip_prm d u));
                             Ev_spin_unlock d] ++ t)
            = copy_events t).
  { intros t. destruct (status req =? 0); reflexivity. }
  assert (Hexit : forall upd, copy_events (iso_exit e upd) = []).
  { intros upd. unfold iso_exit.
    destruct (ep_queue_ok e); destruct upd; reflexivity. }
  split.
  - rewrite Hpre, copy_events_app, Hexit, app_nil_r.
    unfold ring_transfer.
    destruct (stream sub); destruct (_ <? _); reflexivity.
  - intros Hle. unfold is_u32 in Ha1.
    destruct (ring_transfer_in_ring (stream sub) (hw_ptr (chip_prm d u))
                (dma_bytes (chip_prm d u)) (actual req1) Hptr ltac:(lia))
      as (Hin & Hsum & _).
    split.
    + repeat (apply Forall_app; split); try exact Hin.
      * destruct (status req =? 0); repeat constructor.
      * repeat constructor.
      * unfold iso_exit. destruct (ep_queue_ok e);
          destruct (_ <=? _); repeat constructor.
    + rewrite !copied_bytes_app, Hsum.
      unfold iso_exit.
      destruct (status req =? 0); destruct (ep_queue_ok e);
        destruct (_ <=? _); unfold copied_bytes, sum_lengths; cbn; lia.
Qed.

Lemma queue_count_app t1 t2 :
  queue_count (t1 ++ t2) = (queue_count t1 + queue_count t2)%nat.
Proof. unfold queue_count. now rewrite filter_app, length_app. Qed.

(** X4. Whenever the handler returns, it has put the request back on the
    endpoint exactly once, except for a request dropped by the shutdown
    guard, for which it does nothing at all. *)
Theorem agdev_iso_complete_requeues e d u req u' req' tr :
  agdev_iso_complete e d u req = Some (u', req', tr) ->
  if iso_shutting_down (chip_prm d u) req
  then tr = [] /\ u' = u /\ req' = req
  else queue_count tr = 1%nat.
Proof.
  unfold agdev_iso_complete.
  destruct (iso_shutting_down (chip_prm d u) req).
  - intros H. injection H as <- <- <-. auto.
  - assert (Hexit : forall upd, queue_count (iso_exit e upd) = 1%nat).
    { intros upd. unfold iso_exit.
      destruct (ep_queue_ok e); destruct upd; reflexivity. }
    assert (Hcopy : forall s h p a, queue_count (iso_copy s h p a) = 0%nat).
    { intros s h p a. unfold iso_copy.
      destruct s; destruct (p <? a); reflexivity. }
    assert (Htr0 : queue_count (if status req =? 0 then [] else [Ev_pr_debug])
                   = 0%nat) by (destruct (status req =? 0); reflexivity).
    destruct (ss (chip_prm d u)) as [sub|].
    + destruct (match stream sub with
                | PLAYBACK => _ | CAPTURE => _ end) as [[u1 req1]|];
        [|discriminate].
      destruct (_ || _); [discriminate|].
      intros H. injection H as <- <- <-.
      repeat match goal with
      | |- context [?a :: ?b :: ?c :: (iso_copy ?s ?h ?p ?q ++ ?r)] =>
          change (a :: b :: c :: (iso_copy s h p q ++ r))
            with ([a; b; c] ++ iso_copy s h p q ++ r)
      end.
      rewrite !queue_count_app, Htr0, Hexit, Hcopy. reflexivity.
    + intros H. injection H as <- <- <-.
      rewrite queue_count_app, Htr0, Hexit. reflexivity.
Qed.

(** Without a bound substream a completion leaves chip and request alone,
    whatever the geometry. *)
Lemma agdev_iso_complete_unbound e d u req :
  ss (chip_prm d u) = None ->
  exists tr,
    agdev_iso_complete e d u req = Some (u, req, tr)
    /\ Forall (fun ev => ev = Ev_usb_ep_queue \/ ev = Ev_dev_err
                         \/ ev = Ev_pr_debug) tr.
Proof.
  intros Hss. unfold agdev_iso_complete. rewrite Hss.
  destruct (iso_shutting_down (chip_prm d u) req).
  - exists []. split; [reflexivity|constructor].
  - eexists. split; [reflexivity|].
    unfold iso_exit.
    destruct (status req =? 0); destruct (ep_queue_ok e); cbn;
      repeat apply Forall_cons; try apply Forall_nil; auto.
Qed.

Lemma iso_completions_unbound d cs : forall u,
  ss (chip_prm d u) = None ->
  exists tr,
    iso_completions d u cs = Some (u, map snd cs, tr)
    /\ Forall (fun ev => ev = Ev_usb_ep_queue \/ ev = Ev_dev_err
                         \/ ev = Ev_pr_debug) tr.
Proof.
  induction cs as [|[e req] cs IH]; intros u Hss.
  - exists []. split; [reflexivity|constructor].
  - destruct (agdev_iso_complete_unbound e d u req Hss) as (tr1 & H1 & F1).
    destruct (IH u Hss) as (tr2 & H2 & F2).
    exists (tr1 ++ tr2). cbn [iso_completions map snd]. rewrite H1, H2.
    split; [reflexivity|]. apply Forall_app. auto.
Qed.

(** X5. After a stop or suspend trigger the stream is unbound with the
    position at 0, and any sequence of completions for that direction runs
    to its end without touching the chip or the requests: it stores no
    position, copies nothing and never divides, even once [hw_free] has
    zeroed the geometry; it only requeues and logs. *)
Theorem completions_after_stop u sub cmd cs :
  cmd = TRIGGER_STOP \/ cmd = TRIGGER_SUSPEND ->
  let d := stream sub in
  let u0 := snd (fst (uac2_pcm_trigger u sub cmd)) in
  let u1 := snd (uac2_pcm_hw_free u0 sub 0) in
  fst (fst (uac2_pcm_trigger u sub cmd)) = 0
  /\ hw_ptr (chip_prm d u0) = 0
  /\ exists tr0 tr1,
       iso_completions d u0 cs = Some (u0, map snd cs, tr0)
       /\ iso_completions d u1 cs = Some (u1, map snd cs, tr1)
       /\ Forall (fun ev => ev = Ev_usb_ep_queue \/ ev = Ev_dev_err
                            \/ ev = Ev_pr_debug) (tr0 ++ tr1).
Proof.
  intros Hcmd d u0 u1.
  assert (H0 : fst (fst (uac2_pcm_trigger u sub cmd)) = 0
               /\ hw_ptr (chip_prm d u0) = 0 /\ ss (chip_prm d u0) = None).
  { subst u0 d. unfold uac2_pcm_trigger.
    destruct Hcmd as [-> | ->]; cbn [fst snd];
      rewrite chip_prm_set_prm; auto. }
  destruct H0 as (Hret & Hptr & Hss).
  assert (Hss1 : ss (chip_prm d u1) = None).
  { subst u1. unfold uac2_pcm_hw_free. cbn [snd]. fold d.
    rewrite chip_prm_set_prm. exact Hss. }
  destruct (iso_completions_unbound d cs u0 Hss) as (tr0 & E0 & F0).
  destruct (iso_completions_unbound d cs u1 Hss1) as (tr1 & E1 & F1).
  split; [exact Hret|]. split; [exact Hptr|].
  exists tr0, tr1. split; [exact E0|]. split; [exact E1|].
  apply Forall_app. auto.
Qed.

Lemma handled_bytes_cons r rs :
  handled_bytes (r :: rs)
  = (if status r =? - ESHUTDOWN then 0 else actual r) + handled_bytes rs.
Proof. reflexivity. Qed.

(** The pacing arithmetic reads and writes the pacing state only. *)
Lemma pacing_tick_state_eq u v :
  pacing_state u = pacing_state v ->
  match pacing_tick u, pacing_tick v with
  | Some (l1, u1), Some (l2, v1) =>
      l1 = l2 /\ pacing_state u1 = pacing_state v1
  | None, None => True
  | _, _ => False
  end.
Proof.
  unfold pacing_state. intros H. injection H as HF HI HP HR Hr.
  unfold pacing_tick. rewrite HF, HI, HP, HR, Hr.
  destruct (p_interval v =? 0); [exact I|].
  destruct (_ <=? _); (split; [reflexivity|]); unfold pacing_state; cbn;
    rewrite HF, HI, HP, HR; reflexivity.
Qed.

Lemma pacing_ticks_state_eq n : forall u v lens u',
  pacing_state u = pacing_state v ->
  pacing_ticks n u = Some (lens, u') ->
  exists v', pacing_ticks n v = Some (lens, v')
             /\ pacing_state u' = pacing_state v'.
Proof.
  induction n as [|n IH]; intros u v lens u' Hs Hrun.
  - cbn in *. injection Hrun as <- <-. exists v. auto.
  - cbn [pacing_ticks] in *.
    pose proof (pacing_tick_state_eq u v Hs) as Ht.
    destruct (pacing_tick u) as [[l1 u1]|]; [|discriminate].
    destruct (pacing_tick v) as [[l2 v1]|]; [|contradiction].
    destruct Ht as (<- & Hs1).
    destruct (pacing_ticks n u1) as [[ls u2]|] eqn:E; [|discriminate].
    injection Hrun as <- <-.
    destruct (IH u1 v1 ls u2 Hs1 E) as (v2 & -> & Hs2).
    exists v2. auto.
Qed.

(** One completion on an enabled endpoint with a ready stream bound to
    [sub]: the stream stays as it is for the next one, and the request and
    the position change as the substream's direction says. *)
Lemma agdev_iso_complete_next e d u sub req :
  stream_ready d u -> ss (chip_prm d u) = Some sub ->
  ep_enabled (chip_prm d u) = true -> is_u32 (actual req) ->
  exists u1 req1 tr1,
    agdev_iso_complete e d u req = Some (u1, req1, tr1)
    /\ stream_ready d u1 /\ ss (chip_prm d u1) = Some sub
    /\ ep_enabled (chip_prm d u1) = true
    /\ dma_bytes (chip_prm d u1) = dma_bytes (chip_prm d u)
    /\ status req1 = status req
    /\ (status req = - ESHUTDOWN -> u1 = u /\ req1 = req)
    /\ (status req <> - ESHUTDOWN ->
        hw_ptr (chip_prm d u1)
        = (hw_ptr (chip_prm d u) + actual req1)
          mod dma_bytes (chip_prm d u)
        /\ (stream sub = CAPTURE ->
            req1 = req /\ pacing_state u1 = pacing_state u)
        /\ (stream sub = PLAYBACK ->
            exists ut, pacing_tick u = Some (actual req1, ut)
                       /\ pacing_state u1 = pacing_state ut)).
Proof.
  intros Hu Hss Hen Hreq.
  destruct (agdev_iso_complete_step e d u req Hu Hreq)
    as (u1 & req1 & tr1 & Hrun & Hu1 & Hdma & _ & _ & _).
  exists u1, req1, tr1. split; [exact Hrun|]. split; [exact Hu1|].
  assert (Hsd : iso_shutting_down (chip_prm d u) req
                = (status req =? - ESHUTDOWN))
    by (unfold iso_shutting_down; rewrite Hen; reflexivity).
  destruct (Z.eqb_spec (status req) (- ESHUTDOWN)) as [Hst|Hst].
  - unfold agdev_iso_complete in Hrun. rewrite Hsd in Hrun.
    injection Hrun as <- <- _.
    repeat split; auto; contradiction.
  - destruct (agdev_iso_complete_handled e d u req Hu Hreq Hsd)
      as (sub' & u2 & req2 & Hss' & _ & _ & Hcap & Hpb & _ & _ & Hst2 & Heq).
    rewrite Hss in Hss'. injection Hss' as <-.
    rewrite Heq in Hrun. injection Hrun as <- <- _.
    rewrite !chip_prm_set_prm, chip_set_prm_pacing.
    cbn [ss ep_enabled dma_bytes hw_ptr prm_set_hw_ptr].
    split; [exact Hss|]. split; [exact Hen|]. split; [reflexivity|].
    split; [exact Hst2|]. split; [contradiction|]. intros _.
    split; [reflexivity|]. split.
    + intros Hs. destruct (Hcap Hs) as (-> & ->). auto.
    + intros Hs. destruct (Hpb Hs) as (Ht & _). exists u2. auto.
Qed.

(** X6. On an enabled endpoint with a ready stream, a sequence of
    completions moves the position, modulo the ring size, by the bytes of
    the requests not given back with [-ESHUTDOWN].  For a capture substream
    the requests are returned as they came and the bytes are the sum of
    their [req->actual].  For a playback substream the bytes are the sum of
    the packet lengths of as many pacing ticks as requests were handled;
    these lengths are what the handled requests carry afterwards, and the
    pacing state is the one those ticks leave. *)
Theorem hw_ptr_after_completions d sub cs : forall u,
  stream_ready d u -> ss (chip_prm d u) = Some sub ->
  ep_enabled (chip_prm d u) = true ->
  Forall (fun c => is_u32 (actual (snd c))) cs ->
  exists u' reqs tr,
    iso_completions d u cs = Some (u', reqs, tr)
    /\ (stream sub = CAPTURE ->
        reqs = map snd cs
        /\ hw_ptr (chip_prm d u')
           = (hw_ptr (chip_prm d u) + handled_bytes (map snd cs))
             mod dma_bytes (chip_prm d u))
    /\ (stream sub = PLAYBACK ->
        exists lens ut,
          pacing_ticks (List.length (handled (map snd cs))) u
          = Some (lens, ut)
          /\ map actual (handled reqs) = lens
          /\ pacing_state u' = pacing_state ut
          /\ hw_ptr (chip_prm d u')
             = (hw_ptr (chip_prm d u) + sum_lengths lens)
               mod dma_bytes (chip_prm d u)).
Proof.
  induction cs as [|[e req] cs IH]; intros u Hu Hss Hen Hcs.
  - exists u, [], []. split; [reflexivity|].
    destruct Hu as ((Hdma & _ & Hptr) & _).
    split.
    + intros _. split; [reflexivity|].
      unfold handled_bytes, sum_lengths. cbn.
      rewrite Z.add_0_r, Z.mod_small; auto.
    + intros _. exists [], u. cbn.
      rewrite Z.add_0_r, Z.mod_small; auto.
  - inversion Hcs as [|c cs' Hreq Hrest]; subst. cbn [snd] in Hreq.
    destruct (agdev_iso_complete_next e d u sub req Hu Hss Hen Hreq)
      as (u1 & req1 & tr1 & Hrun & Hu1 & Hss1 & Hen1 & Hdma & Hst
          & Hdropped & Hhandled).
    destruct (IH u1 Hu1 Hss1 Hen1 Hrest)
      as (u2 & reqs & tr2 & Hrun2 & Hcap2 & Hpb2).
    exists u2, (req1 :: reqs), (tr1 ++ tr2).
    cbn [iso_completions]. rewrite Hrun, Hrun2. split; [reflexivity|].
    assert (Hpos : 0 < dma_bytes (chip_prm d u))
      by (destruct Hu as ((? & _) & _); lia).
    cbn [map snd]. unfold handled. cbn [filter]. fold (handled (map snd cs)).
    fold (handled reqs). rewrite Hst, handled_bytes_cons.
    destruct (Z.eqb_spec (status req) (- ESHUTDOWN)) as [Hs|Hs]; cbn [negb].
    + destruct (Hdropped Hs) as (-> & ->). split.
      * intros Hc. destruct (Hcap2 Hc) as (-> & ->). auto.
      * intros Hp. exact (Hpb2 Hp).
    + destruct (Hhandled Hs) as (Hadv & Hc1 & Hp1). split.
      * intros Hc. destruct (Hcap2 Hc) as (-> & ->).
        destruct (Hc1 Hc) as (-> & _). split; [reflexivity|].
        rewrite Hdma, Hadv, Z.add_mod_idemp_l by lia. f_equal. lia.
      * intros Hp. destruct (Hpb2 Hp) as (lens & ut & Ht & Hm & Hps & Hh).
        destruct (Hp1 Hp) as (ut0 & Ht0 & Hps0).
        destruct (pacing_ticks_state_eq _ u1 ut0 lens ut Hps0 Ht)
          as (ut' & Ht' & Hps').
        exists (actual req1 :: lens), ut'.
        cbn [pacing_ticks List.length map]. rewrite Ht0, Ht'.
        split; [reflexivity|]. split; [rewrite Hm; reflexivity|].
        split; [congruence|].
        rewrite Hh, Hdma, Hadv, Z.add_mod_idemp_l by lia.
        unfold sum_lengths. cbn [fold_right]. f_equal. lia.
Qed.

(** X7. A completion for one direction never changes the parameters of the
    other direction, and unless the bound substream is a playback one it
    changes neither the pacing state nor the request. *)
Theorem agdev_iso_complete_other_direction e d u req u' req' tr :
  agdev_iso_complete e d u req = Some (u', req', tr) ->
  chip_prm (other_dir d) u' = chip_prm (other_dir d) u
  /\ (ss (chip_prm d u) <> Some {| stream := PLAYBACK |} ->
      pacing_state u' = pacing_state u /\ req' = req).
Proof.
  unfold agdev_iso_complete.
  destruct (iso_shutting_down (chip_prm d u) req).
  { intros H. injection H as <- <- _. auto. }
  destruct (ss (chip_prm d u)) as [[[|]]|].
  - destruct (pacing_tick u) as [[len u1]|] eqn:Ht; [|discriminate].
    destruct (_ || _); [discriminate|].
    intros H. injection H as <- <- _. split; [|congruence].
    unfold pacing_tick in Ht.
    destruct (p_interval u =? 0); [discriminate|].
    destruct (_ <=? _); injection Ht as _ <-; destruct d; reflexivity.
  - cbn [stream]. destruct (_ || _); [discriminate|].
    intros H. injection H as <- <- _.
    split; [destruct d; reflexivity|]. intros _.
    rewrite chip_set_prm_pacing. auto.
  - intros H. injection H as <- <- _. auto.
Qed.

(** ** More on alternate settings *)

Lemma free_requests_spec d slots : forall i,
  List.length (fst (free_requests d i slots)) = List.length slots
  /\ all_empty (fst (free_requests d i slots)).
Proof.
  induction slots as [|s slots IH]; intros i.
  - split; [reflexivity|constructor].
  - cbn [free_requests]. specialize (IH (S i)).
    destruct (free_requests d (S i) slots) as [rest tr]. cbn [fst] in IH.
    destruct IH as (Hl & He).
    destruct s; cbn [fst List.length]; (split; [lia|constructor; auto]).
Qed.

Lemma free_ep_spec e d prm :
  pool_ok prm ->
  let prm' := fst (free_ep e d prm) in
  ep_enabled prm' = false /\ all_empty (ureq prm')
  /\ List.length (ureq prm') = USB_XFERS
  /\ max_psize prm' = max_psize prm /\ ss prm' = ss prm
  /\ is_pcm_open prm' = is_pcm_open prm /\ hw_ptr prm' = hw_ptr prm
  /\ dma_bytes prm' = dma_bytes prm /\ period_size prm' = period_size prm.
Proof.
  intros (Hlen & Hoff). unfold free_ep.
  destruct (ep_enabled prm) eqn:Hen; cbn [negb].
  - pose proof (free_requests_spec d (ureq prm) 0) as (Hl & He).
    destruct (free_requests d 0 (ureq prm)) as [slots tr].
    cbn [fst] in *. cbn. repeat split; auto. congruence.
  - cbn [fst]. unfold all_empty. repeat split; auto.
Qed.

Lemma arm_requests_spec e d len slots : forall i,
  let r := arm_requests e d len i slots in
  List.length (snd (fst r)) = List.length slots
  /\ (fst (fst r) = true
      <-> forall j, nth_error slots j = Some None ->
                    alloc_ok e (i + j) = true)
  /\ (fst (fst r) = true ->
      all_armed (snd (fst r))
      /\ queue_count (snd r) = List.length slots).
Proof.
  induction slots as [|s slots IH]; intros i.
  - cbn. repeat split; auto; try constructor.
    intros _ j H. destruct j; discriminate.
  - cbn zeta. cbn [arm_requests]. specialize (IH (S i)). cbn zeta in IH.
    assert (Hq : queue_count
                   (Ev_usb_ep_queue
                    :: (if ep_queue_ok e then [] else [Ev_dev_err])) = 1%nat)
      by (destruct (ep_queue_ok e); reflexivity).
    assert (Hshift : (forall j, nth_error slots j = Some None ->
                                alloc_ok e (S i + j) = true)
                     <-> (forall j, nth_error (s :: slots) (S j) = Some None ->
                                    alloc_ok e (i + S j) = true)).
    { split; intros H j Hj; specialize (H j Hj);
        replace (i + S j)%nat with (S i + j)%nat in * by lia; exact H. }
    destruct s as [r|].
    + destruct (arm_requests e d len (S i) slots) as [[ok rest] tr].
      cbn [fst snd] in *. destruct IH as (Hl & Hok & Harm).
      split; [cbn; lia|]. split.
      * rewrite Hok, Hshift. split.
        -- intros H [|j] Hj; [discriminate|]. apply H. exact Hj.
        -- intros H j Hj. apply H. exact Hj.
      * intros Ht. destruct (Harm Ht) as (Ha & Hc). split.
        -- constructor; [discriminate|exact Ha].
        -- change (Ev_usb_ep_queue
                   :: (if ep_queue_ok e then [] else [Ev_dev_err]) ++ tr)
             with ((Ev_usb_ep_queue
                    :: (if ep_queue_ok e then [] else [Ev_dev_err])) ++ tr).
           rewrite queue_count_app, Hq, Hc. reflexivity.
    + destruct (alloc_ok e i) eqn:Hal.
      * destruct (arm_requests e d len (S i) slots) as [[ok rest] tr].
        cbn [fst snd] in *. destruct IH as (Hl & Hok & Harm).
        split; [cbn; lia|]. split.
        -- rewrite Hok, Hshift. split.
           ++ intros H [|j] Hj.
              ** rewrite Nat.add_0_r. exact Hal.
              ** apply H. exact Hj.
           ++ intros H j Hj. apply H. exact Hj.
        -- intros Ht. destruct (Harm Ht) as (Ha & Hc). split.
           ++ constructor; [discriminate|exact Ha].
           ++ change (Ev_usb_ep_alloc_request d i
                      :: (Ev_usb_ep_queue
                          :: (if ep_queue_ok e then [] else [Ev_dev_err]))
                         ++ tr)
                with ([Ev_usb_ep_alloc_request d i]
                      ++ (Ev_usb_ep_queue
                          :: (if ep_queue_ok e then [] else [Ev_dev_err]))
                      ++ tr).
              rewrite !queue_count_app, Hq, Hc. reflexivity.
      * cbn [fst snd]. split; [reflexivity|]. split.
        -- split; [discriminate|]. intros H.
           specialize (H 0%nat eq_refl). rewrite Nat.add_0_r in H. congruence.
        -- discriminate.
Qed.

Lemma chip_prm_other_set_prm d u p :
  chip_prm (other_dir d) (chip_set_prm d u p) = chip_prm (other_dir d) u.
Proof. destruct d; reflexivity. Qed.

(** The common end of [afunc_set_alt], for a direction whose pool is
    sound. *)
Lemma set_alt_finish_result e d a alt len tr :
  pool_ok (chip_prm d (uac2 a)) ->
  let r := set_alt_finish e d a alt len tr in
  let a' := snd (fst r) in
  let prm' := chip_prm d (uac2 a') in
  chip_prm (other_dir d) (uac2 a') = chip_prm (other_dir d) (uac2 a)
  /\ pacing_state (uac2 a') = pacing_state (uac2 a)
  /\ opts a' = opts a
  /\ (forall d', stream_alt a' d' = stream_alt a d')
  /\ (forall d', stream_intf a' d' = stream_intf a d')
  /\ ac_intf a' = ac_intf a /\ ac_alt a' = ac_alt a
  /\ pool_ok prm'
  /\ (alt = 0 ->
      fst (fst r) = 0 /\ ep_enabled prm' = false /\ all_empty (ureq prm'))
  /\ (alt <> 0 ->
      ep_enabled prm' = true
      /\ (fst (fst r) = 0 \/ fst (fst r) = - ENOMEM)
      /\ (fst (fst r) = 0
          <-> forall j, nth_error (ureq (chip_prm d (uac2 a))) j = Some None
                        -> alloc_ok e j = true)
      /\ (fst (fst r) = 0 ->
          all_armed (ureq prm')
          /\ queue_count (snd r) = (queue_count tr + USB_XFERS)%nat)).
Proof.
  intros Hpool. unfold set_alt_finish.
  destruct (Z.eqb_spec alt 0) as [Ha|Ha].
  - pose proof (free_ep_spec e d (chip_prm d (uac2 a)) Hpool) as Hf.
    destruct (free_ep e d (chip_prm d (uac2 a))) as [prm' tr'].
    cbn [fst snd] in *. cbn zeta in Hf.
    destruct Hf as (Hen & Hemp & Hlen & _).
    cbn [uac2 opts agdev_set_uac2 ac_intf ac_alt].
    rewrite chip_prm_other_set_prm, chip_set_prm_pacing, chip_prm_set_prm.
    repeat split; auto; try (destruct d'; reflexivity); try contradiction.
  - pose proof (arm_requests_spec e d len (ureq (chip_prm d (uac2 a))) 0)
      as Harm. cbn zeta in Harm.
    destruct (arm_requests e d len 0 (ureq (chip_prm d (uac2 a))))
      as [[ok slots] tr']. cbn [fst snd] in *.
    destruct Harm as (Hl & Hok & Hall).
    cbn [uac2 opts agdev_set_uac2 ac_intf ac_alt].
    rewrite chip_prm_other_set_prm, chip_set_prm_pacing, chip_prm_set_prm.
    unfold pool_ok.
    cbn [ep_enabled ureq prm_set_ureq prm_set_ep_enabled].
    destruct Hpool as (Hlen & _).
    split; [reflexivity|]. split; [reflexivity|]. split; [reflexivity|].
    split; [destruct d'; reflexivity|]. split; [destruct d'; reflexivity|].
    split; [reflexivity|]. split; [reflexivity|].
    split; [split; [rewrite Hl; exact Hlen|discriminate]|].
    split; [contradiction|]. intros _.
    split; [reflexivity|].
    split; [destruct ok; auto|].
    split.
    + rewrite <- Hok. destruct ok; split; auto; try discriminate;
        unfold ENOMEM; discriminate.
    + intros Hr. assert (ok = true)
        by (destruct ok; [reflexivity|unfold ENOMEM in Hr; discriminate]).
      destruct (Hall H) as (Ha1 & Hq). split; [exact Ha1|].
      change (tr ++ Ev_usb_ep_enable d :: tr')
        with (tr ++ [Ev_usb_ep_enable d] ++ tr').
      rewrite !queue_count_app, Hq, Hlen. reflexivity.
Qed.

Lemma u8_small_alt alt : 0 <= alt <= 6 -> u8 alt = alt.
Proof. intros H. unfold u8. apply Z.mod_small. lia. Qed.

Lemma queue_count_notify d prm alt :
  queue_count (Ev_pr_debug :: Ev_config_ep_by_speed d
                 :: set_alt_notify d prm alt) = 0%nat.
Proof.
  unfold set_alt_notify.
  destruct (alt =? 0); destruct (is_pcm_open prm); reflexivity.
Qed.

(** A call for a streaming interface with a setting of the table: what
    happens before the common end. *)
Lemma afunc_set_alt_streaming e a d alt :
  intf_distinct a -> 0 <= alt <= 6 ->
  exists a_mid len tr,
    afunc_set_alt e a (stream_intf a d) alt
    = set_alt_finish e d a_mid alt len tr
    /\ p_prm (uac2 a_mid) = p_prm (uac2 a)
    /\ c_prm (uac2 a_mid) = c_prm (uac2 a)
    /\ stream_alt a_mid d = alt
    /\ stream_alt a_mid (other_dir d) = stream_alt a (other_dir d)
    /\ (forall d', stream_intf a_mid d' = stream_intf a d')
    /\ ac_intf a_mid = ac_intf a /\ ac_alt a_mid = ac_alt a
    /\ dir_opts (opts a_mid) (other_dir d) = dir_opts (opts a) (other_dir d)
    /\ (d = CAPTURE -> pacing_state (uac2 a_mid) = pacing_state (uac2 a))
    /\ (alt = 0 -> opts a_mid = opts a)
    /\ queue_count tr = 0%nat.
Proof.
  intros (H1 & H2 & H3) Halt. unfold afunc_set_alt.
  assert (Hle : (alt <=? 6) = true) by (apply Z.leb_le; lia).
  destruct d; cbn [stream_intf].
  - destruct (Z.eqb_spec (as_in_intf a) (ac_intf a)); [congruence|].
    destruct (Z.eqb_spec (as_in_intf a) (as_out_intf a)); [congruence|].
    cbn [andb]. rewrite Z.eqb_refl. unfold MAX_AS_IN_ALT. rewrite Hle.
    cbn [andb]. do 3 eexists. split; [reflexivity|].
    cbn [uac2 agdev_set_uac2 ac_intf ac_alt stream_alt stream_intf other_dir
         as_in_alt as_out_alt as_in_intf as_out_intf opts].
    rewrite precompute_pacing_prm.
    assert (Hc : c_prm (precompute_pacing e
                   (opts (if alt =? 0 then agdev_set_as_in_alt a (u8 alt)
                          else agdev_set_opts (agdev_set_as_in_alt a (u8 alt))
                                 (opts_set_p_format
                                    (opts (agdev_set_as_in_alt a (u8 alt)))
                                    (bSubslotSize (alt_entry as_in_alt_setting alt))
                                    (bmChannelConfig (alt_entry as_in_alt_setting alt))
                                    (bBitResolution (alt_entry as_in_alt_setting alt)))))
                   (uac2 (if alt =? 0 then agdev_set_as_in_alt a (u8 alt)
                          else agdev_set_opts (agdev_set_as_in_alt a (u8 alt))
                                 (opts_set_p_format
                                    (opts (agdev_set_as_in_alt a (u8 alt)))
                                    (bSubslotSize (alt_entry as_in_alt_setting alt))
                                    (bmChannelConfig (alt_entry as_in_alt_setting alt))
                                    (bBitResolution (alt_entry as_in_alt_setting alt))))))
                 = c_prm (uac2 a)).
    { unfold precompute_pacing. destruct (speed e); destruct (alt =? 0);
        reflexivity. }
    rewrite Hc. rewrite queue_count_notify.
    destruct (alt =? 0) eqn:E0; cbn; rewrite ?u8_small_alt by lia;
      repeat split; auto; try discriminate; try (destruct d'; reflexivity);
      try (intros Hz; rewrite Hz in E0; discriminate E0).
  - destruct (Z.eqb_spec (as_out_intf a) (ac_intf a)); [congruence|].
    rewrite Z.eqb_refl. unfold MAX_AS_OUT_ALT. rewrite Hle.
    cbn [andb]. do 3 eexists. split; [reflexivity|].
    rewrite queue_count_notify.
    destruct (alt =? 0) eqn:E0; cbn; rewrite ?u8_small_alt by lia;
      repeat split; auto; try discriminate; try (destruct d'; reflexivity);
      try (intros Hz; rewrite Hz in E0; discriminate E0).
Qed.

Lemma set_alt_finish_fields e d a alt len tr :
  let a' := snd (fst (set_alt_finish e d a alt len tr)) in
  chip_prm (other_dir d) (uac2 a') = chip_prm (other_dir d) (uac2 a)
  /\ pacing_state (uac2 a') = pacing_state (uac2 a)
  /\ opts a' = opts a
  /\ (forall d', stream_alt a' d' = stream_alt a d')
  /\ (forall d', stream_intf a' d' = stream_intf a d')
  /\ ac_intf a' = ac_intf a /\ ac_alt a' = ac_alt a.
Proof.
  unfold set_alt_finish. destruct (alt =? 0).
  - destruct (free_ep e d (chip_prm d (uac2 a))) as [prm' tr'].
    cbn [fst snd uac2 opts agdev_set_uac2 ac_intf ac_alt].
    rewrite chip_prm_other_set_prm, chip_set_prm_pacing.
    repeat split; destruct d'; reflexivity.
  - destruct (arm_requests e d len 0 (ureq (chip_prm d (uac2 a))))
      as [[ok slots] tr'].
    cbn [fst snd uac2 opts agdev_set_uac2 ac_intf ac_alt].
    rewrite chip_prm_other_set_prm, chip_set_prm_pacing.
    repeat split; destruct d'; reflexivity.
Qed.

(** X8. Every call of [afunc_set_alt], accepted or not, keeps both request
    pools sound: eight slots each, and no request in a slot of a disabled
    endpoint. *)
Theorem afunc_set_alt_keeps_pools e a intf alt :
  pool_ok (p_prm (uac2 a)) -> pool_ok (c_prm (uac2 a)) ->
  pool_ok (p_prm (uac2 (set_alt_dev e a intf alt)))
  /\ pool_ok (c_prm (uac2 (set_alt_dev e a intf alt))).
Proof.
  intros Hp Hc. unfold set_alt_dev, afunc_set_alt.
  destruct (intf =? ac_intf a); [destruct (alt =? 0); auto|].
  destruct (_ && _).
  - match goal with
    | |- context [set_alt_finish e CAPTURE ?x alt ?l ?t] =>
        assert (Hx : uac2 x = uac2 a) by (destruct (alt =? 0); reflexivity);
        pose proof (set_alt_finish_result e CAPTURE x alt l t) as Hf;
        destruct (set_alt_finish e CAPTURE x alt l t) as [[ret a'] tr]
    end.
    cbn zeta in Hf. cbn [fst snd chip_prm other_dir] in *.
    rewrite Hx in Hf. destruct (Hf Hc) as (Ho & _ & _ & _ & _ & _ & _ & Hk & _).
    rewrite Ho. auto.
  - destruct (_ && _); [|auto].
    match goal with
    | |- context [set_alt_finish e PLAYBACK ?x alt ?l ?t] =>
        assert (Hx : p_prm (uac2 x) = p_prm (uac2 a)
                     /\ c_prm (uac2 x) = c_prm (uac2 a));
        [|pose proof (set_alt_finish_result e PLAYBACK x alt l t) as Hf;
          destruct (set_alt_finish e PLAYBACK x alt l t) as [[ret a'] tr]]
    end.
    { cbn [uac2 agdev_set_uac2]. rewrite precompute_pacing_prm.
      unfold precompute_pacing.
      destruct (speed e); destruct (alt =? 0); split; reflexivity. }
    cbn zeta in Hf. cbn [fst snd chip_prm other_dir] in *.
    destruct Hx as (Hx1 & Hx2). rewrite Hx1, Hx2 in Hf.
    destruct (Hf Hp) as (Ho & _ & _ & _ & _ & _ & _ & Hk & _).
    rewrite Ho. auto.
Qed.

(** X9. Selecting setting 0 of a streaming interface returns 0 and leaves
    its endpoint disabled with every slot of the pool empty, whatever was
    armed before; [afunc_get_alt] then reports 0. *)
Theorem set_alt_zero_releases e a d :
  intf_distinct a -> pool_ok (chip_prm d (uac2 a)) ->
  let r := afunc_set_alt e a (stream_intf a d) 0 in
  let a' := snd (fst r) in
  fst (fst r) = 0
  /\ ep_enabled (chip_prm d (uac2 a')) = false
  /\ all_empty (ureq (chip_prm d (uac2 a')))
  /\ fst (afunc_get_alt a' (stream_intf a d)) = 0.
Proof.
  intros Hd Hpool.
  destruct (afunc_set_alt_streaming e a d 0 Hd ltac:(lia))
    as (am & len & tr & -> & Hpp & Hcp & Halt & _ & Hintf & Hac & _).
  assert (Hprm : chip_prm d (uac2 am) = chip_prm d (uac2 a))
    by (destruct d; cbn [chip_prm]; congruence).
  assert (Hpool' : pool_ok (chip_prm d (uac2 am)))
    by (rewrite Hprm; exact Hpool).
  pose proof (set_alt_finish_result e d am 0 len tr Hpool') as Hf.
  cbn zeta in *.
  destruct Hf as (_ & _ & _ & Ha & Hi & Hai & _ & _ & Hz & _).
  destruct (Hz eq_refl) as (Hret & Hen & Hemp).
  split; [exact Hret|]. split; [exact Hen|]. split; [exact Hemp|].
  destruct Hd as (D1 & D2 & D3).
  pose proof (Ha d) as Had. pose proof (Hi PLAYBACK) as Hip.
  pose proof (Hi CAPTURE) as Hic.
  pose proof (Hintf PLAYBACK) as Hmp. pose proof (Hintf CAPTURE) as Hmc.
  cbn [stream_intf] in Hip, Hic, Hmp, Hmc.
  unfold afunc_get_alt. rewrite Hai, Hac, Hip, Hic, Hmp, Hmc.
  destruct d; cbn [stream_intf stream_alt] in *.
  - destruct (Z.eqb_spec (as_in_intf a) (ac_intf a)); [congruence|].
    destruct (Z.eqb_spec (as_in_intf a) (as_out_intf a)); [congruence|].
    rewrite Z.eqb_refl. cbn [fst]. congruence.
  - destruct (Z.eqb_spec (as_out_intf a) (ac_intf a)); [congruence|].
    rewrite Z.eqb_refl. cbn [fst]. congruence.
Qed.

(** X10. Activating a setting of a streaming interface returns 0 or
    [-ENOMEM]; it returns 0 exactly when the allocation succeeds for every
    empty slot, and then all eight slots hold a request and eight requests
    were queued.  In both cases the endpoint is left enabled and the
    setting recorded: a failed activation is not rolled back. *)
Theorem set_alt_activation_arms e a d alt :
  intf_distinct a -> 1 <= alt <= 6 -> pool_ok (chip_prm d (uac2 a)) ->
  let r := afunc_set_alt e a (stream_intf a d) alt in
  let a' := snd (fst r) in
  (fst (fst r) = 0 \/ fst (fst r) = - ENOMEM)
  /\ ep_enabled (chip_prm d (uac2 a')) = true
  /\ stream_alt a' d = alt
  /\ (fst (fst r) = 0
      <-> forall j, nth_error (ureq (chip_prm d (uac2 a))) j = Some None ->
                    alloc_ok e j = true)
  /\ (fst (fst r) = 0 ->
      all_armed (ureq (chip_prm d (uac2 a')))
      /\ queue_count (snd r) = USB_XFERS).
Proof.
  intros Hd Halt Hpool.
  destruct (afunc_set_alt_streaming e a d alt Hd ltac:(lia))
    as (am & len & tr & -> & Hpp & Hcp & Hal & _ & _ & _ & _ & _ & _ & _ & Hq).
  assert (Hprm : chip_prm d (uac2 am) = chip_prm d (uac2 a))
    by (destruct d; cbn [chip_prm]; congruence).
  assert (Hpool' : pool_ok (chip_prm d (uac2 am))) by (rewrite Hprm; exact Hpool).
  pose proof (set_alt_finish_result e d am alt len tr Hpool') as Hf.
  cbn zeta in *.
  destruct Hf as (_ & _ & _ & Ha & _ & _ & _ & _ & _ & Hnz).
  destruct (Hnz ltac:(lia)) as (Hen & Hret & Hiff & Harm).
  rewrite Hprm in Hiff. rewrite Hq in Harm.
  split; [exact Hret|]. split; [exact Hen|].
  split; [rewrite Ha; exact Hal|]. split; [exact Hiff|exact Harm].
Qed.

(** X11. [afunc_get_alt] returns what [afunc_set_alt] was last given for a
    streaming interface (settings 0 to 6), while the setting of the other
    streaming interface and of the control interface read as before. *)
Theorem get_alt_after_set_alt e a d alt :
  intf_distinct a -> 0 <= alt <= 6 ->
  let a' := set_alt_dev e a (stream_intf a d) alt in
  fst (afunc_get_alt a' (stream_intf a d)) = alt
  /\ fst (afunc_get_alt a' (stream_intf a (other_dir d)))
     = stream_alt a (other_dir d)
  /\ fst (afunc_get_alt a' (ac_intf a)) = ac_alt a.
Proof.
  intros Hd Halt. unfold set_alt_dev.
  destruct (afunc_set_alt_streaming e a d alt Hd Halt)
    as (am & len & tr & -> & _ & _ & Hal & Hoth & Hintf & Hac & Haa & _).
  pose proof (set_alt_finish_fields e d am alt len tr) as Hf.
  cbn zeta in *. destruct Hf as (_ & _ & _ & Ha & Hi & Hai & Haa').
  destruct Hd as (D1 & D2 & D3).
  pose proof (Ha PLAYBACK) as Hap. pose proof (Ha CAPTURE) as Hac'.
  pose proof (Hi PLAYBACK) as Hip. pose proof (Hi CAPTURE) as Hic.
  pose proof (Hintf PLAYBACK) as Hmp. pose proof (Hintf CAPTURE) as Hmc.
  cbn [stream_intf stream_alt] in Hap, Hac', Hip, Hic, Hmp, Hmc.
  unfold afunc_get_alt. rewrite Hai, Hac, Hip, Hic, Hmp, Hmc, Hap, Hac', Haa', Haa.
  destruct d; cbn [stream_intf stream_alt other_dir] in *;
    rewrite ?Z.eqb_refl;
    repeat match goal with
    | |- context [?x =? ?y] =>
        destruct (Z.eqb_spec x y); try congruence
    end; cbn [fst]; auto.
Qed.

(** X12. A call of [afunc_set_alt] for one streaming interface leaves the
    other direction alone: its endpoint state, its format and rate options
    and its alternate setting; a call for the capture interface also leaves
    the playback pacing state. *)
Theorem set_alt_other_direction e a d alt :
  intf_distinct a -> 0 <= alt <= 6 ->
  let a' := set_alt_dev e a (stream_intf a d) alt in
  chip_prm (other_dir d) (uac2 a') = chip_prm (other_dir d) (uac2 a)
  /\ dir_opts (opts a') (other_dir d) = dir_opts (opts a) (other_dir d)
  /\ stream_alt a' (other_dir d) = stream_alt a (other_dir d)
  /\ (d = CAPTURE -> pacing_state (uac2 a') = pacing_state (uac2 a)).
Proof.
  intros Hd Halt. unfold set_alt_dev.
  destruct (afunc_set_alt_streaming e a d alt Hd Halt)
    as (am & len & tr & -> & Hpp & Hcp & _ & Hoth & _ & _ & _ & Hop & Hpc & _).
  pose proof (set_alt_finish_fields e d am alt len tr) as Hf.
  cbn zeta in *. destruct Hf as (Hprm & Hpac & Ho & Ha & _).
  rewrite Hprm, Ho, Ha, Hpac.
  split; [destruct d; cbn [other_dir chip_prm]; congruence|].
  split; [exact Hop|]. split; [exact Hoth|exact Hpc].
Qed.

Lemma get_alt_after_set_alt_aux e a d alt :
  intf_distinct a -> 0 <= alt <= 6 ->
  let a' := set_alt_dev e a (stream_intf a d) alt in
  stream_alt a' d = alt
  /\ max_psize (chip_prm d (uac2 a')) = max_psize (chip_prm d (uac2 a)).
Proof.
  intros Hd Halt. unfold set_alt_dev.
  destruct (afunc_set_alt_streaming e a d alt Hd Halt)
    as (am & len & tr & -> & Hpp & Hcp & Hal & _).
  pose proof (set_alt_finish_fields e d am alt len tr) as Hf.
  cbn zeta in *. destruct Hf as (_ & _ & _ & Ha & _).
  split; [rewrite Ha; exact Hal|].
  assert (Hprm : chip_prm d (uac2 am) = chip_prm d (uac2 a))
    by (destruct d; cbn [chip_prm]; congruence).
  rewrite <- Hprm. unfold set_alt_finish.
  destruct (alt =? 0).
  - pose proof (free_ep_max_psize e d (chip_prm d (uac2 am))) as Hm.
    destruct (free_ep e d (chip_prm d (uac2 am))) as [prm' tr'].
    cbn [fst snd uac2 agdev_set_uac2] in *.
    rewrite chip_prm_set_prm. exact Hm.
  - destruct (arm_requests e d len 0 (ureq (chip_prm d (uac2 am))))
      as [[ok slots] tr'].
    cbn [fst snd uac2 agdev_set_uac2]. rewrite chip_prm_set_prm. reflexivity.
Qed.

(** X13. [afunc_disable] leaves both streaming interfaces at setting 0 with
    their endpoints disabled and their pools empty, and schedules the
    cable-disconnect work first; unlike a change to setting 0 it leaves the
    pacing state and the options as they are. *)
Theorem afunc_disable_releases e a :
  pool_ok (p_prm (uac2 a)) -> pool_ok (c_prm (uac2 a)) ->
  let a' := fst (afunc_disable e a) in
  as_in_alt a' = 0 /\ as_out_alt a' = 0
  /\ (forall d, ep_enabled (chip_prm d (uac2 a')) = false
                /\ all_empty (ureq (chip_prm d (uac2 a'))))
  /\ pacing_state (uac2 a') = pacing_state (uac2 a)
  /\ opts a' = opts a
  /\ hd_error (snd (afunc_disable e a)) = Some Nt_queue_work_disconnect.
Proof.
  intros Hp Hc. unfold afunc_disable.
  pose proof (free_ep_spec e PLAYBACK (p_prm (uac2 a)) Hp) as Hfp.
  destruct (free_ep e PLAYBACK (p_prm (uac2 a))) as [p trp].
  cbn [c_prm chip_set_prm].
  pose proof (free_ep_spec e CAPTURE (c_prm (uac2 a)) Hc) as Hfc.
  destruct (free_ep e CAPTURE (c_prm (uac2 a))) as [c trc].
  cbn zeta in *. cbn [fst snd] in *.
  destruct Hfp as (Hpe & Hpm & _). destruct Hfc as (Hce & Hcm & _).
  cbn. repeat split; auto; destruct d; cbn; auto.
Qed.

(** X14. [uac2_pcm_open] fails with [-EPIPE] exactly when the alternate
    setting of the stream's interface is 0, and then marks nothing open;
    otherwise it returns 0 and marks the direction open.  In both cases, and
    for both directions, it zeroes the playback residue accumulator and
    leaves the other direction's parameters alone. *)
Theorem uac2_pcm_open_needs_active_alt PAGE_SIZE a sub :
  let d := stream sub in
  let r := uac2_pcm_open PAGE_SIZE a sub in
  let a' := snd (fst (fst r)) in
  (stream_alt a d = 0 ->
   fst (fst (fst r)) = - EPIPE
   /\ chip_prm d (uac2 a') = chip_prm d (uac2 a))
  /\ (stream_alt a d <> 0 ->
      fst (fst (fst r)) = 0
      /\ is_pcm_open (chip_prm d (uac2 a')) = true)
  /\ p_residue (uac2 a') = 0
  /\ chip_prm (other_dir d) (uac2 a') = chip_prm (other_dir d) (uac2 a).
Proof.
  cbv zeta. unfold uac2_pcm_open.
  destruct (stream sub);
    cbn [stream_alt as_in_alt as_out_alt agdev_set_uac2 dir_opts];
    match goal with |- context [?x =? 0] => destruct (Z.eqb_spec x 0) end;
    cbn; repeat split; auto; try contradiction; try discriminate;
    intros; congruence.
Qed.

(** The options of a direction after the activation of a setting of its
    table: the format of the setting, and the rate as before. *)
Lemma set_alt_dir_opts e a d alt :
  intf_distinct a -> 1 <= alt <= 6 ->
  let f := alt_entry (alt_table d) alt in
  dir_opts (opts (set_alt_dev e a (stream_intf a d) alt)) d
  = (fst (fst (fst (dir_opts (opts a) d))), bBitResolution f, bSubslotSize f,
     bmChannelConfig f).
Proof.
  intros (H1 & H2 & H3) Halt. unfold set_alt_dev, afunc_set_alt.
  assert (Hle : (alt <=? 6) = true) by (apply Z.leb_le; lia).
  destruct (Z.eqb_spec alt 0) as [E|_]; [lia|].
  destruct d; cbn [stream_intf alt_table].
  - destruct (Z.eqb_spec (as_in_intf a) (ac_intf a)); [congruence|].
    destruct (Z.eqb_spec (as_in_intf a) (as_out_intf a)); [congruence|].
    cbn [andb]. rewrite Z.eqb_refl. unfold MAX_AS_IN_ALT. rewrite Hle.
    cbn [andb].
    match goal with
    | |- context [set_alt_finish e PLAYBACK ?x alt ?l ?t] =>
        pose proof (set_alt_finish_fields e PLAYBACK x alt l t) as Hf;
        destruct (set_alt_finish e PLAYBACK x alt l t) as [[ret a'] tr]
    end.
    cbn zeta in Hf. cbn [fst snd] in *.
    destruct Hf as (_ & _ & -> & _). reflexivity.
  - destruct (Z.eqb_spec (as_out_intf a) (ac_intf a)); [congruence|].
    rewrite Z.eqb_refl. unfold MAX_AS_OUT_ALT. rewrite Hle. cbn [andb].
    match goal with
    | |- context [set_alt_finish e CAPTURE ?x alt ?l ?t] =>
        pose proof (set_alt_finish_fields e CAPTURE x alt l t) as Hf;
        destruct (set_alt_finish e CAPTURE x alt l t) as [[ret a'] tr]
    end.
    cbn zeta in Hf. cbn [fst snd] in *.
    destruct Hf as (_ & _ & -> & _). reflexivity.
Qed.

(** X15. After the activation of setting [alt] of a streaming interface,
    [uac2_pcm_open] for that direction succeeds and offers ALSA exactly the
    format of the setting: S16_LE for settings 1 and 2, S24_3LE for 3 and 4,
    S24_LE for 5 and 6, one channel for odd and two for even settings, the
    configured rate as both minimum and maximum, and a minimum period of
    [2 * max_psize / 4] bytes. *)
Theorem open_after_activation PAGE_SIZE e a d alt :
  intf_distinct a -> 1 <= alt <= 6 ->
  let a1 := set_alt_dev e a (stream_intf a d) alt in
  let r := uac2_pcm_open PAGE_SIZE a1 {| stream := d |} in
  let hw := snd (fst r) in
  fst (fst (fst r)) = 0
  /\ formats hw = Some (alt_pcm_format alt)
  /\ channels_min hw = (if Z.odd alt then 1 else 2)
  /\ channels_max hw = channels_min hw
  /\ rate_min hw = u32 (fst (fst (fst (dir_opts (opts a) d))))
  /\ rate_max hw = rate_min hw
  /\ period_bytes_min hw
     = u32 (2 * max_psize (chip_prm d (uac2 a))) / 4.
Proof.
  intros Hd Halt a1 r hw.
  pose proof (set_alt_dir_opts e a d alt Hd Halt) as Ho. fold a1 in Ho.
  pose proof (get_alt_after_set_alt_aux e a d alt Hd ltac:(lia)) as (Hga & Hmax).
  cbv zeta in Ho.
  fold a1 in Hga, Hmax.
  subst hw r. unfold uac2_pcm_open. cbn [stream].
  assert (Halt1 : match d with
                  | PLAYBACK => as_in_alt (agdev_set_uac2 a1
                                  (chip_set_p_residue (uac2 a1) 0))
                  | CAPTURE => as_out_alt (agdev_set_uac2 a1
                                 (chip_set_p_residue (uac2 a1) 0))
                  end = alt).
  { destruct d; exact Hga. }
  rewrite Halt1. destruct (Z.eqb_spec alt 0); [lia|].
  assert (Hd4 : match d with
                | PLAYBACK => (p_srate (opts a1), p_sres (opts a1),
                               p_ssize (opts a1), p_chmask (opts a1))
                | CAPTURE => (c_srate (opts a1), c_sres (opts a1),
                              c_ssize (opts a1), c_chmask (opts a1))
                end = dir_opts (opts a1) d) by (destruct d; reflexivity).
  rewrite Hd4, Ho. cbn [fst snd formats channels_min channels_max rate_min
                        rate_max period_bytes_min].
  rewrite chip_prm_set_p_residue, Hmax.
  assert (C : alt = 1 \/ alt = 2 \/ alt = 3 \/ alt = 4 \/ alt = 5 \/ alt = 6)
    by lia.
  destruct C as [-> | [-> | [-> | [-> | [-> | ->]]]]]; destruct d;
    repeat split; reflexivity.
Qed.

(** ** Host notifications *)

Lemma uevents_of_app t1 t2 :
  uevents_of (t1 ++ t2) = uevents_of t1 ++ uevents_of t2.
Proof.
  induction t1 as [|n t1 IH]; [reflexivity|].
  destruct n; cbn [app uevents_of]; rewrite ?IH; reflexivity.
Qed.

Lemma uevents_alternate_app d l1 : forall c l2,
  uevents_alternate d c l1 ->
  uevents_alternate d (last_connected c l1) l2 ->
  uevents_alternate d c (l1 ++ l2).
Proof.
  induction l1 as [|u l1 IH]; intros c l2 H1 H2; [exact H2|].
  cbn [app uevents_alternate] in *. destruct H1 as (Hu & H1).
  split; [exact Hu|]. apply IH; [exact H1|].
  unfold last_connected in *. cbn [fold_left] in H2.
  destruct c; subst u; exact H2.
Qed.

Lemma last_connected_app c l1 l2 :
  last_connected c (l1 ++ l2) = last_connected (last_connected c l1) l2.
Proof. unfold last_connected. apply fold_left_app. Qed.

Lemma uevent_work_step d a1 a2 prv :
  uevents_alternate d prv (uevents_of (fst (uevent_work d a1 a2 prv)))
  /\ snd (uevent_work d a1 a2 prv)
     = last_connected prv (uevents_of (fst (uevent_work d a1 a2 prv))).
Proof.
  unfold uevent_work.
  destruct (a1 =? 0); destruct (a2 =? 0); destruct prv; cbn; auto.
Qed.

(** X16. Over any number of runs of the uevent work item of a direction,
    with whatever alternate settings it reads, the uevents sent alternate
    between "params changed" and "closed", starting with the one that
    differs from the last one sent before, and the static flag always tells
    whether the last uevent sent was "params changed". *)
Theorem uevent_work_alternates d runs : forall prv,
  let r := uevent_work_runs d runs prv in
  uevents_alternate d prv (uevents_of (fst r))
  /\ snd r = last_connected prv (uevents_of (fst r)).
Proof.
  induction runs as [|[a1 a2] runs IH]; intros prv.
  - cbn. auto.
  - cbn zeta. cbn [uevent_work_runs].
    pose proof (uevent_work_step d a1 a2 prv) as (Hs1 & Hs2).
    destruct (uevent_work d a1 a2 prv) as [tr1 prv1]. cbn [fst snd] in *.
    specialize (IH prv1). cbn zeta in IH.
    destruct (uevent_work_runs d runs prv1) as [tr2 prv2].
    cbn [fst snd] in *. destruct IH as (Hi1 & Hi2).
    rewrite uevents_of_app, last_connected_app, <- Hs2.
    split; [|exact Hi2].
    apply uevents_alternate_app; [exact Hs1|]. rewrite <- Hs2. exact Hi1.
Qed.

(** ** More on control requests *)

Lemma store_le32_whole c x :
  List.length c = 4%nat -> store_at c 0 (le32 x) = le32 x.
Proof.
  intros H. unfold store_at. cbn [firstn app le32 List.length Nat.add].
  do 4 (destruct c as [|? c]; [discriminate|]).
  destruct c; [reflexivity|discriminate].
Qed.

Lemma get_cur_reports_rate_aux o cr stack req d :
  cr_control_selector cr = UAC2_CS_CONTROL_SAM_FREQ ->
  cr_entity_id cr = clk_entity d ->
  fst (fst (in_rq_cur o cr stack req)) = Z.min (u16 (wLength cr)) 4
  /\ buf (snd (fst (in_rq_cur o cr stack req)))
     = firstn (Z.to_nat (Z.min (u16 (wLength cr)) 4)) (le32 (dir_srate o d))
       ++ skipn (Z.to_nat (Z.min (u16 (wLength cr)) 4)) (buf req).
Proof.
  intros Hs He.
  destruct (in_rq_cur_any_entity o cr stack req Hs) as (Hv & _).
  split; [exact Hv|].
  unfold in_rq_cur in *. rewrite Hs in *.
  change (UAC2_CS_CONTROL_SAM_FREQ =? UAC2_CS_CONTROL_SAM_FREQ) with true in *.
  cbn [fst snd buf req_set_buf] in *. rewrite Hv, He. unfold memcpy.
  pose proof (uninitialised_length sizeof_cntrl_cur_lay3 stack) as Hl.
  destruct d; cbn [clk_entity dir_srate].
  - change (USB_IN_CLK_ID =? USB_IN_CLK_ID) with true. cbv iota.
    rewrite store_le32_whole by exact Hl. reflexivity.
  - change (USB_OUT_CLK_ID =? USB_IN_CLK_ID) with false.
    change (USB_OUT_CLK_ID =? USB_OUT_CLK_ID) with true. cbv iota.
    rewrite store_le32_whole by exact Hl. reflexivity.
Qed.

(** X17. GET CUR on the sample-frequency control of a clock entity answers
    [min(wLength, 4)] bytes, the leading bytes of the little-endian rate of
    that direction, whatever the stack held; the rest of the buffer is left
    as it was. *)
Theorem get_cur_reports_rate o cr stack req d :
  cr_control_selector cr = UAC2_CS_CONTROL_SAM_FREQ ->
  cr_entity_id cr = clk_entity d ->
  let r := in_rq_cur o cr stack req in
  let n := Z.to_nat (Z.min (u16 (wLength cr)) 4) in
  fst (fst r) = Z.min (u16 (wLength cr)) 4
  /\ buf (snd (fst r))
     = firstn n (le32 (dir_srate o d)) ++ skipn n (buf req).
Proof.
  intros Hs He. exact (get_cur_reports_rate_aux o cr stack req d Hs He).
Qed.

(** X18. SET CUR followed by GET CUR: once the payload of a SET CUR on the
    sample-frequency control of a clock entity has delivered a rate from
    {44100, 48000}, a GET CUR of at least 4 bytes on the same entity
    answers 4 bytes that read back as that rate. *)
Theorem set_cur_then_get_cur o d cr_set cr_get req req_get stack v :
  cr_control_selector cr_set = UAC2_CS_CONTROL_SAM_FREQ ->
  cr_control_selector cr_get = UAC2_CS_CONTROL_SAM_FREQ ->
  cr_entity_id cr_set = clk_entity d -> cr_entity_id cr_get = clk_entity d ->
  v = 44100 \/ v = 48000 -> 4 <= u16 (wLength cr_get) ->
  let req1 := snd (fst (out_rq_cur o cr_set req)) in
  let o' := fst (run_complete o (deliver req1 v)) in
  let r := in_rq_cur o' cr_get stack req_get in
  fst (fst r) = 4 /\ load_le32 (buf (snd (fst r))) = v.
Proof.
  intros Hs Hg Hes Heg Hv Hlen. cbv zeta.
  assert (Hu : is_u32 v) by (unfold is_u32; destruct Hv; subst; lia).
  assert (Ho : dir_srate
                 (fst (run_complete o
                         (deliver (snd (fst (out_rq_cur o cr_set req))) v)))
                 d = v).
  { unfold out_rq_cur. rewrite Hs, Hes.
    change (UAC2_CS_CONTROL_SAM_FREQ =? UAC2_CS_CONTROL_SAM_FREQ) with true.
    cbv iota. cbn [fst snd].
    assert (Hl : clk_frequency_listed clk_frequencies v = true)
      by (apply clk_frequency_listed_spec; exact Hv).
    assert (Hs32 : s32 v = v) by (destruct Hv; subst; reflexivity).
    destruct d; cbn [clk_entity].
    - change (USB_IN_CLK_ID =? USB_OUT_CLK_ID) with false.
      change (USB_IN_CLK_ID =? USB_IN_CLK_ID) with true. cbv iota.
      unfold run_complete, deliver, set_p_srate_complete.
      cbn [complete buf req_set_buf req_set_complete].
      rewrite load_le32_le32, Hl, Hs32 by exact Hu. reflexivity.
    - change (USB_OUT_CLK_ID =? USB_OUT_CLK_ID) with true. cbv iota.
      unfold run_complete, deliver, set_c_srate_complete.
      cbn [complete buf req_set_buf req_set_complete].
      rewrite load_le32_le32, Hl, Hs32 by exact Hu. reflexivity. }
  destruct (get_cur_reports_rate_aux
              (fst (run_complete o
                      (deliver (snd (fst (out_rq_cur o cr_set req))) v)))
              cr_get stack req_get d Hg Heg) as (Hval & Hbuf).
  rewrite Hval, Hbuf, Ho.
  replace (Z.min (u16 (wLength cr_get)) 4) with 4 by lia.
  split; [reflexivity|].
  change (Z.to_nat 4) with 4%nat. change (firstn 4 (le32 v)) with (le32 v).
  apply load_le32_le32. exact Hu.
Qed.

Lemma u16_range x : 0 <= u16 x < 2 ^ 16.
Proof. unfold u16. apply Z.mod_pos_bound. lia. Qed.

Lemma min_t_unsigned_le w k :
  0 <= k < 2 ^ 32 ->
  0 <= min_t_unsigned (u16 w) k <= u16 w.
Proof.
  intros Hk. unfold min_t_unsigned. pose proof (u16_range w).
  rewrite (u32_small (u16 w)), (u32_small k) by (unfold is_u32; lia). lia.
Qed.

(** What the three request handlers can return, and that none of them
    queues anything itself. *)
Lemma setup_rq_inf_value a cr stack req :
  let r := setup_rq_inf a cr stack req in
  (fst (fst r) = - EOPNOTSUPP /\ snd (fst r) = req
   \/ 0 <= fst (fst r) <= u16 (wLength cr))
  /\ ~ In Ev_usb_ep_queue (snd r)
  /\ (u8 (Z.land (u16 (wIndex cr)) 255) <> ac_intf a ->
      fst (fst r) = - EOPNOTSUPP /\ snd (fst r) = req)
  /\ (bRequest cr <> UAC2_CS_CUR ->
      ~ (Z.land (bRequestType cr) USB_DIR_IN <> 0
         /\ bRequest cr = UAC2_CS_RANGE) ->
      fst (fst r) = - EOPNOTSUPP /\ snd (fst r) = req).
Proof.
  cbv zeta. unfold setup_rq_inf, ac_rq_in, in_rq_cur, in_rq_range, out_rq_cur.
  pose proof (min_t_unsigned_le (wLength cr) (Z.of_nat sizeof_cntrl_cur_lay3)
                ltac:(cbn; lia)) as M4.
  pose proof (min_t_unsigned_le (wLength cr) 1 ltac:(lia)) as M1.
  pose proof (min_t_unsigned_le (wLength cr)
                (Z.of_nat sizeof_cntrl_range_lay3_2) ltac:(cbn; lia)) as M38.
  pose proof (u16_range (wLength cr)) as Hw.
  destruct (Z.eqb_spec (u8 (Z.land (u16 (wIndex cr)) 255)) (ac_intf a));
    cbn [negb].
  2:{ cbn. repeat split; auto; intuition congruence. }
  destruct (Z.eqb_spec (Z.land (bRequestType cr) USB_DIR_IN) 0); cbn [negb];
    destruct (Z.eqb_spec (bRequest cr) UAC2_CS_CUR);
    try destruct (Z.eqb_spec (bRequest cr) UAC2_CS_RANGE);
    repeat match goal with
    | |- context [if ?c then _ else _] => destruct c
    end;
    cbn [fst snd];
    (split; [first [left; split; reflexivity | right; lia]|]);
    (split; [cbn; intuition congruence|]);
    (split; [intros; contradiction|]);
    intros H1 H2; try contradiction; try (split; reflexivity);
    exfalso; apply H2; split; assumption.
Qed.

(** X19. Whenever [afunc_setup] queues an answer on endpoint 0, the length
    it gives the request lies between 0 and [wLength], and it asks for a
    zero-length packet exactly when the answer is shorter than [wLength]:
    the function never answers more than the host asked for. *)
Theorem afunc_setup_reply_bounded a cr stack queue_result req :
  let r := afunc_setup a cr stack queue_result req in
  In Ev_usb_ep_queue (snd r) ->
  0 <= length (snd (fst r)) <= u16 (wLength cr)
  /\ zero (snd (fst r)) = (length (snd (fst r)) <? u16 (wLength cr))
  /\ fst (fst r) = queue_result.
Proof.
  cbv zeta. unfold afunc_setup.
  destruct (negb _); [cbn; contradiction|].
  pose proof (setup_rq_inf_value a cr stack req) as Hv. cbv zeta in Hv.
  destruct (Z.land (bRequestType cr) USB_RECIP_MASK =? USB_RECIP_INTERFACE).
  - destruct (setup_rq_inf a cr stack req) as [[value req1] tr].
    cbn [fst snd] in Hv. destruct Hv as (Hval & Hnq & _).
    destruct (Z.leb_spec 0 value) as [Hpos|Hneg].
    + destruct Hval as [(Hv1 & _) | Hv1];
        [unfold EOPNOTSUPP in Hv1; lia|].
      destruct (queue_result <? 0); cbn; intros _; repeat split; lia.
    + cbn [snd]. intros H. contradiction.
  - cbn. intuition congruence.
Qed.

(** X20. [afunc_setup] serves only class requests addressed to the control
    interface, and there only CUR, or RANGE for a GET: anything else is
    answered with [-EOPNOTSUPP], the request untouched and nothing
    queued. *)
Theorem afunc_setup_rejects a cr stack queue_result req :
  ~ for_control_interface a cr
  \/ (bRequest cr <> UAC2_CS_CUR
      /\ ~ (Z.land (bRequestType cr) USB_DIR_IN <> 0
            /\ bRequest cr = UAC2_CS_RANGE)) ->
  let r := afunc_setup a cr stack queue_result req in
  fst (fst r) = - EOPNOTSUPP /\ snd (fst r) = req
  /\ ~ In Ev_usb_ep_queue (snd r).
Proof.
  intros H. cbv zeta. unfold afunc_setup.
  destruct (Z.eqb_spec (Z.land (bRequestType cr) USB_TYPE_MASK) USB_TYPE_CLASS)
    as [Hc|Hc]; cbn [negb]; [|cbn; auto].
  pose proof (setup_rq_inf_value a cr stack req) as Hv. cbv zeta in Hv.
  destruct (Z.eqb_spec (Z.land (bRequestType cr) USB_RECIP_MASK)
              USB_RECIP_INTERFACE) as [Hi|Hi].
  - destruct (setup_rq_inf a cr stack req) as [[value req1] tr].
    cbn [fst snd] in Hv. destruct Hv as (_ & Hnq & Hintf & Hreq).
    assert (Hrej : value = - EOPNOTSUPP /\ req1 = req).
    { destruct H as [H | (H1 & H2)].
      - apply Hintf. intros E. apply H. unfold for_control_interface. auto.
      - apply Hreq; assumption. }
    destruct Hrej as (-> & ->). cbn. auto.
  - cbn. intuition congruence.
Qed.

Lemma run_complete_keeps_rates o req :
  rates_supported o ->
  rates_supported (fst (run_complete o req))
  /\ (p_chmask (fst (run_complete o req)), p_ssize (fst (run_complete o req)),
      p_sres (fst (run_complete o req)), c_chmask (fst (run_complete o req)),
      c_ssize (fst (run_complete o req)), c_sres (fst (run_complete o req)))
     = (p_chmask o, p_ssize o, p_sres o, c_chmask o, c_ssize o, c_sres o).
Proof.
  intros (Hp & Hc).
  unfold run_complete, set_p_srate_complete, set_c_srate_complete.
  pose proof (clk_frequency_listed_spec (load_le32 (buf req))) as Hl.
  destruct (complete req); cbn [fst]; try (split; [split; assumption|reflexivity]);
    destruct (clk_frequency_listed clk_frequencies (load_le32 (buf req)));
    cbn [fst]; try (split; [split; assumption|reflexivity]);
    destruct (proj1 Hl eq_refl) as [E|E]; rewrite E;
    (split; [split; [try exact Hp|try exact Hc]; cbn; auto|reflexivity]).
Qed.

(** X21. Control requests cannot take the configuration out of the
    supported rates: if both rates are among {44100, 48000}, they still are
    after any sequence of data stages handed to the callbacks, whatever the
    payloads; and the callbacks change nothing but the rates. *)
Theorem run_completes_keep_rates reqs : forall o,
  rates_supported o ->
  rates_supported (run_completes o reqs)
  /\ (p_chmask (run_completes o reqs), p_ssize (run_completes o reqs),
      p_sres (run_completes o reqs), c_chmask (run_completes o reqs),
      c_ssize (run_completes o reqs), c_sres (run_completes o reqs))
     = (p_chmask o, p_ssize o, p_sres o, c_chmask o, c_ssize o, c_sres o).
Proof.
  induction reqs as [|r reqs IH]; intros o Ho; [auto|].
  cbn [run_completes].
  destruct (run_complete_keeps_rates o r Ho) as (H1 & H2).
  destruct (IH _ H1) as (H3 & H4). split; [exact H3|]. congruence.
Qed.

(** ** More on rate matching *)

(** One tick keeps the books: the bytes sent, scaled by the interval, plus
    what stays in the accumulator equal the budget of the tick plus what
    was in the accumulator. *)
Lemma pacing_tick_conserves (u : snd_uac2_chip) :
  pacing_typed u -> 1 <= p_framesize u ->
  p_pktsize_residue u < p_interval u ->
  p_residue u < p_framesize u * p_interval u ->
  p_framesize u * p_interval u + p_interval u <= 2 ^ 32 ->
  p_pktsize u + p_framesize u < 2 ^ 32 ->
  exists len r,
    pacing_tick u = Some (len, chip_set_p_residue u r)
    /\ 0 <= r < p_framesize u * p_interval u
    /\ p_pktsize u <= len <= p_pktsize u + p_framesize u
    /\ p_interval u * len + r
       = p_interval u * p_pktsize u + p_pktsize_residue u + p_residue u.
Proof.
  unfold pacing_typed, is_u32.
  intros (HI & Hr & HP & HR & HF) HF1 HRI Hinv Hfit Hlen.
  unfold pacing_tick.
  set (F := p_framesize u) in *. set (I := p_interval u) in *.
  set (R := p_pktsize_residue u) in *. set (r := p_residue u) in *.
  set (P := p_pktsize u) in *.
  destruct (Z.eqb_spec I 0) as [E|_]; [lia|].
  rewrite (u32_small (r + R)) by (unfold is_u32; lia).
  destruct (Z.leb_spec F ((r + R) / I)) as [Hge|Hlt].
  - assert (HFI : F * I <= r + R).
    { pose proof (Z.mul_div_le (r + R) I ltac:(lia)). nia. }
    do 2 eexists. split; [reflexivity|].
    rewrite (u32_small (F * I)) by (unfold is_u32; nia).
    rewrite (u32_small (r + R - F * I)) by (unfold is_u32; lia).
    rewrite (u32_small (P + F)) by (unfold is_u32; lia).
    repeat split; try lia; nia.
  - assert (r + R < F * I).
    { pose proof (Z.div_mod (r + R) I ltac:(lia)).
      pose proof (Z.mod_pos_bound (r + R) I ltac:(lia)). nia. }
    do 2 eexists. split; [reflexivity|]. repeat split; lia.
Qed.

Lemma pacing_ticks_conserve n : forall u,
  pacing_typed u -> 1 <= p_framesize u ->
  p_pktsize_residue u < p_interval u ->
  p_residue u < p_framesize u * p_interval u ->
  p_framesize u * p_interval u + p_interval u <= 2 ^ 32 ->
  p_pktsize u + p_framesize u < 2 ^ 32 ->
  exists lens r,
    pacing_ticks n u = Some (lens, chip_set_p_residue u r)
    /\ 0 <= r < p_framesize u * p_interval u
    /\ Forall (fun len => p_pktsize u <= len <= p_pktsize u + p_framesize u)
         lens
    /\ p_interval u * sum_lengths lens + r
       = Z.of_nat n * (p_interval u * p_pktsize u + p_pktsize_residue u)
         + p_residue u.
Proof.
  induction n as [|n IH]; intros u Hty HF HR Hinv Hfit Hlen.
  - exists [], (p_residue u). cbn [pacing_ticks].
    rewrite chip_set_p_residue_eta. unfold sum_lengths. cbn [fold_right].
    unfold pacing_typed, is_u32 in Hty.
    repeat split; try lia. constructor.
  - destruct (pacing_tick_conserves u Hty HF HR Hinv Hfit Hlen)
      as (len & r & Htick & Hr & Hl & Heq).
    destruct (IH (chip_set_p_residue u r))
      as (lens & r' & Hrun & Hr' & Hall & Hsum).
    + unfold pacing_typed, is_u32 in *. cbn. lia.
    + exact HF.
    + exact HR.
    + cbn. lia.
    + exact Hfit.
    + exact Hlen.
    + exists (len :: lens), r'. cbn [pacing_ticks]. rewrite Htick, Hrun.
      cbn [p_residue p_framesize p_interval p_pktsize p_pktsize_residue
           chip_set_p_residue] in *.
      split; [reflexivity|]. split; [exact Hr'|].
      split; [constructor; assumption|].
      unfold sum_lengths in *. cbn [fold_right].
      rewrite Nat2Z.inj_succ. nia.
Qed.

(** X22. Byte accounting of an activated playback stream whose base packet
    size is below the packet-size limit: after any number of ticks, 1000
    times the bytes sent plus the residue accumulator equals the number of
    ticks times the byte rate [p_srate * p_framesize], so the total sent
    falls short of the ideal by less than one frame, and every packet has
    the base size or one frame more. *)
Theorem activated_byte_accounting e a alt n :
  intf_distinct a -> 1 <= alt <= 6 ->
  let u := set_alt_chip e a (as_in_intf a) alt in
  let rate := u32 (p_srate (opts a) * p_framesize u) in
  is_u32 (max_psize (p_prm (uac2 a))) ->
  rate / 1000 < max_psize (p_prm (uac2 a)) ->
  exists lens u',
    pacing_ticks n u = Some (lens, u')
    /\ 1000 * sum_lengths lens + p_residue u' = Z.of_nat n * rate
    /\ 0 <= p_residue u' < p_framesize u * 1000
    /\ Forall (fun len => len = rate / 1000
                          \/ len = rate / 1000 + p_framesize u) lens.
Proof.
  intros Hd Halt u rate Hmax Hbelow.
  destruct (activated_chip_pacing e a alt Hd Halt)
    as (Hty & HF & HI & HR & Hr). fold u in Hty, HF, HI, HR, Hr.
  pose proof (activated_pacing_state e a alt Hd Halt) as Hp. fold u in Hp.
  unfold pacing_state, pacing_of in Hp.
  destruct (in_alt_framesize alt Halt) as (Hfs & _). cbv zeta in Hfs.
  injection Hp as HFe _ HP HRe _.
  assert (Hrate : u32 (p_srate (opts a)
                       * u32 (bSubslotSize (alt_entry as_in_alt_setting alt)
                              * num_channels
                                  (bmChannelConfig
                                     (alt_entry as_in_alt_setting alt))))
                  = rate) by (subst rate; rewrite HFe; reflexivity).
  unfold min_t_unsigned in HP, HRe. rewrite rate_quotient_u32 in HP, HRe.
  rewrite Hrate, (u32_small _ Hmax) in HP, HRe.
  rewrite Z.min_l in HP, HRe by lia.
  assert (HRv : p_pktsize_residue u = rate mod 1000).
  { rewrite HRe.
    destruct (Z.ltb_spec (rate / 1000) (max_psize (p_prm (uac2 a))));
      [reflexivity|lia]. }
  assert (Hrr : 0 <= rate < 2 ^ 32) by (subst rate; apply u32_range).
  assert (Hq : 0 <= rate / 1000 < 2 ^ 32 / 1000 + 1).
  { split; [apply Z.div_pos; lia|].
    assert (rate / 1000 <= 2 ^ 32 / 1000) by (apply Z.div_le_mono; lia). lia. }
  destruct (pacing_ticks_conserve n u Hty ltac:(lia) ltac:(lia) ltac:(nia)
              ltac:(rewrite HI; lia) ltac:(rewrite HP; cbn in Hq; lia))
    as (lens & r & Hrun & Hrb & Hall & Hsum).
  destruct (pacing_ticks_bound n u Hty ltac:(lia) ltac:(lia) ltac:(nia))
    as (lens' & r' & Hrun' & _ & _ & _ & Hall').
  rewrite Hrun in Hrun'. injection Hrun' as <- _.
  exists lens, (chip_set_p_residue u r).
  split; [exact Hrun|]. cbn [p_residue chip_set_p_residue].
  rewrite HI, HP, HRv, Hr in Hsum.
  pose proof (Z.div_mod rate 1000 ltac:(lia)) as Hdm.
  split; [nia|]. split; [rewrite HI in Hrb; exact Hrb|].
  rewrite HP in Hall'.
  rewrite (u32_small (rate / 1000 + p_framesize u)) in Hall'
    by (unfold is_u32; cbn in Hq; lia).
  exact Hall'.
Qed.

Lemma pacing_ticks_no_residue n : forall u,
  pacing_typed u -> 1 <= p_framesize u -> p_interval u <> 0 ->
  p_pktsize_residue u = 0 -> p_residue u = 0 ->
  pacing_ticks n u = Some (repeat (p_pktsize u) n, u).
Proof.
  induction n as [|n IH]; intros u Hty HF HI HR Hr; [reflexivity|].
  assert (Htick : pacing_tick u = Some (p_pktsize u, u)).
  { unfold pacing_tick. rewrite HR, Hr.
    destruct (Z.eqb_spec (p_interval u) 0); [contradiction|].
    change (u32 (0 + 0)) with 0. rewrite Z.div_0_l by assumption.
    destruct (Z.leb_spec (p_framesize u) 0); [lia|].
    replace (chip_set_p_residue u 0) with u; [reflexivity|].
    rewrite <- Hr. symmetry. apply chip_set_p_residue_eta. }
  cbn [pacing_ticks repeat]. rewrite Htick, (IH u) by assumption.
  reflexivity.
Qed.

(** X23. When the byte rate is a whole multiple of 1000, or the base packet
    size is clamped at the packet-size limit, an activated playback stream
    sends packets of the base size [min(rate / 1000, max_psize)] forever and
    the pacing state never changes; in the clamped case it therefore sends
    less than the byte rate. *)
Theorem activated_constant_packets e a alt n :
  intf_distinct a -> 1 <= alt <= 6 ->
  is_u32 (max_psize (p_prm (uac2 a))) ->
  let u := set_alt_chip e a (as_in_intf a) alt in
  let rate := u32 (p_srate (opts a) * p_framesize u) in
  rate mod 1000 = 0 \/ max_psize (p_prm (uac2 a)) <= rate / 1000 ->
  pacing_ticks n u
  = Some (repeat (Z.min (rate / 1000) (max_psize (p_prm (uac2 a)))) n, u).
Proof.
  intros Hd Halt Hmax u rate Hcase.
  destruct (activated_chip_pacing e a alt Hd Halt)
    as (Hty & HF & HI & HR & Hr). fold u in Hty, HF, HI, HR, Hr.
  pose proof (activated_pacing_state e a alt Hd Halt) as Hp. fold u in Hp.
  unfold pacing_state, pacing_of in Hp.
  injection Hp as HFe _ HP HRe _.
  assert (Hrate : u32 (p_srate (opts a)
                       * u32 (bSubslotSize (alt_entry as_in_alt_setting alt)
                              * num_channels
                                  (bmChannelConfig
                                     (alt_entry as_in_alt_setting alt))))
                  = rate) by (subst rate; rewrite HFe; reflexivity).
  unfold min_t_unsigned in HP, HRe. rewrite rate_quotient_u32 in HP, HRe.
  rewrite Hrate, (u32_small _ Hmax) in HP, HRe.
  assert (HR0 : p_pktsize_residue u = 0).
  { rewrite HRe. destruct (Z.ltb_spec (Z.min (rate / 1000)
                                         (max_psize (p_prm (uac2 a))))
                             (max_psize (p_prm (uac2 a)))); [|reflexivity].
    destruct Hcase; [assumption|lia]. }
  rewrite <- HP.
  apply pacing_ticks_no_residue; auto; lia.
Qed.

(** X24. At the two rates a host can select, 44100 and 48000, and any
    setting of the playback table, every packet of an activated stream has
    at most 392 bytes, so it fits a request buffer of [max_psize] bytes
    whenever that limit is at least 392 (it is 1023). *)
Theorem activated_packets_fit e a alt n :
  intf_distinct a -> 1 <= alt <= 6 ->
  In (p_srate (opts a)) clk_frequencies ->
  392 <= max_psize (p_prm (uac2 a)) < 2 ^ 32 ->
  let u := set_alt_chip e a (as_in_intf a) alt in
  exists lens u',
    pacing_ticks n u = Some (lens, u')
    /\ Forall (fun len => 0 <= len <= 392
                          /\ len <= max_psize (p_prm (uac2 a))) lens.
Proof.
  intros Hd Halt Hrate Hmax u.
  destruct (activated_chip_pacing e a alt Hd Halt)
    as (Hty & HF & HI & HR & Hr). fold u in Hty, HF, HI, HR, Hr.
  pose proof (activated_pacing_state e a alt Hd Halt) as Hp. fold u in Hp.
  unfold pacing_state, pacing_of in Hp.
  injection Hp as HFe _ HP _ _.
  rewrite <- HFe in HP.
  assert (Hs : 0 <= p_srate (opts a) <= 48000).
  { unfold clk_frequencies in Hrate. cbn in Hrate.
    destruct Hrate as [<- | [<- | []]]; lia. }
  assert (Hprod : 0 <= p_srate (opts a) * p_framesize u <= 384000) by nia.
  unfold min_t_unsigned in HP. rewrite rate_quotient_u32 in HP.
  rewrite (u32_small (p_srate (opts a) * p_framesize u)) in HP
    by (unfold is_u32; lia).
  rewrite (u32_small (max_psize _)) in HP by (unfold is_u32; lia).
  assert (Hq : 0 <= p_srate (opts a) * p_framesize u / 1000 <= 384).
  { split; [apply Z.div_pos; lia|].
    apply Z.div_le_upper_bound; lia. }
  destruct (pacing_ticks_bound n u Hty ltac:(lia) ltac:(lia) ltac:(nia))
    as (lens & r & Hrun & _ & _ & _ & Hall).
  exists lens, (chip_set_p_residue u r). split; [exact Hrun|].
  eapply Forall_impl; [|exact Hall]. cbn beta. intros len Hl.
  rewrite (u32_small (p_pktsize u + p_framesize u)) in Hl
    by (unfold is_u32; lia).
  lia.
Qed.

(** ** Concrete runs of the further properties *)

Lemma period_elapsed_on_boundary_witness :
  exists sub bytes u' req' tr,
    ss (chip_prm CAPTURE capture_chip) = Some sub
    /\ completion_bytes sub capture_chip (iso_request 0 6) = Some bytes
    /\ agdev_iso_complete full_speed_env CAPTURE capture_chip
         (iso_request 0 6)
       = Some (u', req', tr)
    /\ actual req' = bytes
    /\ (hw_ptr (chip_prm CAPTURE capture_chip)
        mod period_size (chip_prm CAPTURE capture_chip) + bytes
        < 2 ^ 32 ->
        (In Ev_snd_pcm_period_elapsed tr
         <-> period_size (chip_prm CAPTURE capture_chip)
             <= hw_ptr (chip_prm CAPTURE capture_chip)
                mod period_size (chip_prm CAPTURE capture_chip)
                + bytes)).
Proof.
  apply (period_elapsed_on_boundary full_speed_env CAPTURE capture_chip
           (iso_request 0 6)).
  - unfold stream_ready, ring_ok, pacing_typed, is_u32, SSIZE_MAX. simpl.
    repeat split; try lia.
    exists {| stream := CAPTURE |}. split; [reflexivity|discriminate].
  - unfold is_u32. simpl. lia.
  - reflexivity.
Defined.

Lemma iso_copy_within_ring_witness :
  exists sub bytes u' req' tr,
    ss (chip_prm CAPTURE capture_chip) = Some sub
    /\ completion_bytes sub capture_chip (iso_request 0 6) = Some bytes
    /\ agdev_iso_complete full_speed_env CAPTURE capture_chip
         (iso_request 0 6)
       = Some (u', req', tr)
    /\ (dma_bytes (chip_prm CAPTURE capture_chip) < 2 ^ 32 ->
        copy_events tr
        = ring_transfer (stream sub) (hw_ptr (chip_prm CAPTURE capture_chip))
            (dma_bytes (chip_prm CAPTURE capture_chip)) bytes
        /\ (bytes <= dma_bytes (chip_prm CAPTURE capture_chip) ->
            Forall (copy_in_bounds (dma_bytes (chip_prm CAPTURE capture_chip))
                      bytes) tr
            /\ copied_bytes tr = bytes)).
Proof.
  apply (iso_copy_within_ring full_speed_env CAPTURE capture_chip
           (iso_request 0 6)).
  - unfold stream_ready, ring_ok, pacing_typed, is_u32, SSIZE_MAX. simpl.
    repeat split; try lia.
    exists {| stream := CAPTURE |}. split; [reflexivity|discriminate].
  - unfold is_u32. simpl. lia.
  - reflexivity.
Defined.

Lemma agdev_iso_complete_requeues_witness :
  queue_count
    [Ev_spin_lock CAPTURE; Ev_store_hw_ptr CAPTURE 6; Ev_spin_unlock CAPTURE;
     Ev_copy_req_to_ring 0 0 6; Ev_usb_ep_queue; Ev_snd_pcm_period_elapsed]
  = 1%nat.
Proof.
  exact (agdev_iso_complete_requeues full_speed_env CAPTURE capture_chip
           (iso_request 0 6) _ _ _ eq_refl).
Defined.

Lemma completions_after_stop_witness :
  let sub := {| stream := CAPTURE |} in
  let u0 := snd (fst (uac2_pcm_trigger capture_chip sub TRIGGER_STOP)) in
  let u1 := snd (uac2_pcm_hw_free u0 sub 0) in
  fst (fst (uac2_pcm_trigger capture_chip sub TRIGGER_STOP)) = 0
  /\ hw_ptr (chip_prm CAPTURE u0) = 0
  /\ exists tr0 tr1,
       iso_completions CAPTURE u0 capture_completions
       = Some (u0, map snd capture_completions, tr0)
       /\ iso_completions CAPTURE u1 capture_completions
          = Some (u1, map snd capture_completions, tr1)
       /\ Forall (fun ev => ev = Ev_usb_ep_queue \/ ev = Ev_dev_err
                            \/ ev = Ev_pr_debug) (tr0 ++ tr1).
Proof.
  apply (completions_after_stop capture_chip {| stream := CAPTURE |}
           TRIGGER_STOP capture_completions).
  left. reflexivity.
Defined.

Lemma hw_ptr_after_completions_witness :
  (exists u' reqs tr,
     iso_completions CAPTURE capture_chip capture_completions
     = Some (u', reqs, tr)
     /\ (stream {| stream := CAPTURE |} = CAPTURE ->
         reqs = map snd capture_completions
         /\ hw_ptr (chip_prm CAPTURE u')
            = (hw_ptr (chip_prm CAPTURE capture_chip)
               + handled_bytes (map snd capture_completions))
              mod dma_bytes (chip_prm CAPTURE capture_chip))
     /\ (stream {| stream := CAPTURE |} = PLAYBACK ->
         exists lens ut,
           pacing_ticks
             (List.length (handled (map snd capture_completions)))
             capture_chip
           = Some (lens, ut)
           /\ map actual (handled reqs) = lens
           /\ pacing_state u' = pacing_state ut
           /\ hw_ptr (chip_prm CAPTURE u')
              = (hw_ptr (chip_prm CAPTURE capture_chip) + sum_lengths lens)
                mod dma_bytes (chip_prm CAPTURE capture_chip)))
  /\ (let cs := repeat (full_speed_env, iso_request 0 0) 10 in
      exists u' reqs tr,
        iso_completions PLAYBACK playback_chip cs = Some (u', reqs, tr)
        /\ (stream {| stream := PLAYBACK |} = CAPTURE ->
            reqs = map snd cs
            /\ hw_ptr (chip_prm PLAYBACK u')
               = (hw_ptr (chip_prm PLAYBACK playback_chip)
                  + handled_bytes (map snd cs))
                 mod dma_bytes (chip_prm PLAYBACK playback_chip))
        /\ (stream {| stream := PLAYBACK |} = PLAYBACK ->
            exists lens ut,
              pacing_ticks (List.length (handled (map snd cs))) playback_chip
              = Some (lens, ut)
              /\ map actual (handled reqs) = lens
              /\ pacing_state u' = pacing_state ut
              /\ hw_ptr (chip_prm PLAYBACK u')
                 = (hw_ptr (chip_prm PLAYBACK playback_chip)
                    + sum_lengths lens)
                   mod dma_bytes (chip_prm PLAYBACK playback_chip))).
Proof.
  split.
  - apply (hw_ptr_after_completions CAPTURE {| stream := CAPTURE |}
             capture_completions capture_chip).
    + unfold stream_ready, ring_ok, pacing_typed, is_u32, SSIZE_MAX. simpl.
      repeat split; try lia.
      exists {| stream := CAPTURE |}. split; [reflexivity|discriminate].
    + reflexivity.
    + reflexivity.
    + unfold capture_completions, is_u32. repeat constructor; simpl; lia.
  - apply (hw_ptr_after_completions PLAYBACK {| stream := PLAYBACK |}
             (repeat (full_speed_env, iso_request 0 0) 10) playback_chip).
    + unfold stream_ready, ring_ok, pacing_typed, is_u32, SSIZE_MAX.
      split; [|split].
      * vm_compute. repeat split; try reflexivity; intro; discriminate.
      * vm_compute. repeat split; try reflexivity; intro; discriminate.
      * exists {| stream := PLAYBACK |}. split; [reflexivity|].
        intros _. vm_compute. discriminate.
    + reflexivity.
    + reflexivity.
    + unfold is_u32. repeat constructor; simpl; lia.
Defined.

Lemma agdev_iso_complete_other_direction_witness :
  chip_prm (other_dir CAPTURE)
    (chip_set_prm CAPTURE capture_chip
       (prm_set_hw_ptr (c_prm capture_chip) 6))
  = chip_prm (other_dir CAPTURE) capture_chip
  /\ (ss (chip_prm CAPTURE capture_chip) <> Some {| stream := PLAYBACK |} ->
      pacing_state
        (chip_set_prm CAPTURE capture_chip
           (prm_set_hw_ptr (c_prm capture_chip) 6))
      = pacing_state capture_chip
      /\ iso_request 0 6 = iso_request 0 6).
Proof.
  exact (agdev_iso_complete_other_direction full_speed_env CAPTURE
           capture_chip (iso_request 0 6) _ _ _ eq_refl).
Defined.

Lemma afunc_set_alt_keeps_pools_witness :
  pool_ok (p_prm (uac2 (set_alt_dev short_of_memory_env (bound_dev 44100) 2 3)))
  /\ pool_ok
       (c_prm (uac2 (set_alt_dev short_of_memory_env (bound_dev 44100) 2 3))).
Proof.
  apply (afunc_set_alt_keeps_pools short_of_memory_env (bound_dev 44100) 2 3).
  - split; [reflexivity|]. intros _. simpl. repeat constructor.
  - split; [reflexivity|]. intros _. simpl. repeat constructor.
Defined.

Lemma set_alt_zero_releases_witness :
  let a := set_alt_dev short_of_memory_env (bound_dev 44100) 2 3 in
  let r := afunc_set_alt full_speed_env a (stream_intf a PLAYBACK) 0 in
  let a' := snd (fst r) in
  fst (fst r) = 0
  /\ ep_enabled (chip_prm PLAYBACK (uac2 a')) = false
  /\ all_empty (ureq (chip_prm PLAYBACK (uac2 a')))
  /\ fst (afunc_get_alt a' (stream_intf a PLAYBACK)) = 0.
Proof.
  apply (set_alt_zero_releases full_speed_env
           (set_alt_dev short_of_memory_env (bound_dev 44100) 2 3) PLAYBACK).
  - unfold intf_distinct. vm_compute. repeat split; discriminate.
  - split; [reflexivity|]. intros H. vm_compute in H. discriminate H.
Defined.

Lemma set_alt_activation_arms_witness :
  let a := bound_dev 44100 in
  let r := afunc_set_alt short_of_memory_env a (stream_intf a CAPTURE) 3 in
  let a' := snd (fst r) in
  (fst (fst r) = 0 \/ fst (fst r) = - ENOMEM)
  /\ ep_enabled (chip_prm CAPTURE (uac2 a')) = true
  /\ stream_alt a' CAPTURE = 3
  /\ (fst (fst r) = 0
      <-> forall j, nth_error (ureq (chip_prm CAPTURE (uac2 a))) j = Some None
                    -> alloc_ok short_of_memory_env j = true)
  /\ (fst (fst r) = 0 ->
      all_armed (ureq (chip_prm CAPTURE (uac2 a')))
      /\ queue_count (snd r) = USB_XFERS).
Proof.
  apply (set_alt_activation_arms short_of_memory_env (bound_dev 44100)
           CAPTURE 3).
  - unfold intf_distinct. simpl. repeat split; lia.
  - lia.
  - split; [reflexivity|]. intros _. simpl. repeat constructor.
Defined.

(** The failed activation evaluated: five requests armed, [-ENOMEM], the
    endpoint enabled and setting 3 recorded. *)
Example failed_activation_not_rolled_back :
  let r := afunc_set_alt short_of_memory_env (bound_dev 44100) 1 3 in
  fst (fst r) = - ENOMEM
  /\ map (fun s => match s with Some _ => true | None => false end)
       (ureq (c_prm (uac2 (snd (fst r)))))
     = [true; true; true; true; true; false; false; false]
  /\ ep_enabled (c_prm (uac2 (snd (fst r)))) = true
  /\ fst (afunc_get_alt (snd (fst r)) 1) = 3.
Proof. repeat split. Qed.

Lemma get_alt_after_set_alt_witness :
  let a := bound_dev 48000 in
  let a' := set_alt_dev full_speed_env a (stream_intf a PLAYBACK) 5 in
  fst (afunc_get_alt a' (stream_intf a PLAYBACK)) = 5
  /\ fst (afunc_get_alt a' (stream_intf a (other_dir PLAYBACK)))
     = stream_alt a (other_dir PLAYBACK)
  /\ fst (afunc_get_alt a' (ac_intf a)) = ac_alt a.
Proof.
  apply (get_alt_after_set_alt full_speed_env (bound_dev 48000) PLAYBACK 5).
  - unfold intf_distinct. simpl. repeat split; lia.
  - lia.
Defined.

Lemma set_alt_other_direction_witness :
  let a := bound_dev 48000 in
  let a' := set_alt_dev full_speed_env a (stream_intf a CAPTURE) 4 in
  chip_prm (other_dir CAPTURE) (uac2 a')
  = chip_prm (other_dir CAPTURE) (uac2 a)
  /\ dir_opts (opts a') (other_dir CAPTURE)
     = dir_opts (opts a) (other_dir CAPTURE)
  /\ stream_alt a' (other_dir CAPTURE) = stream_alt a (other_dir CAPTURE)
  /\ (CAPTURE = CAPTURE -> pacing_state (uac2 a') = pacing_state (uac2 a)).
Proof.
  apply (set_alt_other_direction full_speed_env (bound_dev 48000) CAPTURE 4).
  - unfold intf_distinct. simpl. repeat split; lia.
  - lia.
Defined.

Lemma afunc_disable_releases_witness :
  let a := set_alt_dev full_speed_env (bound_dev 48000) 2 2 in
  let a' := fst (afunc_disable full_speed_env a) in
  as_in_alt a' = 0 /\ as_out_alt a' = 0
  /\ (forall d, ep_enabled (chip_prm d (uac2 a')) = false
                /\ all_empty (ureq (chip_prm d (uac2 a'))))
  /\ pacing_state (uac2 a') = pacing_state (uac2 a)
  /\ opts a' = opts a
  /\ hd_error (snd (afunc_disable full_speed_env a))
     = Some Nt_queue_work_disconnect.
Proof.
  apply (afunc_disable_releases full_speed_env
           (set_alt_dev full_speed_env (bound_dev 48000) 2 2)).
  - split; [reflexivity|]. intros H. vm_compute in H. discriminate H.
  - split; [reflexivity|]. intros _. vm_compute. repeat constructor.
Defined.

Lemma uac2_pcm_open_needs_active_alt_witness :
  fst (fst (fst (uac2_pcm_open 4096 (bound_dev 48000)
                   {| stream := PLAYBACK |}))) = - EPIPE
  /\ fst (fst (fst (uac2_pcm_open 4096
                      (set_alt_dev full_speed_env (bound_dev 48000) 2 2)
                      {| stream := PLAYBACK |}))) = 0.
Proof.
  split.
  - apply (proj1 (uac2_pcm_open_needs_active_alt 4096 (bound_dev 48000)
                    {| stream := PLAYBACK |})).
    reflexivity.
  - apply (proj1 (proj2 (uac2_pcm_open_needs_active_alt 4096
                           (set_alt_dev full_speed_env (bound_dev 48000) 2 2)
                           {| stream := PLAYBACK |}))).
    vm_compute. discriminate.
Defined.

Lemma open_after_activation_witness :
  let a := bound_dev 48000 in
  let a1 := set_alt_dev full_speed_env a (stream_intf a PLAYBACK) 4 in
  let r := uac2_pcm_open 4096 a1 {| stream := PLAYBACK |} in
  let hw := snd (fst r) in
  fst (fst (fst r)) = 0
  /\ formats hw = Some (alt_pcm_format 4)
  /\ channels_min hw = (if Z.odd 4 then 1 else 2)
  /\ channels_max hw = channels_min hw
  /\ rate_min hw = u32 (fst (fst (fst (dir_opts (opts a) PLAYBACK))))
  /\ rate_max hw = rate_min hw
  /\ period_bytes_min hw
     = u32 (2 * max_psize (chip_prm PLAYBACK (uac2 a))) / 4.
Proof.
  apply (open_after_activation 4096 full_speed_env (bound_dev 48000)
           PLAYBACK 4).
  - unfold intf_distinct. simpl. repeat split; lia.
  - lia.
Defined.

(** The hardware description a playback open gets after setting 4 at
    48000 Hz. *)
Example open_after_setting_4 :
  snd (fst (uac2_pcm_open 4096
              (set_alt_dev full_speed_env (bound_dev 48000) 2 4)
              {| stream := PLAYBACK |}))
  = {| formats := Some S24_3LE; rate_min := 48000; rate_max := 48000;
       channels_min := 2; channels_max := 2; buffer_bytes_max := 65536;
       period_bytes_min := 511; period_bytes_max := 4096;
       periods_min := 4; periods_max := 16 |}.
Proof. reflexivity. Qed.

(** A work item that finds the stream active while the previous "params
    changed" is still outstanding closes first, sleeps, and reports again. *)
Example uevent_work_missed_disconnect :
  uevent_work PLAYBACK 2 2 true
  = ([Nt Ev_pr_debug; Nt_kobject_uevent (HOST_STREAM_CLOSED PLAYBACK);
      Nt_msleep 20; Nt Ev_pr_debug;
      Nt_kobject_uevent (HOST_STREAM_PARAMS_CHANGED PLAYBACK)], true).
Proof. reflexivity. Qed.

Lemma get_cur_reports_rate_witness :
  let r := in_rq_cur (opts (bound_dev 48000)) get_cur_in_clk stale_stack
             (ep0_request 6) in
  let n := Z.to_nat (Z.min (u16 (wLength get_cur_in_clk)) 4) in
  fst (fst r) = Z.min (u16 (wLength get_cur_in_clk)) 4
  /\ buf (snd (fst r))
     = firstn n (le32 (dir_srate (opts (bound_dev 48000)) PLAYBACK))
       ++ skipn n (buf (ep0_request 6)).
Proof.
  apply (get_cur_reports_rate (opts (bound_dev 48000)) get_cur_in_clk
           stale_stack (ep0_request 6) PLAYBACK); reflexivity.
Defined.

Lemma set_cur_then_get_cur_witness :
  let o := opts (bound_dev 44100) in
  let req1 := snd (fst (out_rq_cur o set_cur_in_clk (ep0_request 4))) in
  let o' := fst (run_complete o (deliver req1 48000)) in
  let r := in_rq_cur o' get_cur_in_clk stale_stack (ep0_request 6) in
  fst (fst r) = 4 /\ load_le32 (buf (snd (fst r))) = 48000.
Proof.
  apply (set_cur_then_get_cur (opts (bound_dev 44100)) PLAYBACK
           set_cur_in_clk get_cur_in_clk (ep0_request 4) (ep0_request 6)
           stale_stack 48000).
  - reflexivity.
  - reflexivity.
  - reflexivity.
  - reflexivity.
  - right. reflexivity.
  - vm_compute. discriminate.
Defined.

Lemma afunc_setup_reply_bounded_witness :
  let r := afunc_setup (bound_dev 48000) get_range_in_clk stale_stack 0
             (ep0_request 64) in
  0 <= length (snd (fst r)) <= u16 (wLength get_range_in_clk)
  /\ zero (snd (fst r))
     = (length (snd (fst r)) <? u16 (wLength get_range_in_clk))
  /\ fst (fst r) = 0.
Proof.
  apply (afunc_setup_reply_bounded (bound_dev 48000) get_range_in_clk
           stale_stack 0 (ep0_request 64)).
  vm_compute. right. left. reflexivity.
Defined.

Lemma afunc_setup_rejects_witness :
  let r := afunc_setup (bound_dev 48000) vendor_request stale_stack 0
             (ep0_request 4) in
  fst (fst r) = - EOPNOTSUPP /\ snd (fst r) = ep0_request 4
  /\ ~ In Ev_usb_ep_queue (snd r).
Proof.
  apply (afunc_setup_rejects (bound_dev 48000) vendor_request stale_stack 0
           (ep0_request 4)).
  left. unfold for_control_interface. vm_compute.
  intros (H & _). discriminate H.
Defined.

Lemma run_completes_keep_rates_witness :
  let o := opts (bound_dev 44100) in
  let reqs :=
    [deliver (req_set_complete (ep0_request 4) cb_set_p_srate_complete) 48000;
     deliver (req_set_complete (ep0_request 4) cb_set_c_srate_complete) 96000;
     deliver (req_set_complete (ep0_request 4) cb_set_p_srate_complete) 7] in
  rates_supported (run_completes o reqs)
  /\ (p_chmask (run_completes o reqs), p_ssize (run_completes o reqs),
      p_sres (run_completes o reqs), c_chmask (run_completes o reqs),
      c_ssize (run_completes o reqs), c_sres (run_completes o reqs))
     = (p_chmask o, p_ssize o, p_sres o, c_chmask o, c_ssize o, c_sres o).
Proof.
  apply (run_completes_keep_rates
           [deliver (req_set_complete (ep0_request 4) cb_set_p_srate_complete)
              48000;
            deliver (req_set_complete (ep0_request 4) cb_set_c_srate_complete)
              96000;
            deliver (req_set_complete (ep0_request 4) cb_set_p_srate_complete)
              7]
           (opts (bound_dev 44100))).
  split; simpl; left; reflexivity.
Defined.

Lemma activated_byte_accounting_witness :
  let a := bound_dev 44100 in
  let u := set_alt_chip full_speed_env a (as_in_intf a) 6 in
  let rate := u32 (p_srate (opts a) * p_framesize u) in
  exists lens u',
    pacing_ticks 37 u = Some (lens, u')
    /\ 1000 * sum_lengths lens + p_residue u' = Z.of_nat 37 * rate
    /\ 0 <= p_residue u' < p_framesize u * 1000
    /\ Forall (fun len => len = rate / 1000
                          \/ len = rate / 1000 + p_framesize u) lens.
Proof.
  apply (activated_byte_accounting full_speed_env (bound_dev 44100) 6 37).
  - unfold intf_distinct. simpl. repeat split; lia.
  - lia.
  - vm_compute. split; [discriminate|reflexivity].
  - vm_compute. reflexivity.
Defined.

Lemma activated_constant_packets_witness :
  let a := bound_dev 48000 in
  let u := set_alt_chip high_speed_env a (as_in_intf a) 2 in
  let rate := u32 (p_srate (opts a) * p_framesize u) in
  pacing_ticks 9 u
  = Some (repeat (Z.min (rate / 1000) (max_psize (p_prm (uac2 a)))) 9, u).
Proof.
  apply (activated_constant_packets high_speed_env (bound_dev 48000) 2 9).
  - unfold intf_distinct. simpl. repeat split; lia.
  - lia.
  - vm_compute. split; [discriminate|reflexivity].
  - left. vm_compute. reflexivity.
Defined.

Lemma activated_packets_fit_witness :
  let a := bound_dev 48000 in
  let u := set_alt_chip full_speed_env a (as_in_intf a) 6 in
  exists lens u',
    pacing_ticks 20 u = Some (lens, u')
    /\ Forall (fun len => 0 <= len <= 392
                          /\ len <= max_psize (p_prm (uac2 a))) lens.
Proof.
  apply (activated_packets_fit full_speed_env (bound_dev 48000) 6 20).
  - unfold intf_distinct. simpl. repeat split; lia.
  - lia.
  - simpl. right. left. reflexivity.
  - vm_compute. split; [discriminate|reflexivity].
Defined.
